(** * Game Store platform: framing, developer ingestion, lobby rooms

    A shallow embedding of the Python services of the repository
    (src/common/framing.py, src/common/manifest.py, src/server/db_server.py,
    src/server/developer_server.py, src/server/lobby_server.py) together
    with the properties stated about them.

    Conventions.  Every request handler is modelled as one atomic step on an
    explicit state (the module-level dictionaries of the service, the rows of
    the store, the files on disk and the frames written to each socket).
    Python dictionaries are finite maps, SQLite tables are lists of rows in
    insertion order, byte strings are lists of bytes. *)

From Stdlib Require Import ZArith Lia Strings.Byte Ascii String.
From stdpp Require Import base option list gmap strings pretty.

Local Open Scope Z_scope.

#[global] Instance byte_eq_dec : EqDecision byte := Byte.byte_eq_dec.

(** ** Exceptions and results shared by the services *)

Inductive exn : Type :=
| FramingError (msg : string)
| StructError.

Inductive outcome (A : Type) : Type :=
| Returned (a : A)
| Raised (e : exn).
Arguments Returned {A} a.
Arguments Raised {A} e.

(** ** Python idioms used throughout the services

    Requests are modelled after JSON decoding, each field at the type the
    clients send it (integers for ids and sizes, strings for names): a field
    that is absent or [null] is [None].  Text is ASCII. *)

Module Py.

(** [int(x or d)] for an optional integer field. *)
Definition or_int (x : option Z) (d : Z) : Z :=
  match x with
  | Some n => if decide (n = 0) then d else n
  | None => d
  end.

(** [str(x or d)] for an optional string field. *)
Definition or_str (x : option string) (d : string) : string :=
  match x with
  | Some s => match s with EmptyString => d | _ => s end
  | None => d
  end.

(** [bool(s)] for a string. *)
Definition truthy (s : string) : bool :=
  match s with EmptyString => false | _ => true end.

(** The ASCII characters [str.strip()] removes. *)
Definition is_space (c : ascii) : bool :=
  let n := nat_of_ascii c in
  ((9 <=? n)%nat && (n <=? 13)%nat) || ((28 <=? n)%nat && (n <=? 32)%nat).

Fixpoint lstrip (s : string) : string :=
  match s with
  | String c s' => if is_space c then lstrip s' else s
  | EmptyString => EmptyString
  end.

Definition rev (s : string) : string :=
  string_of_list_ascii (List.rev (list_ascii_of_string s)).

Definition strip (s : string) : string := rev (lstrip (rev (lstrip s))).

Definition lower_char (c : ascii) : ascii :=
  let n := nat_of_ascii c in
  if ((65 <=? n)%nat && (n <=? 90)%nat) then ascii_of_nat (n + 32) else c.

Fixpoint lower (s : string) : string :=
  match s with
  | String c s' => String (lower_char c) (lower s')
  | EmptyString => EmptyString
  end.

(** [needle in haystack] for strings. *)
Fixpoint startswith (p s : string) : bool :=
  match p, s with
  | EmptyString, _ => true
  | String a p', String b s' => if decide (a = b) then startswith p' s' else false
  | String _ _, EmptyString => false
  end.

Fixpoint contains (needle s : string) : bool :=
  startswith needle s ||
  match s with
  | String _ s' => contains needle s'
  | EmptyString => false
  end.

(** [sep.join(parts)]. *)
Fixpoint join (sep : string) (parts : list string) : string :=
  match parts with
  | [] => EmptyString
  | [p] => p
  | p :: rest => p +:+ sep +:+ join sep rest
  end.

(** [sorted(set(l))] for a list of integers: ascending, no duplicates. *)
Fixpoint insert_sorted (x : Z) (l : list Z) : list Z :=
  match l with
  | [] => [x]
  | y :: l' =>
      if decide (x < y) then x :: l
      else if decide (x = y) then l
      else y :: insert_sorted x l'
  end.

Definition sorted_set (l : list Z) : list Z :=
  foldr insert_sorted [] l.

(** The double quote, which cannot be written inside a literal. *)
Definition dq : string := String (ascii_of_nat 34) EmptyString.

End Py.

(** ** src/common/framing.py *)

Module Framing.

(** [HDR = struct.Struct("!I")]: four bytes, network byte order. *)
Definition HDR_size : nat := 4.
Definition MAX_FRAME : Z := 64 * 1024.

Definition byte_of_Z (z : Z) : byte :=
  match Byte.of_N (Z.to_N (z mod 256)) with
  | Some b => b
  | None => x00
  end.

Definition Z_of_byte (b : byte) : Z := Z.of_N (Byte.to_N b).

(** [HDR.pack(n)] raises [struct.error] outside the range of uint32. *)
Definition HDR_pack (n : Z) : option (list byte) :=
  if decide (0 <= n < 2 ^ 32) then
    Some [ byte_of_Z (Z.shiftr n 24); byte_of_Z (Z.shiftr n 16);
           byte_of_Z (Z.shiftr n 8); byte_of_Z n ]
  else None.

(** [HDR.unpack(hdr)] needs exactly four bytes. *)
Definition HDR_unpack (hdr : list byte) : option Z :=
  match hdr with
  | [b3; b2; b1; b0] =>
      Some (Z.lor (Z.shiftl (Z_of_byte b3) 24)
           (Z.lor (Z.shiftl (Z_of_byte b2) 16)
           (Z.lor (Z.shiftl (Z_of_byte b1) 8) (Z_of_byte b0))))
  | _ => None
  end.

(** A writer is the sequence of bytes written to the socket so far. *)
Definition writer := list byte.

Definition send_frame (w : writer) (payload : list byte) : outcome writer :=
  if decide (payload = [] \/ Z.of_nat (length payload) > MAX_FRAME) then
    Raised (FramingError "bad frame size")
  else
    match HDR_pack (Z.of_nat (length payload)) with
    | None => Raised StructError
    | Some hdr => Returned ((w ++ hdr) ++ payload)
    end.

(** A reader is the sequence of segments still to arrive, followed by end
    of stream.  [reader.read(k)] hands out at most [k] bytes of the first
    pending data and the empty byte string at end of stream. *)
Definition reader := list (list byte).

Fixpoint reader_read (k : nat) (rd : reader) : list byte * reader :=
  match rd with
  | [] => ([], [])
  | seg :: rest =>
      match seg with
      | [] => reader_read k rest
      | _ => (take k seg, drop k seg :: rest)
      end
  end.

(** The [while len(buf) < n] loop of [_read_exact]; the fuel bounds the
    number of iterations, and [None] means the fuel ran out. *)
Fixpoint _read_exact_loop (fuel n : nat) (buf : list byte) (rd : reader)
  : option (option (list byte) * reader) :=
  if decide (length buf < n)%nat then
    match fuel with
    | O => None
    | S fuel' =>
        let '(chunk, rd') := reader_read (n - length buf) rd in
        match chunk with
        | [] => Some (None, rd')
        | _ => _read_exact_loop fuel' n (buf ++ chunk) rd'
        end
    end
  else Some (Some buf, rd).

(** Every iteration adds at least one byte, so [n] iterations suffice. *)
Definition _read_exact (n : nat) (rd : reader)
  : option (option (list byte) * reader) :=
  _read_exact_loop n n [] rd.

Definition recv_frame (rd : reader)
  : option (outcome (option (list byte)) * reader) :=
  match _read_exact HDR_size rd with
  | None => None
  | Some (None, rd1) => Some (Returned None, rd1)
  | Some (Some hdr, rd1) =>
      match HDR_unpack hdr with
      | None => Some (Raised StructError, rd1)
      | Some len =>
          if decide (len = 0 \/ len > MAX_FRAME) then
            Some (Raised (FramingError "bad length"), rd1)
          else
            match _read_exact (Z.to_nat len) rd1 with
            | None => None
            | Some (body, rd2) => Some (Returned body, rd2)
            end
      end
  end.

End Framing.

(** ** src/server/db_server.py: the record store

    Tables are lists of rows in insertion order; an AUTOINCREMENT key is the
    table's sequence counter plus one.  [now] is the value of [now_ts()] when
    the request is served.  A lookup by key takes the first matching row.
    Only the actions the developer and lobby services call are given; the
    account tables are left out, and the replies of [PlayerUser]/[DevUser]
    are inputs of the login handlers. *)

Module Store.

Inductive reply (A : Type) : Type :=
| OK (data : A)
| ERR (error : string).
Arguments OK {A} data.
Arguments ERR {A} error.

Record Game := mkGame {
  g_id : Z; g_gameId : string; g_name : string; g_description : string;
  g_developerId : Z; g_delisted : Z; g_createdAt : Z; g_updatedAt : Z }.

Record GameVersion := mkGameVersion {
  gv_id : Z; gv_gameFk : Z; gv_version : string; gv_changelog : string;
  gv_uploadedAt : Z; gv_fileName : string; gv_sizeBytes : Z;
  gv_sha256 : string; gv_zipPath : list string;
  gv_extractedPath : list string; gv_manifestJson : string;
  gv_clientType : string; gv_minPlayers : Z; gv_maxPlayers : Z }.

Record Review := mkReview {
  rv_id : Z; rv_gameFk : Z; rv_playerId : Z; rv_rating : Z;
  rv_comment : string; rv_createdAt : Z; rv_updatedAt : Z }.

Record Room := mkRoom {
  r_id : Z; r_hostPlayerId : Z; r_gameFk : Z; r_gameVersionFk : Z;
  r_status : string; r_createdAt : Z; r_updatedAt : Z }.

Record RoomMember := mkRoomMember {
  m_roomId : Z; m_playerId : Z; m_joinedAt : Z }.

Record MatchLog := mkMatchLog {
  ml_id : Z; ml_roomId : Z; ml_gameFk : Z; ml_gameVersionFk : Z;
  ml_startedAt : Z; ml_endedAt : Z; ml_reason : string;
  ml_winnerPlayerId : option Z; ml_resultsJson : string }.

Record db := mkDb {
  Game_rows : list Game; Game_seq : Z;
  GameVersion_rows : list GameVersion; GameVersion_seq : Z;
  Review_rows : list Review; Review_seq : Z;
  Room_rows : list Room; Room_seq : Z;
  RoomMember_rows : list RoomMember;
  MatchLog_rows : list MatchLog; MatchLog_seq : Z }.

Definition empty_db : db := mkDb [] 0 [] 0 [] 0 [] 0 [] [] 0.

Definition with_Games (rows : list Game) (seq : Z) (d : db) : db :=
  mkDb rows seq (GameVersion_rows d) (GameVersion_seq d) (Review_rows d)
    (Review_seq d) (Room_rows d) (Room_seq d) (RoomMember_rows d)
    (MatchLog_rows d) (MatchLog_seq d).

Definition with_GameVersions (rows : list GameVersion) (seq : Z) (d : db) : db :=
  mkDb (Game_rows d) (Game_seq d) rows seq (Review_rows d) (Review_seq d)
    (Room_rows d) (Room_seq d) (RoomMember_rows d) (MatchLog_rows d)
    (MatchLog_seq d).

Definition with_Reviews (rows : list Review) (seq : Z) (d : db) : db :=
  mkDb (Game_rows d) (Game_seq d) (GameVersion_rows d) (GameVersion_seq d)
    rows seq (Room_rows d) (Room_seq d) (RoomMember_rows d)
    (MatchLog_rows d) (MatchLog_seq d).

Definition with_Rooms (rows : list Room) (seq : Z) (d : db) : db :=
  mkDb (Game_rows d) (Game_seq d) (GameVersion_rows d) (GameVersion_seq d)
    (Review_rows d) (Review_seq d) rows seq (RoomMember_rows d)
    (MatchLog_rows d) (MatchLog_seq d).

Definition with_RoomMembers (rows : list RoomMember) (d : db) : db :=
  mkDb (Game_rows d) (Game_seq d) (GameVersion_rows d) (GameVersion_seq d)
    (Review_rows d) (Review_seq d) (Room_rows d) (Room_seq d) rows
    (MatchLog_rows d) (MatchLog_seq d).

Definition with_MatchLogs (rows : list MatchLog) (seq : Z) (d : db) : db :=
  mkDb (Game_rows d) (Game_seq d) (GameVersion_rows d) (GameVersion_seq d)
    (Review_rows d) (Review_seq d) (Room_rows d) (Room_seq d)
    (RoomMember_rows d) rows seq.

(** *** Row lookups ([SELECT ... WHERE key=?], first row) *)

Definition find_game_by_gameId (d : db) (game_id : string) : option Game :=
  List.find (fun g => bool_decide (g_gameId g = game_id)) (Game_rows d).

Definition find_game_by_id (d : db) (id : Z) : option Game :=
  List.find (fun g => bool_decide (g_id g = id)) (Game_rows d).

Definition find_version_by_id (d : db) (id : Z) : option GameVersion :=
  List.find (fun v => bool_decide (gv_id v = id)) (GameVersion_rows d).

Definition find_room_by_id (d : db) (id : Z) : option Room :=
  List.find (fun r => bool_decide (r_id r = id)) (Room_rows d).

(** *** Game *)

Definition Game_create (now : Z) (d : db)
    (game_id name description : string) (developer_id : Z) : db * reply Z :=
  let game_id := Py.strip game_id in
  let name := Py.strip name in
  let description := Py.strip description in
  if negb (Py.truthy game_id) || negb (Py.truthy name)
     || negb (Py.truthy description) || bool_decide (developer_id <= 0)
  then (d, ERR "missing_fields")
  else
    match find_game_by_gameId d game_id with
    | Some _ => (d, ERR "game_exists")
    | None =>
        let id := Game_seq d + 1 in
        (with_Games
           (Game_rows d ++ [mkGame id game_id name description developer_id 0 now now])
           id d,
         OK id)
    end.

Definition Game_get_by_gameId (d : db) (game_id : string) : reply Game :=
  let game_id := Py.strip game_id in
  if negb (Py.truthy game_id) then ERR "missing_fields"
  else
    match find_game_by_gameId d game_id with
    | None => ERR "not_found"
    | Some g => OK g
    end.

Definition Game_set_delisted (now : Z) (d : db)
    (game_id : string) (delisted : bool) (developer_id : Z) : db * reply unit :=
  let game_id := Py.strip game_id in
  let flag := if delisted then 1 else 0 in
  if negb (Py.truthy game_id) || bool_decide (developer_id <= 0)
  then (d, ERR "missing_fields")
  else
    match find_game_by_gameId d game_id with
    | None => (d, ERR "not_found")
    | Some row =>
        if decide (g_developerId row <> developer_id) then (d, ERR "not_owner")
        else
          (with_Games
             (map (fun g => if decide (g_gameId g = game_id)
                            then mkGame (g_id g) (g_gameId g) (g_name g)
                                        (g_description g) (g_developerId g)
                                        flag (g_createdAt g) now
                            else g) (Game_rows d))
             (Game_seq d) d,
           OK ())
    end.

(** *** GameVersion *)

Record GameVersion_fields := mkGameVersionFields {
  f_changelog : string; f_fileName : string; f_sizeBytes : Z;
  f_sha256 : string; f_zipPath : list string;
  f_extractedPath : list string; f_manifestJson : string;
  f_clientType : string; f_minPlayers : Z; f_maxPlayers : Z }.

(** [UNIQUE(gameFk, version)] *)
Definition version_taken (d : db) (game_fk : Z) (version : string) : bool :=
  existsb (fun v => bool_decide (gv_gameFk v = game_fk)
                    && bool_decide (gv_version v = version))
          (GameVersion_rows d).

Definition bump_game_updatedAt (now id : Z) (g : Game) : Game :=
  if decide (g_id g = id) then
    mkGame (g_id g) (g_gameId g) (g_name g) (g_description g)
           (g_developerId g) (g_delisted g) (g_createdAt g) now
  else g.

Definition GameVersion_create (now : Z) (d : db)
    (game_db_id : Z) (version : string) (f : GameVersion_fields)
  : db * reply Z :=
  let version := Py.strip version in
  if bool_decide (game_db_id <= 0) || negb (Py.truthy version)
  then (d, ERR "missing_fields")
  else if version_taken d game_db_id version
  then (d, ERR "version_exists")
  else
    let id := GameVersion_seq d + 1 in
    let row :=
      mkGameVersion id game_db_id version (Py.strip (f_changelog f)) now
        (f_fileName f) (f_sizeBytes f) (f_sha256 f) (f_zipPath f)
        (f_extractedPath f) (f_manifestJson f) (f_clientType f)
        (f_minPlayers f) (f_maxPlayers f) in
    let d1 := with_GameVersions (GameVersion_rows d ++ [row]) id d in
    (with_Games (map (bump_game_updatedAt now game_db_id) (Game_rows d1))
       (Game_seq d1) d1,
     OK id).

(** [ORDER BY uploadedAt DESC, id DESC LIMIT 1] *)
Definition newer (a b : GameVersion) : bool :=
  bool_decide (gv_uploadedAt b < gv_uploadedAt a)
  || (bool_decide (gv_uploadedAt a = gv_uploadedAt b)
      && bool_decide (gv_id b < gv_id a)).

Fixpoint newest (rows : list GameVersion) : option GameVersion :=
  match rows with
  | [] => None
  | v :: rest =>
      match newest rest with
      | None => Some v
      | Some w => if newer w v then Some w else Some v
      end
  end.

Definition GameVersion_latest_for_gameId (d : db) (game_id : string)
  : reply GameVersion :=
  let game_id := Py.strip game_id in
  if negb (Py.truthy game_id) then ERR "missing_fields"
  else
    match find_game_by_gameId d game_id with
    | None => ERR "not_found"
    | Some g =>
        if decide (g_delisted g <> 0) then ERR "game_delisted"
        else
          match newest (filter (fun v => gv_gameFk v = g_id g)
                               (GameVersion_rows d)) with
          | None => ERR "no_version"
          | Some v => OK v
          end
    end.

Definition GameVersion_get_by_id (d : db) (vid : Z) : reply GameVersion :=
  if decide (vid <= 0) then ERR "missing_fields"
  else
    match find_version_by_id d vid with
    | None => ERR "not_found"
    | Some v => OK v
    end.

(** *** Review *)

Definition Review_upsert (now : Z) (d : db)
    (game_id : string) (player_id rating : Z) (comment : string)
  : db * reply unit :=
  let game_id := Py.strip game_id in
  let comment := Py.strip comment in
  if negb (Py.truthy game_id) || bool_decide (player_id <= 0)
     || bool_decide (rating < 1) || bool_decide (rating > 5)
  then (d, ERR "bad_request")
  else
    match find_game_by_gameId d game_id with
    | None => (d, ERR "not_found")
    | Some g =>
        let same r := bool_decide (rv_gameFk r = g_id g)
                      && bool_decide (rv_playerId r = player_id) in
        if existsb same (Review_rows d) then
          (with_Reviews
             (map (fun r => if same r
                            then mkReview (rv_id r) (rv_gameFk r) (rv_playerId r)
                                          rating comment (rv_createdAt r) now
                            else r) (Review_rows d))
             (Review_seq d) d,
           OK ())
        else
          let id := Review_seq d + 1 in
          (with_Reviews
             (Review_rows d ++ [mkReview id (g_id g) player_id rating comment now now])
             id d,
           OK ())
    end.

(** *** Room and RoomMember *)

Definition is_member (d : db) (room_id player_id : Z) : bool :=
  existsb (fun m => bool_decide (m_roomId m = room_id)
                    && bool_decide (m_playerId m = player_id))
          (RoomMember_rows d).

Definition members_of (d : db) (room_id : Z) : list RoomMember :=
  filter (fun m => m_roomId m = room_id) (RoomMember_rows d).

(** [ORDER BY joinedAt ASC]; rows of equal [joinedAt] keep table order. *)
Fixpoint insert_by_joinedAt (m : RoomMember) (l : list RoomMember)
  : list RoomMember :=
  match l with
  | [] => [m]
  | x :: l' =>
      if decide (m_joinedAt m < m_joinedAt x) then m :: l
      else x :: insert_by_joinedAt m l'
  end.

Definition order_by_joinedAt (l : list RoomMember) : list RoomMember :=
  foldr insert_by_joinedAt [] l.

Definition room_players (d : db) (room_id : Z) : list Z :=
  map m_playerId (order_by_joinedAt (members_of d room_id)).

Definition Room_create (now : Z) (d : db)
    (host_player_id game_db_id game_version_id : Z) : db * reply Z :=
  if bool_decide (host_player_id <= 0) || bool_decide (game_db_id <= 0)
     || bool_decide (game_version_id <= 0)
  then (d, ERR "missing_fields")
  else
    let rid := Room_seq d + 1 in
    let d1 :=
      with_Rooms
        (Room_rows d ++ [mkRoom rid host_player_id game_db_id game_version_id
                                "waiting" now now])
        rid d in
    let d2 :=
      if is_member d1 rid host_player_id then d1
      else with_RoomMembers
             (RoomMember_rows d1 ++ [mkRoomMember rid host_player_id now]) d1 in
    (d2, OK rid).

Record RoomInfo := mkRoomInfo {
  ri_id : Z; ri_hostPlayerId : Z; ri_status : string;
  ri_createdAt : Z; ri_updatedAt : Z;
  ri_gameDbId : Z; ri_gameId : string; ri_gameName : string;
  ri_delisted : Z; ri_gameVersionId : Z; ri_version : string;
  ri_clientType : string; ri_minPlayers : Z; ri_maxPlayers : Z;
  ri_players : list Z }.

(** [Room JOIN Game JOIN GameVersion WHERE r.id=?] *)
Definition Room_get (d : db) (room_id : Z) : reply RoomInfo :=
  if decide (room_id <= 0) then ERR "missing_fields"
  else
    match find_room_by_id d room_id with
    | None => ERR "not_found"
    | Some r =>
        match find_game_by_id d (r_gameFk r),
              find_version_by_id d (r_gameVersionFk r) with
        | Some g, Some v =>
            OK (mkRoomInfo (r_id r) (r_hostPlayerId r) (r_status r)
                  (r_createdAt r) (r_updatedAt r)
                  (g_id g) (g_gameId g) (g_name g) (g_delisted g)
                  (gv_id v) (gv_version v) (gv_clientType v)
                  (gv_minPlayers v) (gv_maxPlayers v)
                  (room_players d room_id))
        | _, _ => ERR "not_found"
        end
    end.

Definition touch_room (now id : Z) (r : Room) : Room :=
  if decide (r_id r = id) then
    mkRoom (r_id r) (r_hostPlayerId r) (r_gameFk r) (r_gameVersionFk r)
           (r_status r) (r_createdAt r) now
  else r.

Definition Room_add_member (now : Z) (d : db) (room_id player_id : Z)
  : db * reply unit :=
  if bool_decide (room_id <= 0) || bool_decide (player_id <= 0)
  then (d, ERR "missing_fields")
  else
    let d1 :=
      if is_member d room_id player_id then d
      else with_RoomMembers
             (RoomMember_rows d ++ [mkRoomMember room_id player_id now]) d in
    (with_Rooms (map (touch_room now room_id) (Room_rows d1)) (Room_seq d1) d1,
     OK ()).

Definition Room_remove_member (now : Z) (d : db) (room_id player_id : Z)
  : db * reply unit :=
  if bool_decide (room_id <= 0) || bool_decide (player_id <= 0)
  then (d, ERR "missing_fields")
  else
    let d1 :=
      with_RoomMembers
        (filter (fun m => ~ (m_roomId m = room_id /\ m_playerId m = player_id))
                (RoomMember_rows d)) d in
    (with_Rooms (map (touch_room now room_id) (Room_rows d1)) (Room_seq d1) d1,
     OK ()).

Definition Room_set_status (now : Z) (d : db) (room_id : Z) (status : string)
  : db * reply unit :=
  let status := Py.strip status in
  if bool_decide (room_id <= 0) || negb (Py.truthy status)
  then (d, ERR "missing_fields")
  else
    (with_Rooms
       (map (fun r => if decide (r_id r = room_id)
                      then mkRoom (r_id r) (r_hostPlayerId r) (r_gameFk r)
                                  (r_gameVersionFk r) status (r_createdAt r) now
                      else r) (Room_rows d))
       (Room_seq d) d,
     OK ()).

Definition Room_set_host (now : Z) (d : db) (room_id host_player_id : Z)
  : db * reply unit :=
  if bool_decide (room_id <= 0) || bool_decide (host_player_id <= 0)
  then (d, ERR "missing_fields")
  else
    (with_Rooms
       (map (fun r => if decide (r_id r = room_id)
                      then mkRoom (r_id r) host_player_id (r_gameFk r)
                                  (r_gameVersionFk r) (r_status r)
                                  (r_createdAt r) now
                      else r) (Room_rows d))
       (Room_seq d) d,
     OK ()).

Definition Room_delete_if_empty (d : db) (room_id : Z) : db * reply unit :=
  if decide (room_id <= 0) then (d, ERR "missing_fields")
  else if decide (length (members_of d room_id) <> 0%nat)
  then (d, ERR "not_empty")
  else
    (with_Rooms (filter (fun r => r_id r <> room_id) (Room_rows d))
                (Room_seq d) d,
     OK ()).

(** [Room JOIN Game WHERE g.gameId=? AND r.status='playing'] *)
Definition Room_has_playing_for_gameId (d : db) (game_id : string) : reply bool :=
  let game_id := Py.strip game_id in
  if negb (Py.truthy game_id) then ERR "missing_fields"
  else
    OK (existsb
          (fun r => bool_decide (r_status r = "playing")
                    && existsb (fun g => bool_decide (g_id g = r_gameFk r)
                                         && bool_decide (g_gameId g = game_id))
                               (Game_rows d))
          (Room_rows d)).

(** *** MatchLog *)

Definition MatchLog_create (d : db)
    (room_id game_db_id game_version_id started_at ended_at : Z)
    (reason : string) (winner_player_id : option Z) (results_json : string)
  : db * reply Z :=
  let id := MatchLog_seq d + 1 in
  let winner :=
    match winner_player_id with
    | Some w => if decide (w = 0) then None else Some w
    | None => None
    end in
  (with_MatchLogs
     (MatchLog_rows d ++
        [mkMatchLog id room_id game_db_id game_version_id started_at
                    ended_at reason winner results_json])
     id d,
   OK id).

(** [resultsJson LIKE '%"userId": <id>%']: [LIKE] ignores ASCII case, and
    the pattern holds no wildcard besides the two [%]. *)
Definition userId_marker (player_id : Z) : string :=
  Py.dq +:+ "userId" +:+ Py.dq +:+ ": " +:+ pretty player_id.

Definition like_contains (needle s : string) : bool :=
  Py.contains (Py.lower needle) (Py.lower s).

Definition MatchLog_has_player_played (d : db)
    (game_id : string) (player_id : Z) : reply bool :=
  let game_id := Py.strip game_id in
  if negb (Py.truthy game_id) || bool_decide (player_id <= 0)
  then ERR "missing_fields"
  else
    match find_game_by_gameId d game_id with
    | None => ERR "not_found"
    | Some g =>
        OK (existsb
              (fun ml => bool_decide (ml_gameFk ml = g_id g)
                         && like_contains (userId_marker player_id)
                                          (ml_resultsJson ml))
              (MatchLog_rows d))
    end.

End Store.

(** ** Values, frames, files and the libraries the services call *)

(** Decoded JSON.  Numbers are integers. *)
#[local] Unset Elimination Schemes.
Inductive json : Type :=
| JNull
| JBool (b : bool)
| JInt (n : Z)
| JStr (s : string)
| JList (l : list json)
| JObj (o : list (string * json)).
#[local] Set Elimination Schemes.

(** [json.dumps(v, ensure_ascii=False)] with the default separators. *)
Module Json.

Definition hex_digit (n : nat) : ascii :=
  if (n <? 10)%nat then ascii_of_nat (48 + n) else ascii_of_nat (87 + n).

Definition escape_char (c : ascii) : string :=
  let n := nat_of_ascii c in
  let bs := String (ascii_of_nat 92) EmptyString in
  if decide (n = 34)%nat then bs +:+ Py.dq
  else if decide (n = 92)%nat then bs +:+ bs
  else if decide (n = 10)%nat then bs +:+ "n"
  else if decide (n = 13)%nat then bs +:+ "r"
  else if decide (n = 9)%nat then bs +:+ "t"
  else if decide (n = 8)%nat then bs +:+ "b"
  else if decide (n = 12)%nat then bs +:+ "f"
  else if (n <? 32)%nat then
    bs +:+ "u00" +:+ String (hex_digit (n / 16)) (String (hex_digit (n mod 16)) EmptyString)
  else String c EmptyString.

Fixpoint escape (s : string) : string :=
  match s with
  | EmptyString => EmptyString
  | String c s' => escape_char c +:+ escape s'
  end.

Definition quoted (s : string) : string := Py.dq +:+ escape s +:+ Py.dq.

Fixpoint dumps (v : json) : string :=
  match v with
  | JNull => "null"
  | JBool b => if b then "true" else "false"
  | JInt n => pretty n
  | JStr s => quoted s
  | JList l => "[" +:+ Py.join ", " (map dumps l) +:+ "]"
  | JObj o =>
      "{" +:+ Py.join ", "
                (map (fun kv => match kv with
                                | (k, x) => quoted k +:+ ": " +:+ dumps x
                                end) o)
      +:+ "}"
  end.

End Json.

(** What a service writes to a socket: [{"ok":true, ...}],
    [{"ok":false,"error":..., ...}] or [{"type":"event","name":...,"data":...}]. *)
Inductive frame : Type :=
| Ok_ (fields : list (string * json))
| Err_ (error : string) (fields : list (string * json))
| Event_ (name : string) (data : list (string * json)).

(** A path is its list of components; a file system maps the paths that
    exist to a file or a directory. *)
Definition path := list string.

Inductive node : Type :=
| File (content : list byte)
| Dir.

Record ZipMember := mkZipMember {
  zm_filename : string;
  zm_data : list byte }.

Inductive json_result : Type :=
| JsonValue (v : json)
| JSONDecodeError
| JsonOtherError (msg : string).

(** The configuration and the library functions the developer service uses.
    A function that raises returns the message of the exception on the left. *)
Class Env := {
  UPLOAD_ROOT : path;
  TMP_ROOT : path;
  (** [hashlib.sha256(data).hexdigest()] *)
  sha256_hexdigest : list byte -> string;
  (** [base64.b64decode(s.encode("ascii"), validate=True)] *)
  b64decode : string -> option (list byte);
  (** [zipfile.ZipFile(...).infolist()] with the data of each member *)
  zip_infolist : list byte -> string + list ZipMember;
  (** [json.loads(path.read_text(encoding="utf-8"))] *)
  json_loads : list byte -> json_result;
  (** the builtins [str], [int] and [list] on a decoded value *)
  py_str : json -> string;
  py_int : json -> string + Z;
  py_list : json -> string + list json;
  (** the message of the [FileNotFoundError] for a path *)
  str_FileNotFoundError : path -> string;
  (** the message of the [OSError] raised when reading a directory as a file *)
  str_IsADirectoryError : path -> string;
  (** lobby configuration *)
  GAME_HOST_PUB : string;
  LOBBY_HOST_INTERNAL : string;
  LOBBY_PORT : Z;
  RUN_ROOT : path;
  (** [_fmt_argv(argv, mapping)]: every template formatted with the mapping *)
  format_argv : list json -> list (string * json) -> string + list string }.

Module Fs.

Abbreviation fs := (gmap path node) (only parsing).

Definition exists_ (f : fs) (p : path) : bool := bool_decide (is_Some (f !! p)).

Definition is_dir (f : fs) (p : path) : bool :=
  match f !! p with Some Dir => true | _ => false end.

(** The proper prefixes of a path and the path itself, shortest first. *)
Definition ancestors (p : path) : list path :=
  map (fun n => take n p) (seq 1 (length p)).

(** [p.mkdir(parents=True, exist_ok=True)] on a tree whose nodes along [p]
    are directories or missing. *)
Definition mkdir_p (f : fs) (p : path) : fs :=
  foldl (fun f q => match f !! q with Some _ => f | None => <[q := Dir]> f end)
        f (ancestors p).

Definition write_bytes (f : fs) (p : path) (data : list byte) : fs :=
  <[p := File data]> f.

(** [open(p, "ab").write(data)] *)
Definition append_bytes (f : fs) (p : path) (data : list byte) : fs :=
  match f !! p with
  | Some (File old) => <[p := File (old ++ data)]> f
  | _ => <[p := File data]> f
  end.

(** [shutil.move(src, dst)] for a file: [None] when [src] does not exist. *)
Definition move (f : fs) (src dst : path) : option fs :=
  match f !! src with
  | Some n => Some (<[dst := n]> (delete src f))
  | None => None
  end.

Definition is_prefix (p q : path) : bool :=
  bool_decide (take (length p) q = p).

(** [shutil.rmtree(p)] *)
Definition rmtree (f : fs) (p : path) : fs :=
  filter (fun kv => is_prefix p kv.1 = false) f.

(** [list(p.iterdir())] *)
Definition iterdir (f : fs) (p : path) : list path :=
  filter (fun q => length q = S (length p) /\ is_prefix p q = true)
         (map fst (map_to_list f)).

Definition read_bytes (f : fs) (p : path) : option (list byte) :=
  match f !! p with
  | Some (File data) => Some data
  | _ => None
  end.

(** *** Path syntax ([pathlib.PurePosixPath]) *)

Definition slash : ascii := ascii_of_nat 47.

Fixpoint split_slash (s : string) (cur : string) : list string :=
  match s with
  | EmptyString => [Py.rev cur]
  | String c s' =>
      if decide (c = slash) then Py.rev cur :: split_slash s' EmptyString
      else split_slash s' (String c cur)
  end.

Definition is_absolute (s : string) : bool :=
  match s with
  | String c _ => bool_decide (c = slash)
  | EmptyString => false
  end.

(** The components of a relative path: empty and [.] components vanish. *)
Definition rel_parts (s : string) : list string :=
  filter (fun c => c <> EmptyString /\ c <> ".") (split_slash s EmptyString).

(** [Path(s).parts] *)
Definition parts (s : string) : list string :=
  if is_absolute s then "/" :: rel_parts s else rel_parts s.

(** [root / s] *)
Definition join (root : path) (s : string) : path :=
  if is_absolute s then parts s else root ++ parts s.

Definition ends_with_slash (s : string) : bool :=
  match Py.rev s with
  | String c _ => bool_decide (c = slash)
  | EmptyString => false
  end.

(** [ZipFile.extractall(dst)] for members that passed the traversal
    check: a name ending in a slash is a directory, any other a file
    written below its freshly made parents. *)
Definition extract_member (dst : path) (f : fs) (m : ZipMember) : fs :=
  let target := dst ++ rel_parts (zm_filename m) in
  if ends_with_slash (zm_filename m) then mkdir_p f target
  else
    write_bytes (mkdir_p f (take (length target - 1) target)) target (zm_data m).

Definition extractall (f : fs) (dst : path) (members : list ZipMember) : fs :=
  foldl (extract_member dst) f members.

End Fs.

(** ** src/common/manifest.py *)

Module Manifest.

Record Entrypoint := mkEntrypoint {
  ep_module : string;
  ep_argv : list json }.

Record GameManifest := mkGameManifest {
  gameId : string; name : string; version : string; developer : string;
  description : string; clientType : string;
  minPlayers : Z; maxPlayers : Z;
  server : Entrypoint; client : Entrypoint }.

(** The exceptions [parse_manifest] can leave with. *)
Inductive error : Type :=
| ManifestError (msg : string)
| OtherException (msg : string).

Definition result (A : Type) : Type := error + A.

Definition bind {A B} (x : result A) (k : A -> result B) : result B :=
  match x with
  | inl e => inl e
  | inr a => k a
  end.

Notation "'do' x <- e ; k" := (bind e (fun x => k))
  (at level 10, x name, e at level 100, k at level 200).

Definition dict_get (d : list (string * json)) (key : string) : option json :=
  snd <$> List.find (fun kv => bool_decide (kv.1 = key)) d.

Definition _require (d : list (string * json)) (key : string) : result json :=
  match dict_get d key with
  | Some v => inr v
  | None => inl (ManifestError ("missing:" +:+ key))
  end.

(** [bool(v)] *)
Definition json_truthy (v : json) : bool :=
  match v with
  | JNull => false
  | JBool b => b
  | JInt n => negb (bool_decide (n = 0))
  | JStr s => Py.truthy s
  | JList l => match l with [] => false | _ => true end
  | JObj o => match o with [] => false | _ => true end
  end.

Section WithEnv.
Context `{Env}.

Definition str_field (d : list (string * json)) (key : string) : result string :=
  do v <- _require d key; inr (Py.strip (py_str v)).

Definition int_field (d : list (string * json)) (key : string) : result Z :=
  do v <- _require d key;
  match py_int v with
  | inl msg => inl (OtherException msg)
  | inr n => inr n
  end.

(** [list(d.get("argv") or [])] *)
Definition argv_field (d : list (string * json)) : result (list json) :=
  match dict_get d "argv" with
  | None => inr []
  | Some v =>
      if json_truthy v then
        match py_list v with
        | inl msg => inl (OtherException msg)
        | inr l => inr l
        end
      else inr []
  end.

Definition parse_manifest (obj : list (string * json)) : result GameManifest :=
  do game_id <- str_field obj "gameId";
  do name <- str_field obj "name";
  do version <- str_field obj "version";
  do developer <- str_field obj "developer";
  do description <- str_field obj "description";
  do client_type0 <- str_field obj "clientType";
  let client_type := Py.lower client_type0 in
  do min_players <- int_field obj "minPlayers";
  do max_players <- int_field obj "maxPlayers";
  do entrypoints <- _require obj "entrypoints";
  match entrypoints with
  | JObj entrypoints =>
      do srv <- _require entrypoints "server";
      do cli <- _require entrypoints "client";
      match srv, cli with
      | JObj srv, JObj cli =>
          do srv_module <- str_field srv "module";
          do srv_argv <- argv_field srv;
          do cli_module <- str_field cli "module";
          do cli_argv <- argv_field cli;
          if negb (bool_decide (client_type = "cli")
                   || bool_decide (client_type = "gui"))
          then inl (ManifestError "bad:clientType")
          else if bool_decide (min_players <= 0)
                  || bool_decide (max_players <= 0)
                  || bool_decide (min_players > max_players)
          then inl (ManifestError "bad:playerRange")
          else if negb (Py.truthy game_id) || negb (Py.truthy name)
                  || negb (Py.truthy version) || negb (Py.truthy developer)
          then inl (ManifestError "bad:identity")
          else
            inr (mkGameManifest game_id name version developer description
                   client_type min_players max_players
                   (mkEntrypoint srv_module srv_argv)
                   (mkEntrypoint cli_module cli_argv))
      | _, _ => inl (ManifestError "bad:entrypoints")
      end
  | _ => inl (ManifestError "bad:entrypoints")
  end.

(** Returns the error string on the left, the manifest and the raw
    object on the right. *)
Definition load_manifest_from_dir (f : Fs.fs) (game_dir : path)
  : string + (GameManifest * json) :=
  let manifest_path := game_dir ++ ["manifest.json"] in
  match f !! manifest_path with
  | None => inl "missing_manifest"
  | Some Dir => inl ("manifest_error:" +:+ str_IsADirectoryError manifest_path)
  | Some (File text) =>
      match json_loads text with
      | JSONDecodeError => inl "bad_manifest_json"
      | JsonOtherError msg => inl ("manifest_error:" +:+ msg)
      | JsonValue raw =>
          match raw with
          | JObj obj =>
              match parse_manifest obj with
              | inr m => inr (m, raw)
              | inl (ManifestError msg) => inl msg
              | inl (OtherException msg) => inl ("manifest_error:" +:+ msg)
              end
          | _ => inl "bad_manifest_json"
          end
      end
  end.

End WithEnv.

End Manifest.

(** ** src/server/developer_server.py *)

Module Developer.

(** A connection is named by a number; it stands for its [StreamWriter]. *)
Definition conn := nat.

Record DevSession := mkDevSession {
  developer_id : Z;
  username : string }.

(** [hasher] holds the bytes fed to the incremental SHA-256 so far. *)
Record UploadSession := mkUploadSession {
  upload_id : string;
  up_developer_id : Z;
  up_game_id : string;
  up_version : string;
  up_file_name : string;
  expected_size : Z;
  expected_sha256 : string;
  temp_path : path;
  auto_created_game : bool;
  received : Z;
  next_seq : Z;
  hasher : list byte }.

(** The store, the disk and the module-level dictionaries. *)
Record world := mkWorld {
  db : Store.db;
  files : Fs.fs;
  SESSIONS : gmap conn DevSession;
  ONLINE_DEVS : gmap Z conn;
  UPLOADS : gmap string UploadSession }.

Definition with_db (d : Store.db) (w : world) : world :=
  mkWorld d (files w) (SESSIONS w) (ONLINE_DEVS w) (UPLOADS w).
Definition with_files (f : Fs.fs) (w : world) : world :=
  mkWorld (db w) f (SESSIONS w) (ONLINE_DEVS w) (UPLOADS w).
Definition with_UPLOADS (u : gmap string UploadSession) (w : world) : world :=
  mkWorld (db w) (files w) (SESSIONS w) (ONLINE_DEVS w) u.

(** *** The patterns [_GAME_ID_RE], [_VERSION_RE] and [_SLUG_RE] *)

Definition in_range (lo hi : nat) (c : ascii) : bool :=
  let n := nat_of_ascii c in ((lo <=? n)%nat && (n <=? hi)%nat).

Definition is_digit (c : ascii) : bool := in_range 48 57 c.
Definition is_lower (c : ascii) : bool := in_range 97 122 c.
Definition is_upper (c : ascii) : bool := in_range 65 90 c.

Definition game_id_char (c : ascii) : bool :=
  is_upper c || is_lower c || is_digit c
  || bool_decide (c = "_"%char) || bool_decide (c = "-"%char).

Definition version_char (c : ascii) : bool :=
  game_id_char c || bool_decide (c = "."%char).

(** [re.compile("^[class]{1,64}$").fullmatch(s)] *)
Definition fullmatch (class : ascii -> bool) (s : string) : bool :=
  bool_decide (1 <= String.length s <= 64)%nat
  && forallb class (list_ascii_of_string s).

Definition _GAME_ID_RE_fullmatch : string -> bool := fullmatch game_id_char.
Definition _VERSION_RE_fullmatch : string -> bool := fullmatch version_char.

(** [_SLUG_RE.sub("_", s)]: every maximal run of characters outside
    [a-z0-9] becomes one underscore. *)
Fixpoint slug_sub (in_run : bool) (s : string) : string :=
  match s with
  | EmptyString => EmptyString
  | String c s' =>
      if is_lower c || is_digit c then String c (slug_sub false s')
      else if in_run then slug_sub true s'
      else String "_"%char (slug_sub true s')
  end.

Fixpoint lstrip_underscore (s : string) : string :=
  match s with
  | String c s' => if bool_decide (c = "_"%char) then lstrip_underscore s' else s
  | EmptyString => EmptyString
  end.

Definition strip_underscore (s : string) : string :=
  Py.rev (lstrip_underscore (Py.rev (lstrip_underscore s))).

Definition _slugify (name : string) : string :=
  let s := Py.lower (Py.strip name) in
  let s := strip_underscore (slug_sub false s) in
  if Py.truthy s then String.substring 0 32 s else EmptyString.

(** The values [secrets.token_hex] returns during one [game_upload_init]:
    the upload id, the two-byte suffix of probe [i] and the six-byte
    suffix of the last resort. *)
Record randomness := mkRandomness {
  rnd_upload_id : string;
  rnd_suffix2 : nat -> string;
  rnd_suffix6 : string }.

Fixpoint first_free (d : Store.db) (candidates : list string) : option string :=
  match candidates with
  | [] => None
  | gid :: rest =>
      match Store.Game_get_by_gameId d gid with
      | Store.OK _ => first_free d rest
      | Store.ERR _ => Some gid
      end
  end.

Definition _reserve_unique_game_id (d : Store.db) (rnd : randomness)
    (base : string) (developer_id : Z) : string :=
  let base := if Py.truthy base then base else "game_" +:+ pretty developer_id in
  let candidates :=
    base :: map (fun i => base +:+ "_" +:+ rnd_suffix2 rnd i) (seq 1 19) in
  match first_free d candidates with
  | Some gid => gid
  | None => base +:+ "_" +:+ rnd_suffix6 rnd
  end.

(** *** Requests *)

Record upload_init := mkUploadInit {
  i_gameId : option string; i_version : option string;
  i_fileName : option string; i_sizeBytes : option Z;
  i_sha256 : option string; i_name : option string;
  i_description : option string; i_clientType : option string;
  i_minPlayers : option Z; i_maxPlayers : option Z }.

Record upload_chunk := mkUploadChunk {
  c_uploadId : option string; c_seq : option Z; c_dataB64 : option string }.

Record upload_finish := mkUploadFinish {
  f_uploadId : option string; f_changelog : option string }.

Section WithEnv.
Context `{Env}.

(** [_safe_extract_zip]: the message of the exception on the left. *)
Definition _safe_extract_zip (f : Fs.fs) (zip_path dst_dir : path)
  : Fs.fs * option string :=
  let f := Fs.mkdir_p f dst_dir in
  match Fs.read_bytes f zip_path with
  | None => (f, Some (str_FileNotFoundError zip_path))
  | Some data =>
      match zip_infolist data with
      | inl msg => (f, Some msg)
      | inr members =>
          if existsb
               (fun m => Fs.is_absolute (zm_filename m)
                         || bool_decide (".." ∈ Fs.parts (zm_filename m)))
               members
          then (f, Some "unsafe_zip_entry")
          else (Fs.extractall f dst_dir members, None)
      end
  end.

(** The block "move into uploaded_games and extract" of
    [handle_upload_finish]: the tree it leaves and, when an exception
    was raised, its message. *)
Definition stage_package (f : Fs.fs) (up : UploadSession)
  : Fs.fs * option string :=
  let game_dir :=
    Fs.join (Fs.join UPLOAD_ROOT (up_game_id up)) (up_version up) in
  let zip_path := Fs.join game_dir "package.zip" in
  let extracted_path := Fs.join game_dir "extracted" in
  let f0 := Fs.mkdir_p f game_dir in
  match Fs.move f0 (temp_path up) zip_path with
  | None => (f0, Some (str_FileNotFoundError (temp_path up)))
  | Some f1 =>
      let f2 := if Fs.exists_ f1 extracted_path
                then Fs.rmtree f1 extracted_path else f1 in
      _safe_extract_zip f2 zip_path extracted_path
  end.

(** The block "locate package root": a single top-level directory
    stands for the package. *)
Definition locate_package_root (f : Fs.fs) (extracted_path : path) : path :=
  if Fs.exists_ f (Fs.join extracted_path "manifest.json")
  then extracted_path
  else
    match Fs.iterdir f extracted_path with
    | [child] => if Fs.is_dir f child then child else extracted_path
    | _ => extracted_path
    end.

(** The game a [game_upload_init] targets: an early reply on the left,
    otherwise the store, the game id and [auto_created]. *)
Definition init_target (now : Z) (w : world) (rnd : randomness)
    (sess : DevSession) (data : upload_init) (game_id : string)
  : frame + (Store.db * string * bool) :=
  let name := Py.strip (Py.or_str (i_name data) EmptyString) in
  let description := Py.strip (Py.or_str (i_description data) EmptyString) in
  if negb (Py.truthy game_id) then
    if negb (Py.truthy name) || negb (Py.truthy description)
    then inl (Err_ "missing_fields" [])
    else
      let game_id :=
        _reserve_unique_game_id (db w) rnd (_slugify name) (developer_id sess) in
      match Store.Game_create now (db w) game_id name description
                              (developer_id sess) with
      | (d, Store.OK _) => inr (d, game_id, true)
      | (_, Store.ERR e) => inl (Err_ e [])
      end
  else
    match Store.Game_get_by_gameId (db w) game_id with
    | Store.OK gdata =>
        if decide (Store.g_developerId gdata <> developer_id sess)
        then inl (Err_ "not_owner" [])
        else inr (db w, game_id, false)
    | Store.ERR e =>
        if negb (bool_decide (e = "not_found")) then inl (Err_ e [])
        else if negb (Py.truthy name) || negb (Py.truthy description)
        then inl (Err_ "missing_fields" [])
        else
          match Store.Game_create now (db w) game_id name description
                                  (developer_id sess) with
          | (d, Store.OK _) => inr (d, game_id, true)
          | (d, Store.ERR e) =>
              if bool_decide (e = "game_exists") then
                match Store.Game_get_by_gameId d game_id with
                | Store.OK g2 =>
                    if decide (Store.g_developerId g2 = developer_id sess)
                    then inr (d, game_id, false)
                    else inl (Err_ e [])
                | Store.ERR _ => inl (Err_ e [])
                end
              else inl (Err_ e [])
          end
    end.

(** The reply of the store's [DevUser.login] is given. *)
Definition handle_login (w : world) (writer : conn)
    (resp : Store.reply (option Z * option string)) : world * frame :=
  match resp with
  | Store.ERR e => (w, Err_ e [])
  | Store.OK (dev_id, uname) =>
      let dev_id := Py.or_int dev_id 0 in
      let uname := Py.or_str uname EmptyString in
      if decide (dev_id <= 0) then (w, Err_ "bad_db_user" [])
      else
        match ONLINE_DEVS w !! dev_id with
        | Some _ => (w, Err_ "already_online" [])
        | None =>
            (mkWorld (db w) (files w)
                     (<[writer := mkDevSession dev_id uname]> (SESSIONS w))
                     (<[dev_id := writer]> (ONLINE_DEVS w)) (UPLOADS w),
             Ok_ [("developerId", JInt dev_id); ("username", JStr uname)])
        end
  end.

(** The session cleanup shared by [handle_logout] and the end of
    [handle]. *)
Definition drop_session (w : world) (writer : conn) : world :=
  match SESSIONS w !! writer with
  | None => w
  | Some sess =>
      mkWorld (db w) (files w) (delete writer (SESSIONS w))
              (delete (developer_id sess) (ONLINE_DEVS w)) (UPLOADS w)
  end.

Definition handle_logout (w : world) (writer : conn) : world * frame :=
  (drop_session w writer, Ok_ [("loggedOut", JBool true)]).

Definition handle_game_delist (now : Z) (w : world) (writer : conn)
    (gameId : option string) (delisted : bool) : world * frame :=
  match SESSIONS w !! writer with
  | None => (w, Err_ "not_logged_in" [])
  | Some sess =>
      let game_id := Py.strip (Py.or_str gameId EmptyString) in
      let busy :=
        if delisted && Py.truthy game_id then
          match Store.Room_has_playing_for_gameId (db w) game_id with
          | Store.OK playing => playing
          | Store.ERR _ => false
          end
        else false in
      if busy then (w, Err_ "game_in_progress" [])
      else
        match Store.Game_set_delisted now (db w) game_id delisted
                (developer_id sess) with
        | (_, Store.ERR e) => (w, Err_ e [])
        | (d, Store.OK _) => (with_db d w, Ok_ [])
        end
  end.

Definition handle_upload_init (now : Z) (rnd : randomness) (w : world)
    (writer : conn) (data : upload_init) : world * frame :=
  match SESSIONS w !! writer with
  | None => (w, Err_ "not_logged_in" [])
  | Some sess =>
      let game_id := Py.strip (Py.or_str (i_gameId data) EmptyString) in
      let version := Py.strip (Py.or_str (i_version data) EmptyString) in
      let file_name := Py.strip (Py.or_str (i_fileName data) EmptyString) in
      let expected_size := Py.or_int (i_sizeBytes data) 0 in
      let expected_sha256 :=
        Py.lower (Py.strip (Py.or_str (i_sha256 data) EmptyString)) in
      if negb (Py.truthy version) || bool_decide (expected_size <= 0)
         || negb (Py.truthy expected_sha256)
      then (w, Err_ "missing_fields" [])
      else if negb (_VERSION_RE_fullmatch version)
      then (w, Err_ "bad_version" [])
      else if Py.truthy game_id && negb (_GAME_ID_RE_fullmatch game_id)
      then (w, Err_ "bad_game_id" [])
      else
        match init_target now w rnd sess data game_id with
        | inl reply => (w, reply)
        | inr (d, game_id, auto_created) =>
            let upload_id := rnd_upload_id rnd in
            let f := Fs.mkdir_p (files w) TMP_ROOT in
            let temp_path := TMP_ROOT ++ [upload_id +:+ ".zip.part"] in
            let up :=
              mkUploadSession upload_id (developer_id sess) game_id version
                file_name expected_size expected_sha256 temp_path
                auto_created 0 0 [] in
            (mkWorld d (Fs.write_bytes f temp_path []) (SESSIONS w)
                     (ONLINE_DEVS w) (<[upload_id := up]> (UPLOADS w)),
             Ok_ [("uploadId", JStr upload_id); ("gameId", JStr game_id);
                  ("created", JBool auto_created)])
        end
  end.

Definition handle_upload_chunk (w : world) (writer : conn)
    (data : upload_chunk) : world * frame :=
  match SESSIONS w !! writer with
  | None => (w, Err_ "not_logged_in" [])
  | Some sess =>
      let upload_id := Py.strip (Py.or_str (c_uploadId data) EmptyString) in
      let seq := Py.or_int (c_seq data) 0 in
      let chunk_b64 := Py.or_str (c_dataB64 data) EmptyString in
      match UPLOADS w !! upload_id with
      | None => (w, Err_ "no_such_upload" [])
      | Some up =>
          if decide (up_developer_id up <> developer_id sess)
          then (w, Err_ "not_owner" [])
          else if decide (seq <> next_seq up)
          then (w, Err_ "bad_seq" [("expected", JInt (next_seq up))])
          else
            match b64decode chunk_b64 with
            | None => (w, Err_ "bad_base64" [])
            | Some chunk =>
                if bool_decide (chunk = [])
                then (w, Err_ "empty_chunk" [])
                else if decide (received up + Z.of_nat (length chunk)
                                > expected_size up)
                then (w, Err_ "too_large" [])
                else
                  let up' :=
                    mkUploadSession (Developer.upload_id up) (up_developer_id up)
                      (up_game_id up) (up_version up) (up_file_name up)
                      (expected_size up) (expected_sha256 up) (temp_path up)
                      (auto_created_game up)
                      (received up + Z.of_nat (length chunk))
                      (next_seq up + 1)
                      (hasher up ++ chunk) in
                  (mkWorld (db w)
                           (Fs.append_bytes (files w) (temp_path up) chunk)
                           (SESSIONS w) (ONLINE_DEVS w)
                           (<[upload_id := up']> (UPLOADS w)),
                   Ok_ [("received", JInt (received up'));
                        ("expected", JInt (expected_size up'))])
            end
      end
  end.

Definition handle_upload_finish (now : Z) (w : world) (writer : conn)
    (data : upload_finish) : world * frame :=
  match SESSIONS w !! writer with
  | None => (w, Err_ "not_logged_in" [])
  | Some sess =>
      let upload_id := Py.strip (Py.or_str (f_uploadId data) EmptyString) in
      match UPLOADS w !! upload_id with
      | None => (w, Err_ "no_such_upload" [])
      | Some up =>
          if decide (up_developer_id up <> developer_id sess)
          then (w, Err_ "not_owner" [])
          else if decide (received up <> expected_size up)
          then (w, Err_ "size_mismatch"
                        [("received", JInt (received up));
                         ("expected", JInt (expected_size up))])
          else
            let digest := Py.lower (sha256_hexdigest (hasher up)) in
            if negb (bool_decide (digest = expected_sha256 up))
            then (w, Err_ "hash_mismatch"
                          [("got", JStr digest);
                           ("expected", JStr (expected_sha256 up))])
            else
              let game_dir :=
                Fs.join (Fs.join UPLOAD_ROOT (up_game_id up)) (up_version up) in
              let zip_path := Fs.join game_dir "package.zip" in
              let extracted_path := Fs.join game_dir "extracted" in
              match stage_package (files w) up with
              | (f3, Some e) =>
                  (with_files f3 w, Err_ ("extract_failed:" +:+ e) [])
              | (f3, None) =>
                      let w3 := with_files f3 w in
                      let package_root := locate_package_root f3 extracted_path in
                      match Manifest.load_manifest_from_dir f3 package_root with
                      | inl err =>
                          (w3, Err_ (Py.or_str (Some err) "bad_manifest") [])
                      | inr (manifest, raw) =>
                          if negb (bool_decide (Manifest.gameId manifest = up_game_id up))
                          then (w3, Err_ "manifest_gameId_mismatch"
                                      [("manifestGameId", JStr (Manifest.gameId manifest));
                                       ("expected", JStr (up_game_id up))])
                          else if negb (bool_decide (Manifest.version manifest = up_version up))
                          then (w3, Err_ "manifest_version_mismatch"
                                      [("manifestVersion", JStr (Manifest.version manifest));
                                       ("expected", JStr (up_version up))])
                          else
                            let srv_module := Manifest.ep_module (Manifest.server manifest) in
                            let cli_module := Manifest.ep_module (Manifest.client manifest) in
                            if negb (Fs.exists_ f3 (Fs.join package_root srv_module))
                            then (w3, Err_ "missing_server_entry" [("path", JStr srv_module)])
                            else if negb (Fs.exists_ f3 (Fs.join package_root cli_module))
                            then (w3, Err_ "missing_client_entry" [("path", JStr cli_module)])
                            else
                              match Store.Game_get_by_gameId (db w) (up_game_id up) with
                              | Store.ERR e => (w3, Err_ e [])
                              | Store.OK gdata =>
                                  let game_db_id := Store.g_id gdata in
                                  if decide (game_db_id <= 0)
                                  then (w3, Err_ "bad_game_row" [])
                                  else
                                    match
                                      Store.GameVersion_create now (db w) game_db_id
                                        (up_version up)
                                        (Store.mkGameVersionFields
                                           (Py.or_str (f_changelog data) EmptyString)
                                           (up_file_name up) (expected_size up)
                                           (expected_sha256 up) zip_path package_root
                                           (Json.dumps raw)
                                           (Manifest.clientType manifest)
                                           (Manifest.minPlayers manifest)
                                           (Manifest.maxPlayers manifest))
                                    with
                                    | (_, Store.ERR e) => (w3, Err_ e [])
                                    | (d, Store.OK gvid) =>
                                        (mkWorld d f3 (SESSIONS w) (ONLINE_DEVS w)
                                                 (delete upload_id (UPLOADS w)),
                                         Ok_ [("gameVersionId", JInt gvid)])
                                    end
                              end
                      end
              end
      end
  end.

End WithEnv.

End Developer.

(** ** src/server/lobby_server.py

    A [PlayerSession] is a mutable object reachable from both session
    dictionaries, so sessions live in a heap and the dictionaries hold
    references.  A [RoomLive] is reachable only through [ROOMS].  A spawned
    game server is a number whose return code the table [procs] holds.
    [sent] lists the frames written, oldest first; a write to a socket is
    taken to succeed.  Calls to the store are taken to be answered. *)

Module Lobby.

Definition conn := nat.
Definition loc := nat.
Definition proc := nat.

Record PlayerSession := mkPlayerSession {
  player_id : Z;
  username : string;
  writer : conn;
  room_id : option Z }.

Record RoomLive := mkRoomLive {
  rl_room_id : Z;
  host_player_id : Z;
  players : list Z;
  game_id : string;
  version : string;
  game_db_id : Z;
  game_version_id : Z;
  status : string;
  token : option string;
  game_port : option Z;
  game_proc : option proc }.

Record world := mkWorld {
  db : Store.db;
  files : Fs.fs;
  heap : gmap loc PlayerSession;
  next_loc : loc;
  SESSIONS_BY_WRITER : gmap conn loc;
  SESSIONS_BY_PLAYER_ID : gmap Z loc;
  ROOMS : gmap Z RoomLive;
  procs : gmap proc (option Z);
  sent : list (conn * frame) }.

Definition with_db (d : Store.db) (w : world) : world :=
  mkWorld d (files w) (heap w) (next_loc w) (SESSIONS_BY_WRITER w)
    (SESSIONS_BY_PLAYER_ID w) (ROOMS w) (procs w) (sent w).
Definition with_files (f : Fs.fs) (w : world) : world :=
  mkWorld (db w) f (heap w) (next_loc w) (SESSIONS_BY_WRITER w)
    (SESSIONS_BY_PLAYER_ID w) (ROOMS w) (procs w) (sent w).
Definition with_heap (h : gmap loc PlayerSession) (w : world) : world :=
  mkWorld (db w) (files w) h (next_loc w) (SESSIONS_BY_WRITER w)
    (SESSIONS_BY_PLAYER_ID w) (ROOMS w) (procs w) (sent w).
Definition with_ROOMS (r : gmap Z RoomLive) (w : world) : world :=
  mkWorld (db w) (files w) (heap w) (next_loc w) (SESSIONS_BY_WRITER w)
    (SESSIONS_BY_PLAYER_ID w) r (procs w) (sent w).
Definition with_procs (p : gmap proc (option Z)) (w : world) : world :=
  mkWorld (db w) (files w) (heap w) (next_loc w) (SESSIONS_BY_WRITER w)
    (SESSIONS_BY_PLAYER_ID w) (ROOMS w) p (sent w).
Definition with_sent (s : list (conn * frame)) (w : world) : world :=
  mkWorld (db w) (files w) (heap w) (next_loc w) (SESSIONS_BY_WRITER w)
    (SESSIONS_BY_PLAYER_ID w) (ROOMS w) (procs w) s.

Definition set_room_id (r : option Z) (s : PlayerSession) : PlayerSession :=
  mkPlayerSession (player_id s) (username s) (writer s) r.

Definition set_players (ps : list Z) (l : RoomLive) : RoomLive :=
  mkRoomLive (rl_room_id l) (host_player_id l) ps (game_id l) (version l)
    (game_db_id l) (game_version_id l) (status l) (token l) (game_port l)
    (game_proc l).

Definition set_host (h : Z) (l : RoomLive) : RoomLive :=
  mkRoomLive (rl_room_id l) h (players l) (game_id l) (version l)
    (game_db_id l) (game_version_id l) (status l) (token l) (game_port l)
    (game_proc l).

Definition set_match (st : string) (ps : list Z) (tok : option string)
    (port : option Z) (p : option proc) (l : RoomLive) : RoomLive :=
  mkRoomLive (rl_room_id l) (host_player_id l) ps (game_id l) (version l)
    (game_db_id l) (game_version_id l) st tok port p.

(** *** Requests *)

(** The data of [post_result], also the result [_finish_match] is given. *)
Record result := mkResult {
  res_roomId : option Z;
  res_startedAt : option Z;
  res_endedAt : option Z;
  res_reason : option string;
  res_winner : option Z;
  res_results : option (list json) }.

Definition opt_field {A} (key : string) (inj : A -> json) (x : option A)
  : list (string * json) :=
  match x with Some a => [(key, inj a)] | None => [] end.

(** The dictionary the record stands for. *)
Definition result_dict (r : result) : list (string * json) :=
  opt_field "roomId" JInt (res_roomId r)
  ++ opt_field "startedAt" JInt (res_startedAt r)
  ++ opt_field "endedAt" JInt (res_endedAt r)
  ++ opt_field "reason" JStr (res_reason r)
  ++ opt_field "winner" JInt (res_winner r)
  ++ opt_field "results" JList (res_results r).

(** [bool(result)] for [Optional[dict]] *)
Definition result_truthy (r : option result) : bool :=
  match r with
  | None => false
  | Some r => match result_dict r with [] => false | _ => true end
  end.

(** [{"roomId": rid, "reason": reason, "results": []}] *)
Definition synthetic_result (rid : Z) (reason : string) : result :=
  mkResult (Some rid) None None (Some reason) None (Some []).

Record review_request := mkReviewRequest {
  rq_gameId : option string;
  rq_rating : option Z;
  rq_comment : option string }.

(** What the operating system answers during one [room_start]. *)
Record spawn_env := mkSpawnEnv {
  se_port : string + Z;
  se_token : string;
  se_spawn : string + proc }.

(** *** Sending *)

Definition _send (w : world) (writer : conn) (obj : frame) : world :=
  with_sent (sent w ++ [(writer, obj)]) w.

Definition session_of_writer (w : world) (writer : conn)
  : option (loc * PlayerSession) :=
  match SESSIONS_BY_WRITER w !! writer with
  | None => None
  | Some l => match heap w !! l with
              | Some s => Some (l, s)
              | None => None
              end
  end.

Definition _push_event_to_player (w : world) (player_id : Z)
    (name : string) (data : list (string * json)) : world :=
  match SESSIONS_BY_PLAYER_ID w !! player_id with
  | None => w
  | Some l =>
      match heap w !! l with
      | None => w
      | Some sess => _send w (writer sess) (Event_ name data)
      end
  end.

(** [for u in players: await _push_event_to_player(u, name, ...)] *)
Definition push_each (w : world) (players : list Z)
    (name : string) (data : list (string * json)) : world :=
  foldl (fun w u => _push_event_to_player w u name data) w players.

Definition _ensure_room_live (w : world) (room_id : Z)
  : world * option RoomLive :=
  match ROOMS w !! room_id with
  | Some live => (w, Some live)
  | None =>
      match Store.Room_get (db w) room_id with
      | Store.ERR _ => (w, None)
      | Store.OK d =>
          let live :=
            mkRoomLive (Store.ri_id d) (Store.ri_hostPlayerId d)
              (Store.ri_players d) (Store.ri_gameId d) (Store.ri_version d)
              (Py.or_int (Some (Store.ri_gameDbId d)) 0)
              (Py.or_int (Some (Store.ri_gameVersionId d)) 0)
              (Py.or_str (Some (Store.ri_status d)) "waiting")
              None None None in
          (with_ROOMS (<[room_id := live]> (ROOMS w)) w, Some live)
      end
  end.

(** *** Match end *)

(** [terminate()], a wait of two seconds, then [kill()]: the process is
    taken to have stopped on the first signal. *)
Definition stop_process (w : world) (live : RoomLive) : world :=
  match game_proc live with
  | Some p =>
      match procs w !! p with
      | Some None => with_procs (<[p := Some (-15)]> (procs w)) w
      | _ => w
      end
  | None => w
  end.

Definition results_json (live : RoomLive) (r : result) : string :=
  Json.dumps
    (JObj [("players", JList (map (fun pid => JObj [("userId", JInt pid)])
                                  (players live)));
           ("results", JList (match res_results r with
                              | Some (x :: l) => x :: l
                              | _ => []
                              end))]).

Definition _finish_match (now : Z) (w : world) (room_id : Z)
    (result : option result) : world :=
  match _ensure_room_live w room_id with
  | (w, None) => w
  | (w, Some live) =>
      let already_finished :=
        negb (bool_decide (status live = "playing"))
        && bool_decide (game_proc live = None)
        && bool_decide (token live = None) in
      if already_finished && negb (result_truthy result) then w
      else
        let w := stop_process w live in
        let w :=
          match result with
          | Some r =>
              if result_truthy result then
                with_db
                  (Store.MatchLog_create (db w) room_id (game_db_id live)
                     (game_version_id live)
                     (Py.or_int (res_startedAt r) now)
                     (Py.or_int (res_endedAt r) now)
                     (Py.or_str (res_reason r) "finished")
                     (res_winner r)
                     (results_json live r)).1 w
              else w
          | None => w
          end in
        if already_finished then w
        else
          let live' := set_match "waiting" (players live) None None None live in
          let w := with_ROOMS (<[room_id := live']> (ROOMS w)) w in
          let w := with_db (Store.Room_set_status now (db w) room_id "waiting").1 w in
          push_each w (players live') "game_ready"
            [("roomId", JInt room_id);
             ("result", JObj (match result with
                              | Some r => result_dict r
                              | None => []
                              end))]
  end.

(** [_watch_game] from the moment [proc.wait()] returns with code [rc].
    The first test reads only, so the half-second sleep between the two
    tests is folded into the moment the second one runs. *)
Definition _watch_game (now : Z) (w : world) (room_id : Z) (p : proc) (rc : Z)
  : world :=
  let w :=
    match procs w !! p with
    | Some None => with_procs (<[p := Some rc]> (procs w)) w
    | _ => w
    end in
  match _ensure_room_live w room_id with
  | (w, None) => w
  | (w, Some live) =>
      if negb (bool_decide (status live = "playing")) then w
      else _finish_match now w room_id
             (Some (synthetic_result room_id "process_exit"))
  end.

(** *** Rooms *)

Definition _handle_room_leave (now : Z) (w : world) (l : loc) (force : bool)
  : world :=
  match heap w !! l with
  | None => w
  | Some sess =>
      match room_id sess with
      | None => w
      | Some rid =>
          let '(w, live) := _ensure_room_live w rid in
          let playing :=
            match live with
            | Some live => bool_decide (status live = "playing")
            | None => false
            end in
          if negb force && playing then w
          else
            let w := with_db (Store.Room_remove_member now (db w) rid
                                (player_id sess)).1 w in
            let w :=
              match live with
              | None => w
              | Some live =>
                  let ps :=
                    if bool_decide (player_id sess ∈ players live)
                    then filter (fun u => u <> player_id sess) (players live)
                    else players live in
                  let live := set_players ps live in
                  let w := with_ROOMS (<[rid := live]> (ROOMS w)) w in
                  let w :=
                    match ps with
                    | new_host :: _ =>
                        if bool_decide (host_player_id live = player_id sess) then
                          let live := set_host new_host live in
                          let w := with_ROOMS (<[rid := live]> (ROOMS w)) w in
                          let w := with_db (Store.Room_set_host now (db w) rid
                                              new_host).1 w in
                          push_each w ps "host_changed"
                            [("roomId", JInt rid); ("hostPlayerId", JInt new_host)]
                        else w
                    | [] => w
                    end in
                  let w := push_each w ps "player_left"
                             [("roomId", JInt rid);
                              ("playerId", JInt (player_id sess))] in
                  match ps with
                  | [] =>
                      let w := with_db (Store.Room_delete_if_empty (db w) rid).1 w in
                      with_ROOMS (delete rid (ROOMS w)) w
                  | _ => w
                  end
              end in
            with_heap (<[l := set_room_id None sess]> (heap w)) w
      end
  end.

Definition handle_room_leave (now : Z) (w : world) (writer : conn) : world :=
  match session_of_writer w writer with
  | None => _send w writer (Err_ "not_logged_in" [])
  | Some (l, sess) =>
      let '(w, live) :=
        match room_id sess with
        | Some rid => if decide (rid = 0) then (w, None)
                      else _ensure_room_live w rid
        | None => (w, None)
        end in
      let playing :=
        match live with
        | Some live => bool_decide (status live = "playing")
        | None => false
        end in
      if playing then _send w writer (Err_ "room_playing" [])
      else
        let w := _handle_room_leave now w l false in
        _send w writer (Ok_ [("left", JBool true)])
  end.

Definition _cleanup_connection (now : Z) (w : world) (writer : conn)
    (notify_client : bool) : world :=
  match SESSIONS_BY_WRITER w !! writer with
  | None =>
      if notify_client then _send w writer (Ok_ [("loggedOut", JBool true)])
      else w
  | Some l =>
      let w := mkWorld (db w) (files w) (heap w) (next_loc w)
                 (delete writer (SESSIONS_BY_WRITER w))
                 (SESSIONS_BY_PLAYER_ID w) (ROOMS w) (procs w) (sent w) in
      match heap w !! l with
      | None => w
      | Some sess =>
          let w := mkWorld (db w) (files w) (heap w) (next_loc w)
                     (SESSIONS_BY_WRITER w)
                     (delete (player_id sess) (SESSIONS_BY_PLAYER_ID w))
                     (ROOMS w) (procs w) (sent w) in
          let w :=
            match room_id sess with
            | None => w
            | Some rid =>
                let '(w, live) := _ensure_room_live w rid in
                let w :=
                  match live with
                  | Some live =>
                      if bool_decide (status live = "playing")
                      then _finish_match now w rid
                             (Some (synthetic_result rid "disconnect"))
                      else w
                  | None => w
                  end in
                _handle_room_leave now w l true
            end in
          if notify_client then _send w writer (Ok_ [("loggedOut", JBool true)])
          else w
      end
  end.

(** *** Accounts *)

(** [handle_player_login]; the reply of the store's [PlayerUser.login]
    (player id and user name) is given. *)
Definition handle_player_login (w : world) (writer : conn)
    (resp : Store.reply (option Z * option string)) : world :=
  match resp with
  | Store.ERR e => _send w writer (Err_ e [])
  | Store.OK (pid, uname) =>
      let pid := Py.or_int pid 0 in
      let uname := Py.or_str uname EmptyString in
      if decide (pid <= 0) then _send w writer (Err_ "bad_db_user" [])
      else
        match SESSIONS_BY_PLAYER_ID w !! pid with
        | Some _ => _send w writer (Err_ "already_online" [])
        | None =>
            let l := next_loc w in
            let sess := mkPlayerSession pid uname writer None in
            let w := mkWorld (db w) (files w) (<[l := sess]> (heap w)) (S l)
                       (<[writer := l]> (SESSIONS_BY_WRITER w))
                       (<[pid := l]> (SESSIONS_BY_PLAYER_ID w))
                       (ROOMS w) (procs w) (sent w) in
            _send w writer (Ok_ [("playerId", JInt pid); ("username", JStr uname)])
        end
  end.

Definition handle_player_logout (now : Z) (w : world) (writer : conn) : world :=
  _cleanup_connection now w writer true.

(** *** Rooms, continued *)

Definition handle_room_create (now : Z) (w : world) (writer : conn)
    (gameId : option string) : world :=
  match session_of_writer w writer with
  | None => _send w writer (Err_ "not_logged_in" [])
  | Some (l, sess) =>
      match room_id sess with
      | Some rid => _send w writer (Err_ "already_in_room" [("roomId", JInt rid)])
      | None =>
          let game_id := Py.strip (Py.or_str gameId EmptyString) in
          if negb (Py.truthy game_id) then _send w writer (Err_ "missing_fields" [])
          else
            match Store.Game_get_by_gameId (db w) game_id with
            | Store.ERR e => _send w writer (Err_ e [])
            | Store.OK gdata =>
                if decide (Py.or_int (Some (Store.g_delisted gdata)) 0 <> 0)
                then _send w writer (Err_ "game_delisted" [])
                else
                  match Store.GameVersion_latest_for_gameId (db w) game_id with
                  | Store.ERR e => _send w writer (Err_ e [])
                  | Store.OK v =>
                      match Store.Room_create now (db w) (player_id sess)
                              (Py.or_int (Some (Store.g_id gdata)) 0)
                              (Py.or_int (Some (Store.gv_id v)) 0) with
                      | (_, Store.ERR e) => _send w writer (Err_ e [])
                      | (d, Store.OK rid) =>
                          let w := with_db d w in
                          let rid := Py.or_int (Some rid) 0 in
                          let '(w, live) := _ensure_room_live w rid in
                          let w :=
                            match live with
                            | Some _ =>
                                with_heap (<[l := set_room_id (Some rid) sess]> (heap w)) w
                            | None => w
                            end in
                          _send w writer
                            (Ok_ [("roomId", JInt rid); ("gameId", JStr game_id);
                                  ("version",
                                   JStr (Py.or_str (Some (Store.gv_version v)) EmptyString))])
                      end
                  end
            end
      end
  end.

Definition handle_room_join (now : Z) (w : world) (writer : conn)
    (roomId : option Z) : world :=
  match session_of_writer w writer with
  | None => _send w writer (Err_ "not_logged_in" [])
  | Some (l, sess) =>
      match room_id sess with
      | Some rid => _send w writer (Err_ "already_in_room" [("roomId", JInt rid)])
      | None =>
          let room_id := Py.or_int roomId 0 in
          if decide (room_id <= 0) then _send w writer (Err_ "bad_room_id" [])
          else
            match _ensure_room_live w room_id with
            | (w, None) => _send w writer (Err_ "no_such_room" [])
            | (w, Some live) =>
                if bool_decide (status live = "playing")
                then _send w writer (Err_ "room_playing" [])
                else
                  match Store.Room_get (db w) room_id with
                  | Store.ERR e => _send w writer (Err_ e [])
                  | Store.OK rd =>
                      let players := Store.ri_players rd in
                      let max_players := Py.or_int (Some (Store.ri_maxPlayers rd)) 2 in
                      if bool_decide (player_id sess ∈ players) then
                        let w := with_heap (<[l := set_room_id (Some room_id) sess]> (heap w)) w in
                        _send w writer (Ok_ [("roomId", JInt room_id); ("joined", JBool true)])
                      else if decide (Z.of_nat (length players) >= max_players)
                      then _send w writer (Err_ "room_full" [])
                      else
                        match Store.Room_add_member now (db w) room_id (player_id sess) with
                        | (_, Store.ERR e) => _send w writer (Err_ e [])
                        | (d, Store.OK _) =>
                            let w := with_db d w in
                            let live :=
                              set_players (Py.sorted_set (players ++ [player_id sess])) live in
                            let w := with_ROOMS (<[room_id := live]> (ROOMS w)) w in
                            let w := with_heap (<[l := set_room_id (Some room_id) sess]> (heap w)) w in
                            let w := _send w writer
                                       (Ok_ [("roomId", JInt room_id); ("joined", JBool true)]) in
                            push_each w
                              (filter (fun u => u <> player_id sess) (Lobby.players live))
                              "player_joined"
                              [("roomId", JInt room_id); ("playerId", JInt (player_id sess))]
                        end
                  end
            end
      end
  end.

Section WithEnv.
Context `{Env}.

Definition handle_room_start (now : Z) (env : spawn_env) (w : world)
    (writer : conn) (roomId : option Z) : world :=
  match session_of_writer w writer with
  | None => _send w writer (Err_ "not_logged_in" [])
  | Some (l, sess) =>
      let rid := Py.or_int roomId (Py.or_int (room_id sess) 0) in
      if decide (rid <= 0) then _send w writer (Err_ "bad_room_id" [])
      else
        match _ensure_room_live w rid with
        | (w, None) => _send w writer (Err_ "no_such_room" [])
        | (w, Some live) =>
            if decide (player_id sess <> host_player_id live)
            then _send w writer (Err_ "not_host" [])
            else
              (* a room still marked playing: finish it when its process
                 is gone ([Some reason]), refuse otherwise ([None]); the
                 record is read again afterwards, as [_finish_match]
                 changes the object [live] names *)
              let stale : option (option string) :=
                if bool_decide (status live = "playing") then
                  match game_proc live with
                  | None => Some (Some "stale_state")
                  | Some p =>
                      match procs w !! p with
                      | Some None => None
                      | _ => Some (Some "process_exit")
                      end
                  end
                else Some None in
              match stale with
              | None => _send w writer (Err_ "already_playing" [])
              | Some reason =>
                  let w :=
                    match reason with
                    | Some r => _finish_match now w rid (Some (synthetic_result rid r))
                    | None => w
                    end in
                  let live := default live (ROOMS w !! rid) in
                  match Store.Room_get (db w) rid with
                  | Store.ERR e => _send w writer (Err_ e [])
                  | Store.OK room_row =>
                      let players := Store.ri_players room_row in
                      let min_players := Py.or_int (Some (Store.ri_minPlayers room_row)) 2 in
                      if decide (Z.of_nat (length players) < min_players)
                      then _send w writer
                             (Err_ "need_more_players" [("minPlayers", JInt min_players)])
                      else
                        match Store.GameVersion_get_by_id (db w) (game_version_id live) with
                        | Store.ERR e => _send w writer (Err_ e [])
                        | Store.OK v =>
                            let extracted_path := Store.gv_extractedPath v in
                            match Manifest.load_manifest_from_dir (files w) extracted_path with
                            | inl err =>
                                _send w writer (Err_ (Py.or_str (Some err) "bad_manifest") [])
                            | inr (manifest, _) =>
                                match se_port env with
                                | inl e => _send w writer (Err_ ("no_port:" +:+ e) [])
                                | inr port =>
                                    let token := se_token env in
                                    let mapping :=
                                      [("host", JStr GAME_HOST_PUB); ("port", JInt port);
                                       ("token", JStr token); ("roomId", JInt rid);
                                       ("gameId", JStr (game_id live));
                                       ("version", JStr (version live));
                                       ("lobbyHost", JStr LOBBY_HOST_INTERNAL);
                                       ("lobbyPort", JInt LOBBY_PORT)] in
                                    match format_argv
                                            (Manifest.ep_argv (Manifest.server manifest))
                                            mapping with
                                    | inl e =>
                                        _send w writer (Err_ ("bad_manifest_argv:" +:+ e) [])
                                    | inr argv =>
                                        let log_dir := RUN_ROOT ++ ["logs"] in
                                        let log_path :=
                                          log_dir ++ ["game_room_" +:+ pretty rid +:+ ".log"] in
                                        let w :=
                                          with_files
                                            (Fs.append_bytes (Fs.mkdir_p (files w) log_dir)
                                               log_path []) w in
                                        match se_spawn env with
                                        | inl e =>
                                            _send w writer (Err_ ("spawn_failed:" +:+ e) [])
                                        | inr p =>
                                            let w := with_procs (<[p := None]> (procs w)) w in
                                            let live :=
                                              set_match "playing" players (Some token)
                                                (Some port) (Some p) live in
                                            let w := with_ROOMS (<[rid := live]> (ROOMS w)) w in
                                            let w :=
                                              with_db (Store.Room_set_status now (db w) rid
                                                         "playing").1 w in
                                            let w :=
                                              push_each w players "game_info"
                                                [("roomId", JInt rid);
                                                 ("gameId", JStr (game_id live));
                                                 ("version", JStr (version live));
                                                 ("host", JStr GAME_HOST_PUB);
                                                 ("port", JInt port);
                                                 ("token", JStr token)] in
                                            _send w writer
                                              (Ok_ [("started", JBool true);
                                                    ("port", JInt port)])
                                        end
                                    end
                                end
                            end
                        end
                  end
              end
        end
  end.

End WithEnv.

(** *** Game server callback *)

Definition handle_post_result (now : Z) (w : world) (writer : conn)
    (data : result) : world :=
  let rid := Py.or_int (res_roomId data) 0 in
  if decide (rid <= 0) then _send w writer (Err_ "bad_room_id" [])
  else
    let w := _finish_match now w rid (Some data) in
    _send w writer (Ok_ [("posted", JBool true)]).

(** *** Reviews *)

Definition handle_review_upsert (now : Z) (w : world) (writer : conn)
    (data : review_request) : world :=
  match session_of_writer w writer with
  | None => _send w writer (Err_ "not_logged_in" [])
  | Some (l, sess) =>
      let game_id := Py.strip (Py.or_str (rq_gameId data) EmptyString) in
      if negb (Py.truthy game_id) then _send w writer (Err_ "missing_fields" [])
      else
        match Store.MatchLog_has_player_played (db w) game_id (player_id sess) with
        | Store.ERR e => _send w writer (Err_ e [])
        | Store.OK played =>
            if negb played then _send w writer (Err_ "not_played" [])
            else
              match Store.Review_upsert now (db w)
                      (Py.or_str (rq_gameId data) EmptyString) (player_id sess)
                      (Py.or_int (rq_rating data) 0)
                      (Py.or_str (rq_comment data) EmptyString) with
              | (_, Store.ERR e) => _send w writer (Err_ e [])
              | (d, Store.OK _) => _send (with_db d w) writer (Ok_ [])
              end
        end
  end.

End Lobby.

(** ** The platform: both services over one store and one disk

    One request is served at a time.  The requests that only read
    ([room_list], [room_detail], [store_*], [match_list_mine],
    [game_list_mine], [game_list_versions], [player_list]) and the account
    registrations are left out. *)

Module System.

Record state := mkState {
  lobby : Lobby.world;
  dev_SESSIONS : gmap Developer.conn Developer.DevSession;
  dev_ONLINE_DEVS : gmap Z Developer.conn;
  dev_UPLOADS : gmap string Developer.UploadSession }.

Definition developer (s : state) : Developer.world :=
  Developer.mkWorld (Lobby.db (lobby s)) (Lobby.files (lobby s))
    (dev_SESSIONS s) (dev_ONLINE_DEVS s) (dev_UPLOADS s).

Definition with_developer (dw : Developer.world) (s : state) : state :=
  mkState
    (Lobby.with_files (Developer.files dw)
       (Lobby.with_db (Developer.db dw) (lobby s)))
    (Developer.SESSIONS dw) (Developer.ONLINE_DEVS dw) (Developer.UPLOADS dw).

Definition with_lobby (lw : Lobby.world) (s : state) : state :=
  mkState lw (dev_SESSIONS s) (dev_ONLINE_DEVS s) (dev_UPLOADS s).

Definition initial : state :=
  mkState (Lobby.mkWorld Store.empty_db ∅ ∅ O ∅ ∅ ∅ ∅ []) ∅ ∅ ∅.

Inductive request : Type :=
| dev_login (writer : nat) (resp : Store.reply (option Z * option string))
| dev_logout (writer : nat)
| dev_close (writer : nat)
| game_delist (now : Z) (writer : nat) (gameId : option string) (delisted : bool)
| game_upload_init (now : Z) (rnd : Developer.randomness) (writer : nat)
    (data : Developer.upload_init)
| game_upload_chunk (writer : nat) (data : Developer.upload_chunk)
| game_upload_finish (now : Z) (writer : nat) (data : Developer.upload_finish)
| player_login (writer : nat) (resp : Store.reply (option Z * option string))
| player_logout (now : Z) (writer : nat)
| player_close (now : Z) (writer : nat)
| room_create (now : Z) (writer : nat) (gameId : option string)
| room_join (now : Z) (writer : nat) (roomId : option Z)
| room_leave (now : Z) (writer : nat)
| room_start (now : Z) (env : Lobby.spawn_env) (writer : nat) (roomId : option Z)
| post_result (now : Z) (writer : nat) (data : Lobby.result)
| child_exit (now : Z) (room_id : Z) (p : Lobby.proc) (rc : Z)
| review_create_or_update (now : Z) (writer : nat) (data : Lobby.review_request).

Section WithEnv.
Context `{Env}.

Definition exec (s : state) (r : request) : state :=
  match r with
  | dev_login c resp =>
      with_developer (Developer.handle_login (developer s) c resp).1 s
  | dev_logout c =>
      with_developer (Developer.handle_logout (developer s) c).1 s
  | dev_close c =>
      with_developer (Developer.drop_session (developer s) c) s
  | game_delist now c gid flag =>
      with_developer (Developer.handle_game_delist now (developer s) c gid flag).1 s
  | game_upload_init now rnd c data =>
      with_developer (Developer.handle_upload_init now rnd (developer s) c data).1 s
  | game_upload_chunk c data =>
      with_developer (Developer.handle_upload_chunk (developer s) c data).1 s
  | game_upload_finish now c data =>
      with_developer (Developer.handle_upload_finish now (developer s) c data).1 s
  | player_login c resp =>
      with_lobby (Lobby.handle_player_login (lobby s) c resp) s
  | player_logout now c =>
      with_lobby (Lobby.handle_player_logout now (lobby s) c) s
  | player_close now c =>
      with_lobby (Lobby._cleanup_connection now (lobby s) c false) s
  | room_create now c gid =>
      with_lobby (Lobby.handle_room_create now (lobby s) c gid) s
  | room_join now c rid =>
      with_lobby (Lobby.handle_room_join now (lobby s) c rid) s
  | room_leave now c =>
      with_lobby (Lobby.handle_room_leave now (lobby s) c) s
  | room_start now env c rid =>
      with_lobby (Lobby.handle_room_start now env (lobby s) c rid) s
  | post_result now c data =>
      with_lobby (Lobby.handle_post_result now (lobby s) c data) s
  | child_exit now rid p rc =>
      with_lobby (Lobby._watch_game now (lobby s) rid p rc) s
  | review_create_or_update now c data =>
      with_lobby (Lobby.handle_review_upsert now (lobby s) c data) s
  end.

Inductive reachable : state -> Prop :=
| reachable_initial : reachable initial
| reachable_exec (s : state) (r : request) :
    reachable s -> reachable (exec s r).

Definition run (s : state) (rs : list request) : state := foldl exec s rs.

End WithEnv.

End System.

(** ** src/server/lobby_server.py and src/player/lobby_client.py: downloads

    The lobby hands out a stored package in chunks; the client asks for
    them one after the other.  A download session is taken as given (it is
    what [handle_store_download_init] puts into [DOWNLOADS]); the codec is
    [base64.b64encode] on the server and [base64.b64decode] on the client,
    and the client's request reaches the handler and comes back unchanged,
    with no request of another client in between. *)

Module Download.

Definition MAX_B64_CHUNK : Z := 32 * 1024.

Record DownloadSession := mkDownloadSession {
  download_id : string;
  zip_path : path;
  file_name : string;
  size_bytes : Z;
  sha256 : string;
  game_id : string;
  version : string }.

(** The disk and the module-level dictionary [DOWNLOADS]. *)
Record world := mkWorld {
  files : Fs.fs;
  DOWNLOADS : gmap string DownloadSession }.

Record download_chunk := mkDownloadChunk {
  k_downloadId : option string;
  k_offset : option Z;
  k_limit : option Z }.

Section WithCodec.
(** [base64.b64encode(chunk).decode("ascii")] *)
Variable b64encode : list byte -> string.
(** [base64.b64decode(s.encode("ascii"))]; [None] when it raises *)
Variable b64decode_client : string -> option (list byte).

(** [f.seek(offset); f.read(limit)] *)
Definition read_at (content : list byte) (offset limit : Z) : list byte :=
  take (Z.to_nat limit) (drop (Z.to_nat offset) content).

Definition handle_store_download_chunk (w : world) (data : download_chunk)
  : world * frame :=
  let download_id := Py.strip (Py.or_str (k_downloadId data) EmptyString) in
  let offset := Py.or_int (k_offset data) 0 in
  let limit := Py.or_int (k_limit data) MAX_B64_CHUNK in
  if negb (Py.truthy download_id) || bool_decide (offset < 0)
  then (w, Err_ "bad_request" [])
  else
    match DOWNLOADS w !! download_id with
    | None => (w, Err_ "no_such_download" [])
    | Some sess =>
        let limit := Z.max 1 (Z.min limit MAX_B64_CHUNK) in
        match Fs.read_bytes (files w) (zip_path sess) with
        | None => (w, Err_ "read_failed" [])
        | Some content =>
            let chunk := read_at content offset limit in
            let done :=
              bool_decide (offset + Z.of_nat (length chunk) >= size_bytes sess) in
            (if done then mkWorld (files w) (delete download_id (DOWNLOADS w))
             else w,
             Ok_ [("downloadId", JStr download_id); ("offset", JInt offset);
                  ("dataB64", JStr (b64encode chunk)); ("done", JBool done)])
        end
    end.

(** The [while True] loop of [ensure_downloaded]: the bytes written to
    the temporary file and the final offset, or the message of the
    [RuntimeError]; [None] when the fuel runs out before the loop
    ends, and [Some (_, None)] when [b64decode] raises.  A reply
    without the key [ok] cannot come from the handler; the client
    would raise [RuntimeError(None)]. *)
Fixpoint download_loop (fuel : nat) (w : world) (download_id : string)
    (offset : Z) (written : list byte)
  : option (world * option (string + list byte * Z)) :=
  match fuel with
  | O => None
  | S fuel' =>
      match handle_store_download_chunk w
              (mkDownloadChunk (Some download_id) (Some offset)
                 (Some (32 * 1024))) with
      | (w', Ok_ r) =>
          let text :=
            match Manifest.dict_get r "dataB64" with
            | Some (JStr s) => s
            | _ => EmptyString
            end in
          match b64decode_client text with
          | None => Some (w', None)
          | Some chunk =>
              let written := written ++ chunk in
              let offset := offset + Z.of_nat (length chunk) in
              let done :=
                match Manifest.dict_get r "done" with
                | Some v => Manifest.json_truthy v
                | None => false
                end in
              if done then Some (w', Some (inr (written, offset)))
              else download_loop fuel' w' download_id offset written
          end
      | (w', Err_ e _) => Some (w', Some (inl e))
      | (w', Event_ _ _) => Some (w', Some (inl "None"))
      end
  end.

(** The download of [ensure_downloaded] up to its size test: the
    bytes of the temporary file, or the message of the error. *)
Definition download_zip (fuel : nat) (w : world) (download_id : string)
    (size : Z) : option (world * option (string + list byte)) :=
  match download_loop fuel w download_id 0 [] with
  | None => None
  | Some (w', None) => Some (w', None)
  | Some (w', Some (inl e)) => Some (w', Some (inl e))
  | Some (w', Some (inr (written, offset))) =>
      if decide (offset <> size)
      then Some (w', Some (inl ("size_mismatch local=" +:+ pretty offset
                                +:+ " server=" +:+ pretty size)))
      else Some (w', Some (inr written))
  end.

End WithCodec.

End Download.

(** * A concrete environment for worked examples

    The library functions are replaced by stand-ins that are easy to follow:
    the digest of a byte string is its hexadecimal spelling (so distinct
    data have distinct digests), a chunk is decoded by taking the bytes of
    its text, the byte string [PKdemo] is an archive holding a manifest and
    two entry points, and [PKevil] one holding the entry [../evil]. *)

Module Demo.

Definition bytes_of (s : string) : list byte := String.list_byte_of_string s.

Definition hex_of_byte (b : byte) : string :=
  let n := N.to_nat (Byte.to_N b) in
  String (Json.hex_digit (n / 16)) (String (Json.hex_digit (n mod 16)) EmptyString).

Definition hex (data : list byte) : string :=
  foldr (fun b acc => hex_of_byte b +:+ acc) EmptyString data.

Definition b64_char (c : ascii) : bool :=
  Developer.is_upper c || Developer.is_lower c || Developer.is_digit c
  || bool_decide (c = "+"%char) || bool_decide (c = "/"%char)
  || bool_decide (c = "="%char).

Definition manifest_text : list byte := bytes_of "{manifest}".

Definition manifest_obj : json :=
  JObj [("gameId", JStr "g1"); ("name", JStr "Game One");
        ("version", JStr "1.0.0"); ("developer", JStr "dev1");
        ("description", JStr "demo"); ("clientType", JStr "cli");
        ("minPlayers", JInt 1); ("maxPlayers", JInt 3);
        ("entrypoints",
         JObj [("server", JObj [("module", JStr "server_main.py");
                                ("argv", JList [JStr "--port"; JStr "{port}"])]);
               ("client", JObj [("module", JStr "client_main.py")])])].

Definition manifest1 : Manifest.GameManifest :=
  Manifest.mkGameManifest "g1" "Game One" "1.0.0" "dev1" "demo" "cli" 1 3
    (Manifest.mkEntrypoint "server_main.py" [JStr "--port"; JStr "{port}"])
    (Manifest.mkEntrypoint "client_main.py" []).

Definition demo_zip : list byte := bytes_of "PKdemo".
Definition evil_zip : list byte := bytes_of "PKevil".

Definition demo_env : Env := {|
  UPLOAD_ROOT := ["srv"; "uploaded_games"];
  TMP_ROOT := ["srv"; "tmp_uploads"];
  sha256_hexdigest := hex;
  b64decode := fun s =>
    if forallb b64_char (list_ascii_of_string s) then Some (bytes_of s) else None;
  zip_infolist := fun data =>
    if bool_decide (data = demo_zip) then
      inr [mkZipMember "manifest.json" manifest_text;
           mkZipMember "server_main.py" (bytes_of "server");
           mkZipMember "client_main.py" (bytes_of "client")]
    else if bool_decide (data = evil_zip) then
      inr [mkZipMember "manifest.json" manifest_text;
           mkZipMember "../evil" (bytes_of "evil")]
    else inl "File is not a zip file";
  json_loads := fun text =>
    if bool_decide (text = manifest_text) then JsonValue manifest_obj
    else JSONDecodeError;
  py_str := fun v =>
    match v with JStr s => s | JInt n => pretty n | _ => "?" end;
  py_int := fun v =>
    match v with JInt n => inr n | _ => inl "int() argument" end;
  py_list := fun v =>
    match v with JList l => inr l | _ => inl "object is not iterable" end;
  str_FileNotFoundError := fun _ => "[Errno 2] No such file or directory";
  str_IsADirectoryError := fun _ => "[Errno 21] Is a directory";
  GAME_HOST_PUB := "127.0.0.1";
  LOBBY_HOST_INTERNAL := "127.0.0.1";
  LOBBY_PORT := 10103;
  RUN_ROOT := ["srv"; "run"];
  format_argv := fun argv _ => inr (map (fun _ => "arg") argv)
|}.

(** The randomness of the examples: upload ids [u1], suffixes [s<i>]. *)
Definition rnd (uid : string) : Developer.randomness :=
  Developer.mkRandomness uid (fun i => "s" +:+ pretty i) "last".

(** A developer connection 1 logged in as developer 7. *)
Definition dev0 : Developer.world :=
  (Developer.handle_login
     (Developer.mkWorld Store.empty_db ∅ ∅ ∅ ∅) 1%nat
     (Store.OK (Some 7, Some "dev1"))).1.

Definition init_g1 (size : Z) (sha : string) : Developer.upload_init :=
  Developer.mkUploadInit (Some "g1") (Some "1.0.0") (Some "g1.zip") (Some size)
    (Some sha) (Some "Game One") (Some "demo") None None None.

Definition chunk (uid : string) (seq : Z) (text : string) : Developer.upload_chunk :=
  Developer.mkUploadChunk (Some uid) (Some seq) (Some text).

Definition finish (uid : string) : Developer.upload_finish :=
  Developer.mkUploadFinish (Some uid) (Some "first release").

(** The upload of the examples: developer 7 declares version 1.0.0 of
    [g1], six bytes long, with the digest of [PKdemo]. *)
Definition init1 : Developer.world * frame :=
  @Developer.handle_upload_init demo_env 100 (rnd "u1") dev0 1%nat
    (init_g1 6 (hex demo_zip)).

Definition w_init1 : Developer.world := init1.1.

(** ... then sends the archive in two chunks and finishes. *)
Definition w_sent1 : Developer.world :=
  (@Developer.handle_upload_chunk demo_env
     (@Developer.handle_upload_chunk demo_env w_init1 1%nat (chunk "u1" 0 "PKd")).1
     1%nat (chunk "u1" 1 "emo")).1.

Definition finish1 : Developer.world * frame :=
  @Developer.handle_upload_finish demo_env 200 w_sent1 1%nat (finish "u1").

Definition w_published1 : Developer.world := finish1.1.

(** Version 1.0.0 is published; the same developer uploads it again. *)
Definition init2 : Developer.world * frame :=
  @Developer.handle_upload_init demo_env 300 (rnd "u2") w_published1 1%nat
    (init_g1 6 (hex demo_zip)).

Definition w_sent2 : Developer.world :=
  (@Developer.handle_upload_chunk demo_env init2.1 1%nat (chunk "u2" 0 "PKdemo")).1.

Definition finish2 : Developer.world * frame :=
  @Developer.handle_upload_finish demo_env 400 w_sent2 1%nat (finish "u2").





(** *** The lobby of the examples

    Version 1.0.0 of [g1] (one to three players) is published.  Players
    5, 9 and 2 log in on connections 10, 11 and 12, in that order. *)
Definition lobby0 : Lobby.world :=
  Lobby.mkWorld (Developer.db w_published1) (Developer.files w_published1)
    ∅ O ∅ ∅ ∅ ∅ [].

Definition login (w : Lobby.world) (c : Lobby.conn) (pid : Z) (name : string)
  : Lobby.world :=
  Lobby.handle_player_login w c (Store.OK (Some pid, Some name)).

Definition lobby3 : Lobby.world :=
  login (login (login lobby0 10%nat 5 "eve") 11%nat 9 "ian") 12%nat 2 "bob".

(** Player 5 opens a room at time 1000; 9 joins at 1001, 2 at 1002. *)
Definition room_of_three : Lobby.world :=
  Lobby.handle_room_join 1002
    (Lobby.handle_room_join 1001
       (Lobby.handle_room_create 1000 lobby3 10%nat (Some "g1"))
       11%nat (Some 1))
    12%nat (Some 1).

(** The host, player 5, leaves at 1003. *)
Definition host_left : Lobby.world :=
  Lobby.handle_room_leave 1003 room_of_three 10%nat.

(** The operating system during a start: port 10000, process 1. *)
Definition spawn1 : Lobby.spawn_env :=
  Lobby.mkSpawnEnv (inr 10000) "t0ken" (inr 1%nat).

(** Player 12 alone opens a room for [g1], starts the match and the game
    server posts its result. *)
Definition solo_room : Lobby.world :=
  Lobby.handle_room_create 2000 (login lobby0 20%nat 12 "liz") 20%nat (Some "g1").

Definition solo_playing : Lobby.world :=
  @Lobby.handle_room_start demo_env 2001 spawn1 solo_room 20%nat (Some 1).

Definition posted (rid : Z) : Lobby.result :=
  Lobby.mkResult (Some rid) None None (Some "finished") None (Some []).

Definition solo_played : Lobby.world :=
  Lobby.handle_post_result 2002 solo_playing 99%nat (posted 1).

(** Player 1, who never played, logs in and reviews [g1]. *)
Definition review5 : Lobby.review_request :=
  Lobby.mkReviewRequest (Some "g1") (Some 5) (Some "ok").

Definition reviewed_by_1 : Lobby.world :=
  Lobby.handle_review_upsert 2003 (login solo_played 21%nat 1 "joe") 21%nat review5.

(** Player 3, who never played either, does the same. *)
Definition reviewed_by_3 : Lobby.world :=
  Lobby.handle_review_upsert 2003 (login solo_played 23%nat 3 "kim") 23%nat review5.



(** *** The platform of the examples

    The same story told to the platform as a whole: developer 7 publishes
    version 1.0.0 of [g1]; players 5, 9, 2 and 4 log in; 5 opens a room,
    9 and 2 join it. *)
Definition platform_run : list System.request :=
  [System.dev_login 1%nat (Store.OK (Some 7, Some "dev1"));
   System.game_upload_init 100 (rnd "u1") 1%nat (init_g1 6 (hex demo_zip));
   System.game_upload_chunk 1%nat (chunk "u1" 0 "PKd");
   System.game_upload_chunk 1%nat (chunk "u1" 1 "emo");
   System.game_upload_finish 200 1%nat (finish "u1");
   System.player_login 10%nat (Store.OK (Some 5, Some "eve"));
   System.player_login 11%nat (Store.OK (Some 9, Some "ian"));
   System.player_login 12%nat (Store.OK (Some 2, Some "bob"));
   System.player_login 13%nat (Store.OK (Some 4, Some "dan"));
   System.room_create 1000 10%nat (Some "g1");
   System.room_join 1001 11%nat (Some 1);
   System.room_join 1002 12%nat (Some 1)].

Definition platform_state : System.state :=
  @System.run demo_env System.initial platform_run.

End Demo.

(** ** The examples continued *)

Module Season.

(** The platform of the examples goes on: the host starts the match of
    room 1, the game server posts its result, player 9 reviews the game,
    the host leaves the room and player 4 opens a second one. *)
Definition season_run : list System.request :=
  Demo.platform_run ++
  [System.room_start 1003 Demo.spawn1 10%nat (Some 1);
   System.post_result 1004 99%nat (Demo.posted 1);
   System.review_create_or_update 1005 11%nat Demo.review5;
   System.room_leave 1006 10%nat;
   System.room_create 1007 13%nat (Some "g1")].

Definition season_state : System.state :=
  @System.run Demo.demo_env System.initial season_run.

(** The platform of the examples while the match of room 1 runs. *)
Definition match_state : System.state :=
  @System.run Demo.demo_env System.initial
    (Demo.platform_run ++ [System.room_start 1003 Demo.spawn1 10%nat (Some 1)]).

(** Developer 7 in the middle of the upload of the examples: the first
    of the two chunks has arrived. *)
Definition uploading_state : System.state :=
  @System.run Demo.demo_env System.initial
    [System.dev_login 1%nat (Store.OK (Some 7, Some "dev1"));
     System.game_upload_init 100 (Demo.rnd "u1") 1%nat
       (Demo.init_g1 6 (Demo.hex Demo.demo_zip));
     System.game_upload_chunk 1%nat (Demo.chunk "u1" 0 "PKd")].

(** The first room of the examples with its host alone, before anyone
    has joined. *)
Definition opened : Lobby.world :=
  Lobby.handle_room_create 1000 Demo.lobby3 10%nat (Some "g1").

Definition eve : Lobby.PlayerSession :=
  Lobby.mkPlayerSession 5 "eve" 10%nat (Some 1).

Definition ian : Lobby.PlayerSession :=
  Lobby.mkPlayerSession 9 "ian" 11%nat None.

Definition liz : Lobby.PlayerSession :=
  Lobby.mkPlayerSession 12 "liz" 20%nat (Some 1).

Definition waiting_room (host : Z) (ps : list Z) : Lobby.RoomLive :=
  Lobby.mkRoomLive 1 host ps "g1" "1.0.0" 1 1 "waiting" None None None.

Definition playing_room : Lobby.RoomLive :=
  Lobby.mkRoomLive 1 12 [12] "g1" "1.0.0" 1 1 "playing"
    (Some "t0ken") (Some 10000) (Some 1%nat).

Definition opened_info : Store.RoomInfo :=
  Store.mkRoomInfo 1 5 "waiting" 1000 1000 1 "g1" "Game One" 0 1 "1.0.0" "cli"
    1 3 [5].

End Season.

(** ** A download in the examples *)

Module DownloadDemo.

(** A codec for the examples: the text of a chunk is its bytes. *)
Definition encode (x : list byte) : string := string_of_list_byte x.
Definition decode (s : string) : option (list byte) := Some (list_byte_of_string s).

Definition package : path := ["srv"; "uploaded_games"; "g1"; "1.0.0"; "package.zip"].

(** A download of version 1.0.0 of [g1] from the disk of the examples,
    with the size of the package and with a size of ten bytes. *)
Definition session (size : Z) : Download.DownloadSession :=
  Download.mkDownloadSession "d1" package "g1.zip" size
    (Demo.hex Demo.demo_zip) "g1" "1.0.0".

Definition store (size : Z) : Download.world :=
  Download.mkWorld (Lobby.files Demo.lobby0) {[ "d1" := session size ]}.

End DownloadDemo.

(** * Properties of the frame transport *)

Module FramingFacts.
Import Framing.

Lemma Z_of_byte_of_Z (z : Z) : Z_of_byte (byte_of_Z z) = z mod 256.
Proof.
  unfold Z_of_byte, byte_of_Z.
  assert (Hr : 0 <= z mod 256 < 256) by (apply Z.mod_pos_bound; lia).
  destruct (Byte.of_N (Z.to_N (z mod 256))) as [b|] eqn:E.
  - apply Byte.to_of_N in E. rewrite E. lia.
  - apply Byte.of_N_None_iff in E. lia.
Qed.

Lemma Z_of_byte_range (b : byte) : 0 <= Z_of_byte b < 256.
Proof.
  unfold Z_of_byte. pose proof (Byte.to_N_bounded b). lia.
Qed.

Lemma byte_of_Z_of_byte (b : byte) : byte_of_Z (Z_of_byte b) = b.
Proof.
  unfold byte_of_Z. pose proof (Z_of_byte_range b) as Hr.
  rewrite Z.mod_small by lia. unfold Z_of_byte.
  rewrite N2Z.id, Byte.of_to_N. reflexivity.
Qed.

(** The four bytes of the header carry the length, most significant
    byte first. *)
Lemma HDR_unpack_pack (n : Z) (hdr : list byte) :
  HDR_pack n = Some hdr -> HDR_unpack hdr = Some n.
Proof.
  unfold HDR_pack. destruct (decide (0 <= n < 2 ^ 32)) as [Hn|]; [|discriminate].
  intros [= <-]. unfold HDR_unpack. f_equal.
  rewrite !Z_of_byte_of_Z.
  change 256 with (2 ^ 8).
  apply Z.bits_inj'. intros i Hi.
  rewrite !Z.lor_spec.
  rewrite !Z.shiftl_spec by lia.
  destruct (Z_lt_le_dec i 8) as [H8|H8].
  { rewrite (Z.testbit_neg_r _ (i - 24)), (Z.testbit_neg_r _ (i - 16)),
      (Z.testbit_neg_r _ (i - 8)) by lia.
    rewrite Z.mod_pow2_bits_low by lia. reflexivity. }
  rewrite (Z.mod_pow2_bits_high n 8 i) by lia. rewrite orb_false_r.
  destruct (Z_lt_le_dec i 16) as [H16|H16].
  { rewrite (Z.testbit_neg_r _ (i - 24)), (Z.testbit_neg_r _ (i - 16)) by lia.
    rewrite Z.mod_pow2_bits_low by lia.
    rewrite Z.shiftr_spec by lia. simpl. f_equal. lia. }
  rewrite (Z.mod_pow2_bits_high _ 8 (i - 8)) by lia. rewrite orb_false_r.
  destruct (Z_lt_le_dec i 24) as [H24|H24].
  { rewrite (Z.testbit_neg_r _ (i - 24)) by lia.
    rewrite Z.mod_pow2_bits_low by lia.
    rewrite Z.shiftr_spec by lia. simpl. f_equal. lia. }
  rewrite (Z.mod_pow2_bits_high _ 8 (i - 16)) by lia. rewrite orb_false_r.
  destruct (Z_lt_le_dec i 32) as [H32|H32].
  { rewrite Z.mod_pow2_bits_low by lia.
    rewrite Z.shiftr_spec by lia. f_equal. lia. }
  rewrite (Z.mod_pow2_bits_high _ 8 (i - 24)) by lia.
  symmetry. apply (Z.bits_above_log2 n i); [lia|].
  destruct (Z.eq_dec n 0) as [->|Hz]; [simpl; lia|].
  assert (Z.log2 n < 32) by (apply Z.log2_lt_pow2; lia). lia.
Qed.

Lemma HDR_pack_length (n : Z) (hdr : list byte) :
  HDR_pack n = Some hdr -> length hdr = HDR_size.
Proof.
  unfold HDR_pack. case_decide; [|discriminate]. by intros [= <-].
Qed.

(** What one [read] returns: a prefix of the pending bytes, never longer
    than asked for, and empty only at end of stream. *)
Lemma reader_read_spec (k : nat) (rd : reader) chunk rd' :
  reader_read k rd = (chunk, rd') ->
  chunk = take (length chunk) (concat rd) /\
  concat rd' = drop (length chunk) (concat rd) /\
  (length chunk <= k)%nat /\
  ((0 < k)%nat -> concat rd <> [] -> chunk <> []).
Proof.
  revert chunk rd'. induction rd as [|seg rest IH]; intros chunk rd'; simpl.
  - intros [= <- <-]. simpl. split; [done|]. split; [done|].
    split; [lia|]. intros _ Hne. exact Hne.
  - destruct seg as [|b seg].
    + simpl. apply IH.
    + intros [= <- <-].
      set (s := b :: seg).
      assert (Hl : (length (take k s) <= length s)%nat)
        by (rewrite length_take; lia).
      repeat split.
      * rewrite take_app_le by exact Hl. rewrite length_take.
        destruct (decide (k <= length s)%nat).
        -- by rewrite Nat.min_l.
        -- rewrite Nat.min_r by lia. by rewrite !take_ge by lia.
      * change (concat (drop k s :: rest)) with (drop k s ++ concat rest).
        rewrite drop_app_le by exact Hl. f_equal.
        rewrite length_take.
        destruct (decide (k <= length s)%nat).
        -- by rewrite Nat.min_l.
        -- rewrite Nat.min_r by lia. by rewrite !drop_ge by lia.
      * rewrite length_take. lia.
      * intros Hk _. destruct k; [lia|]. subst s. simpl. congruence.
Qed.

(** [_read_exact] on a stream that still holds the bytes asked for. *)
Lemma _read_exact_loop_enough (fuel n : nat) (buf : list byte) (rd : reader) :
  (length buf <= n)%nat ->
  (n - length buf <= fuel)%nat ->
  (n - length buf <= length (concat rd))%nat ->
  exists rd',
    _read_exact_loop fuel n buf rd
      = Some (Some (buf ++ take (n - length buf) (concat rd)), rd') /\
    concat rd' = drop (n - length buf) (concat rd).
Proof.
  revert buf rd. induction fuel as [|fuel IH]; intros buf rd Hb Hf Hd; simpl.
  - case_decide; [lia|]. exists rd. replace (n - length buf)%nat with O by lia.
    rewrite take_0, app_nil_r, drop_0. auto.
  - case_decide as Hlt.
    + destruct (reader_read (n - length buf) rd) as [chunk rd1] eqn:Er.
      apply reader_read_spec in Er as (Hc & Hrd1 & Hk & Hne).
      assert (Hnn : chunk <> []).
      { apply Hne; [lia|]. intros E. rewrite E in Hd. simpl in Hd. lia. }
      destruct chunk as [|c chunk]; [congruence|].
      set (ch := c :: chunk) in *.
      destruct (IH (buf ++ ch) rd1) as (rd' & Hrun & Hrest).
      * rewrite length_app. lia.
      * rewrite length_app. assert (0 < length ch)%nat by (subst ch; simpl; lia). lia.
      * rewrite Hrd1, length_drop, length_app. lia.
      * exists rd'. rewrite Hrun. split.
        -- f_equal. f_equal. rewrite <- app_assoc. f_equal.
           rewrite Hrd1, length_app.
           generalize dependent (length ch). intros L Hc **.
           rewrite Hc, take_take_drop. do 2 f_equal. lia.
        -- rewrite Hrest, Hrd1, drop_drop, length_app. f_equal. lia.
    + exists rd. replace (n - length buf)%nat with O by lia.
      rewrite take_0, app_nil_r, drop_0. auto.
Qed.

(** [_read_exact] on a stream that ends too early reports [None]. *)
Lemma _read_exact_loop_short (fuel n : nat) (buf : list byte) (rd : reader) :
  (n - length buf <= fuel)%nat ->
  (length (concat rd) < n - length buf)%nat ->
  exists rd', _read_exact_loop fuel n buf rd = Some (None, rd').
Proof.
  revert buf rd. induction fuel as [|fuel IH]; intros buf rd Hf Hd; simpl.
  - case_decide; lia.
  - case_decide as Hlt; [|lia].
    destruct (reader_read (n - length buf) rd) as [chunk rd1] eqn:Er.
    apply reader_read_spec in Er as (Hc & Hrd1 & Hk & Hne).
    destruct chunk as [|c chunk]; [eauto|].
    set (ch := c :: chunk) in *.
    assert (Hlen : (length ch <= length (concat rd))%nat).
    { rewrite Hc, length_take. lia. }
    assert (0 < length ch)%nat by (subst ch; simpl; lia).
    apply IH.
    + rewrite length_app. lia.
    + rewrite Hrd1, length_drop, length_app. lia.
Qed.

Lemma _read_exact_enough (n : nat) (rd : reader) :
  (n <= length (concat rd))%nat ->
  exists rd',
    _read_exact n rd = Some (Some (take n (concat rd)), rd') /\
    concat rd' = drop n (concat rd).
Proof.
  intros H. unfold _read_exact.
  destruct (_read_exact_loop_enough n n [] rd) as (rd' & E & R);
    simpl; try lia.
  exists rd'. rewrite E. simpl. rewrite Nat.sub_0_r in *. auto.
Qed.

Lemma _read_exact_short (n : nat) (rd : reader) :
  (length (concat rd) < n)%nat ->
  exists rd', _read_exact n rd = Some (None, rd').
Proof.
  intros H. unfold _read_exact.
  apply _read_exact_loop_short; simpl; lia.
Qed.

Lemma send_frame_ok (w : writer) (b : list byte) :
  1 <= Z.of_nat (length b) <= 65536 ->
  exists hdr, HDR_pack (Z.of_nat (length b)) = Some hdr /\
              send_frame w b = Returned ((w ++ hdr) ++ b).
Proof.
  intros Hb. unfold send_frame, MAX_FRAME.
  case_decide as Hbad.
  { destruct Hbad as [-> | ?]; simpl in *; lia. }
  unfold HDR_pack. case_decide as Hr; [|lia]. eauto.
Qed.

Lemma recv_frame_whole (hdr body : list byte) (rd : reader) (tail : list byte) :
  HDR_pack (Z.of_nat (length body)) = Some hdr ->
  1 <= Z.of_nat (length body) <= 65536 ->
  concat rd = (hdr ++ body) ++ tail ->
  exists rd', recv_frame rd = Some (Returned (Some body), rd') /\
              concat rd' = tail.
Proof.
  intros Hp Hb Hrd. unfold recv_frame.
  pose proof (HDR_pack_length _ _ Hp) as Hl.
  destruct (_read_exact_enough HDR_size rd) as (rd1 & E1 & R1).
  { rewrite Hrd, !length_app. lia. }
  rewrite E1.
  assert (Eh : take HDR_size (concat rd) = hdr).
  { rewrite Hrd, <- app_assoc, take_app_le by lia. rewrite take_ge; [done|lia]. }
  rewrite Eh, (HDR_unpack_pack _ _ Hp).
  unfold MAX_FRAME. case_decide as Hbad; [lia|].
  rewrite Nat2Z.id.
  assert (R1' : concat rd1 = body ++ tail).
  { rewrite R1, Hrd, <- app_assoc, drop_app_length'; [done|by rewrite Hl]. }
  destruct (_read_exact_enough (length body) rd1) as (rd2 & E2 & R2).
  { rewrite R1', length_app. lia. }
  rewrite E2. exists rd2. split.
  - rewrite R1', take_app_length. reflexivity.
  - rewrite R2, R1', drop_app_length. reflexivity.
Qed.

Lemma recv_frame_bad_length (rd : reader) (len : Z) :
  (HDR_size <= length (concat rd))%nat ->
  HDR_unpack (take HDR_size (concat rd)) = Some len ->
  len = 0 \/ len > 65536 ->
  exists rd', recv_frame rd = Some (Raised (FramingError "bad length"), rd').
Proof.
  intros Hl Hu Hbad. unfold recv_frame.
  destruct (_read_exact_enough HDR_size rd Hl) as (rd1 & E1 & _).
  rewrite E1, Hu. unfold MAX_FRAME. case_decide; [eauto|lia].
Qed.

Lemma recv_frame_short_header (rd : reader) :
  (length (concat rd) < HDR_size)%nat ->
  exists rd', recv_frame rd = Some (Returned None, rd').
Proof.
  intros Hl. unfold recv_frame.
  destruct (_read_exact_short HDR_size rd Hl) as (rd1 & E1).
  rewrite E1. eauto.
Qed.

Lemma recv_frame_short_body (rd : reader) (len : Z) :
  (HDR_size <= length (concat rd))%nat ->
  HDR_unpack (take HDR_size (concat rd)) = Some len ->
  1 <= len <= 65536 ->
  Z.of_nat (length (concat rd)) < Z.of_nat HDR_size + len ->
  exists rd', recv_frame rd = Some (Returned None, rd').
Proof.
  intros Hl Hu Hlen Hshort. unfold recv_frame.
  destruct (_read_exact_enough HDR_size rd Hl) as (rd1 & E1 & R1).
  rewrite E1, Hu. unfold MAX_FRAME. case_decide; [lia|].
  destruct (_read_exact_short (Z.to_nat len) rd1) as (rd2 & E2).
  { rewrite R1, length_drop. lia. }
  rewrite E2. eauto.
Qed.

End FramingFacts.

(** C9.  Framing round trip.  A payload of 1 to 65536 bytes is written as a
    four-byte header followed by the payload, and reading that frame back,
    however the stream is cut into segments and whatever follows it, returns
    the payload and leaves the rest of the stream; an empty payload or one
    longer than 65536 bytes is refused with [FramingError]; a received
    header announcing 0 or more than 65536 bytes is a [FramingError]; a
    stream that ends within the header or within the announced body is
    reported as closed ([None]). *)
Theorem frame_roundtrip :
  (forall (w : Framing.writer) (b : list byte),
      1 <= Z.of_nat (length b) <= 65536 ->
      exists hdr,
        length hdr = 4%nat /\
        Framing.send_frame w b = Returned ((w ++ hdr) ++ b) /\
        forall (rd : Framing.reader) (tail : list byte),
          concat rd = (hdr ++ b) ++ tail ->
          exists rd',
            Framing.recv_frame rd = Some (Returned (Some b), rd') /\
            concat rd' = tail) /\
  (forall (w : Framing.writer) (b : list byte),
      length b = 0%nat \/ Z.of_nat (length b) > 65536 ->
      Framing.send_frame w b = Raised (FramingError "bad frame size")) /\
  (forall (rd : Framing.reader) (len : Z),
      (4 <= length (concat rd))%nat ->
      Framing.HDR_unpack (take 4 (concat rd)) = Some len ->
      len = 0 \/ len > 65536 ->
      exists rd',
        Framing.recv_frame rd = Some (Raised (FramingError "bad length"), rd')) /\
  (forall (rd : Framing.reader),
      (length (concat rd) < 4)%nat ->
      exists rd', Framing.recv_frame rd = Some (Returned None, rd')) /\
  (forall (rd : Framing.reader) (len : Z),
      (4 <= length (concat rd))%nat ->
      Framing.HDR_unpack (take 4 (concat rd)) = Some len ->
      1 <= len <= 65536 ->
      Z.of_nat (length (concat rd)) < 4 + len ->
      exists rd', Framing.recv_frame rd = Some (Returned None, rd')).
Proof.
  repeat split.
  - intros w b Hb.
    destruct (FramingFacts.send_frame_ok w b Hb) as (hdr & Hp & Hs).
    exists hdr. split; [exact (FramingFacts.HDR_pack_length _ _ Hp)|].
    split; [exact Hs|].
    intros rd tail Hrd. exact (FramingFacts.recv_frame_whole hdr b rd tail Hp Hb Hrd).
  - intros w b Hb. unfold Framing.send_frame, Framing.MAX_FRAME.
    case_decide as Hd; [reflexivity|].
    exfalso. apply Hd. destruct Hb as [Hz|Hbig]; [left|right; exact Hbig].
    by destruct b.
  - intros rd len. apply FramingFacts.recv_frame_bad_length.
  - intros rd. apply FramingFacts.recv_frame_short_header.
  - intros rd len Hl Hu Hlen Hs.
    apply (FramingFacts.recv_frame_short_body rd len Hl Hu Hlen).
    change (Z.of_nat Framing.HDR_size) with 4. exact Hs.
Qed.

(** The two-byte payload [x68 x69] sent and read back from a stream that
    delivers it in three segments, followed by one more byte. *)
Lemma frame_roundtrip_witness :
  exists rd',
    Framing.recv_frame [[x00; x00]; [x00; x02; x68]; [x69; x7b]]
      = Some (Returned (Some [x68; x69]), rd') /\
    concat rd' = [x7b].
Proof.
  destruct (proj1 frame_roundtrip [] [x68; x69]) as (hdr & Hlen & Hsend & Hrecv).
  { simpl. lia. }
  assert (Hh : hdr = [x00; x00; x00; x02]).
  { destruct hdr as [|h3 [|h2 [|h1 [|h0 [|]]]]]; try discriminate Hlen.
    vm_compute in Hsend. by injection Hsend as <- <- <- <-. }
  subst hdr.
  apply (Hrecv [[x00; x00]; [x00; x02; x68]; [x69; x7b]] [x7b]).
  reflexivity.
Defined.

(** * Properties of the string helpers *)

Module PyFacts.

Lemma or_str_Some (s : string) : Py.or_str (Some s) EmptyString = s.
Proof. by destruct s. Qed.

Lemma or_int_Some_0 (n : Z) : Py.or_int (Some n) 0 = n.
Proof. unfold Py.or_int. by case_decide. Qed.

Lemma or_int_Some_pos (n d : Z) : n <> 0 -> Py.or_int (Some n) d = n.
Proof. intros. unfold Py.or_int. by case_decide. Qed.

Lemma rev_rev (s : string) : Py.rev (Py.rev s) = s.
Proof.
  unfold Py.rev. rewrite list_ascii_of_string_of_list_ascii, rev_involutive.
  apply string_of_list_ascii_of_string.
Qed.







End PyFacts.

(** * Properties of the file-system operations *)

Module FsFacts.
Import Fs.









Lemma join_relative (d : path) (s : string) :
  is_absolute s = false -> join d s = d ++ rel_parts s.
Proof. intros Hs. unfold join, parts. by rewrite Hs. Qed.

End FsFacts.

(** * Properties of the developer ingestion pipeline *)

Module DeveloperFacts.
Import Developer.

Section WithEnv.
Context `{Env}.

(** A chunk that is refused changes nothing at all. *)
Lemma chunk_error_unchanged (w w' : world) (writer : conn)
    (data : upload_chunk) (e : string) (fields : list (string * json)) :
  handle_upload_chunk w writer data = (w', Err_ e fields) -> w' = w.
Proof.
  unfold handle_upload_chunk.
  repeat case_match; intros [= <- ? ?]; reflexivity || discriminate.
Qed.

(** A finish that is refused keeps the session table and the store. *)
Lemma finish_error_keeps (now : Z) (w w' : world) (writer : conn)
    (data : upload_finish) (e : string) (fields : list (string * json)) :
  handle_upload_finish now w writer data = (w', Err_ e fields) ->
  UPLOADS w' = UPLOADS w /\ db w' = db w /\ SESSIONS w' = SESSIONS w.
Proof.
  unfold handle_upload_finish.
  repeat case_match; intros [= <- ? ?]; auto; discriminate.
Qed.

(** Before the size and digest checks pass nothing is touched. *)
Lemma finish_mismatch_unchanged (now : Z) (w : world) (writer : conn)
    (data : upload_finish) (sess : DevSession) (up : UploadSession) :
  SESSIONS w !! writer = Some sess ->
  UPLOADS w !! Py.strip (Py.or_str (f_uploadId data) EmptyString) = Some up ->
  up_developer_id up = developer_id sess ->
  (received up <> expected_size up ->
   handle_upload_finish now w writer data
   = (w, Err_ "size_mismatch" [("received", JInt (received up));
                               ("expected", JInt (expected_size up))])) /\
  (received up = expected_size up ->
   Py.lower (sha256_hexdigest (hasher up)) <> expected_sha256 up ->
   handle_upload_finish now w writer data
   = (w, Err_ "hash_mismatch"
            [("got", JStr (Py.lower (sha256_hexdigest (hasher up))));
             ("expected", JStr (expected_sha256 up))])).
Proof.
  intros Hs Hu Ho. unfold handle_upload_finish. rewrite Hs, Hu.
  split.
  - intros Hne. case_decide; [congruence|]. case_decide; [done|congruence].
  - intros He Hd. case_decide; [congruence|]. case_decide; [congruence|].
    rewrite bool_decide_eq_false_2 by done. reflexivity.
Qed.

(** [game_upload_init] reads and writes the [Game] table only: it
    commutes with any change of the [GameVersion] table. *)
Definition with_versions (rows : list Store.GameVersion) (seq : Z)
    (w : world) : world :=
  with_db (Store.with_GameVersions rows seq (db w)) w.

Lemma first_free_versions rows seq d candidates :
  first_free (Store.with_GameVersions rows seq d) candidates
  = first_free d candidates.
Proof. induction candidates as [|c cs IH]; simpl; [done|]. by rewrite IH. Qed.

Lemma Game_get_versions rows seq d gid :
  Store.Game_get_by_gameId (Store.with_GameVersions rows seq d) gid
  = Store.Game_get_by_gameId d gid.
Proof. reflexivity. Qed.

Lemma Game_create_versions rows seq now d gid name descr dev :
  Store.Game_create now (Store.with_GameVersions rows seq d) gid name descr dev
  = ((Store.with_GameVersions rows seq
        (Store.Game_create now d gid name descr dev).1),
     (Store.Game_create now d gid name descr dev).2).
Proof.
  unfold Store.Game_create.
  change (Store.find_game_by_gameId (Store.with_GameVersions rows seq d))
    with (Store.find_game_by_gameId d).
  destruct (_ || _); [reflexivity|].
  destruct (Store.find_game_by_gameId d (Py.strip gid)); reflexivity.
Qed.

Lemma init_target_versions rows seq now rnd w sess data gid :
  init_target now (with_versions rows seq w) rnd sess data gid
  = match init_target now w rnd sess data gid with
    | inl r => inl r
    | inr (d, g, a) => inr (Store.with_GameVersions rows seq d, g, a)
    end.
Proof.
  unfold init_target, _reserve_unique_game_id, with_versions.
  cbn [db with_db].
  rewrite first_free_versions, !Game_create_versions, !Game_get_versions.
  destruct (negb (Py.truthy gid)).
  - destruct (_ || _); [reflexivity|].
    destruct (Store.Game_create _ _ _ _ _ _) as [d [id|e]]; reflexivity.
  - destruct (Store.Game_get_by_gameId (db w) gid) as [g|e].
    + destruct (decide _); reflexivity.
    + destruct (negb (bool_decide (e = "not_found"))); [reflexivity|].
      destruct (_ || _); [reflexivity|].
      destruct (Store.Game_create _ _ _ _ _ _) as [d [id|e']]; [reflexivity|].
      cbn [fst snd].
      destruct (bool_decide (e' = "game_exists")); [|reflexivity].
      destruct (Store.Game_get_by_gameId d gid) as [g2|]; [|reflexivity].
      destruct (decide _); reflexivity.
Qed.

Lemma init_ignores_versions rows seq now rnd w writer data :
  handle_upload_init now rnd (with_versions rows seq w) writer data
  = (with_versions rows seq (handle_upload_init now rnd w writer data).1,
     (handle_upload_init now rnd w writer data).2).
Proof.
  unfold handle_upload_init.
  change (SESSIONS (with_versions rows seq w)) with (SESSIONS w).
  destruct (SESSIONS w !! writer) as [sess|]; [|reflexivity].
  rewrite init_target_versions.
  destruct (_ || _ || _); [reflexivity|].
  destruct (negb (_VERSION_RE_fullmatch _)); [reflexivity|].
  destruct (_ && _); [reflexivity|].
  destruct (init_target _ _ _ _ _ _) as [r|[[d g] a]]; reflexivity.
Qed.

(** A finish for a version the game already has is refused and leaves
    the store as it was. *)
Lemma finish_version_taken now w writer data up g :
  UPLOADS w !! Py.strip (Py.or_str (f_uploadId data) EmptyString) = Some up ->
  Store.Game_get_by_gameId (db w) (up_game_id up) = Store.OK g ->
  Store.version_taken (db w) (Store.g_id g) (Py.strip (up_version up)) = true ->
  exists w' e fields,
    handle_upload_finish now w writer data = (w', Err_ e fields) /\
    db w' = db w.
Proof.
  intros Hu Hg Ht. unfold handle_upload_finish. rewrite Hu, Hg.
  repeat case_match; simplify_eq/=; eauto.
  exfalso. revert select (Store.GameVersion_create _ _ _ _ _ = _).
  unfold Store.GameVersion_create. rewrite Ht.
  repeat case_match; discriminate.
Qed.

(** *** Staging the package *)











End WithEnv.
End DeveloperFacts.

(** C4, as amended.  A failing operation on an upload removes nothing: a
    refused chunk ([bad_seq], [bad_base64], [empty_chunk], [too_large], ...)
    leaves the whole state as it was, the session and its temporary file
    included; a refused finish leaves the session table and the store as
    they were, and when it is refused for [size_mismatch] or
    [hash_mismatch] the disk as well.  Rows of [Game], the one made by init
    included, are kept. *)
Theorem upload_failure_keeps_session {E : Env} :
  (forall (w w' : Developer.world) (writer : Developer.conn) (data : Developer.upload_chunk)
          (e : string) (fields : list (string * json)),
      Developer.handle_upload_chunk w writer data = (w', Err_ e fields) ->
      w' = w) /\
  (forall (now : Z) (w w' : Developer.world) (writer : Developer.conn)
          (data : Developer.upload_finish) (e : string)
          (fields : list (string * json)),
      Developer.handle_upload_finish now w writer data = (w', Err_ e fields) ->
      Developer.UPLOADS w' = Developer.UPLOADS w /\
      Developer.db w' = Developer.db w) /\
  (forall (now : Z) (w : Developer.world) (writer : Developer.conn)
          (data : Developer.upload_finish) (sess : Developer.DevSession)
          (up : Developer.UploadSession),
      Developer.SESSIONS w !! writer = Some sess ->
      Developer.UPLOADS w !! Py.strip (Py.or_str (Developer.f_uploadId data) EmptyString)
        = Some up ->
      Developer.up_developer_id up = Developer.developer_id sess ->
      Developer.received up <> Developer.expected_size up \/
      Py.lower (sha256_hexdigest (Developer.hasher up)) <> Developer.expected_sha256 up ->
      exists e fields,
        Developer.handle_upload_finish now w writer data = (w, Err_ e fields) /\
        (e = "size_mismatch" \/ e = "hash_mismatch")).
Proof.
  split; [|split].
  - intros. eapply DeveloperFacts.chunk_error_unchanged; eauto.
  - intros now w w' writer data e fields Hf.
    destruct (DeveloperFacts.finish_error_keeps _ _ _ _ _ _ _ Hf) as (? & ? & _).
    auto.
  - intros now w writer data sess up Hs Hu Ho Hbad.
    destruct (DeveloperFacts.finish_mismatch_unchanged now w writer data sess up Hs Hu Ho)
      as [Hsize Hhash].
    destruct (decide (Developer.received up = Developer.expected_size up)) as [Heq|Hne].
    + destruct Hbad as [?|Hd]; [done|].
      eexists _, _. split; [apply Hhash; done|]. by right.
    + eexists _, _. split; [apply Hsize; done|]. by left.
Qed.

(** A chunk numbered 5 where 0 is expected is refused and the state is the
    one before it. *)
Lemma upload_failure_keeps_session_witness :
  (@Developer.handle_upload_chunk Demo.demo_env Demo.w_init1 1%nat
     (Demo.chunk "u1" 5 "PKd")).1 = Demo.w_init1.
Proof.
  apply (proj1 (@upload_failure_keeps_session Demo.demo_env) Demo.w_init1 _ 1%nat
           (Demo.chunk "u1" 5 "PKd") "bad_seq" [("expected", JInt 0)]).
  vm_compute. reflexivity.
Defined.

(** C4 as stated fails: after [bad_seq] on a chunk and [size_mismatch] on the
    finish that follows, the session [u1] is still in the table, with its
    temporary file on disk. *)
Lemma upload_failure_removes_session_counterexample :
  let chunk := @Developer.handle_upload_chunk Demo.demo_env Demo.w_init1 1%nat
                 (Demo.chunk "u1" 5 "PKd") in
  let finish := @Developer.handle_upload_finish Demo.demo_env 200 chunk.1 1%nat
                  (Demo.finish "u1") in
  chunk.2 = Err_ "bad_seq" [("expected", JInt 0)] /\
  finish.2 = Err_ "size_mismatch" [("received", JInt 0); ("expected", JInt 6)] /\
  is_Some (Developer.UPLOADS finish.1 !! "u1") /\
  Developer.files finish.1 !! ["srv"; "tmp_uploads"; "u1.zip.part"] = Some (File []).
Proof.
  vm_compute. repeat split; eauto.
Qed.

(** C5, as amended.  [game_upload_init] never consults the versions of the
    game: whatever the [GameVersion] table holds, it gives the same reply
    and opens the same session.  A version that exists already is refused
    only by [game_upload_finish], which then replies with an error and
    leaves the store unchanged. *)
Theorem init_does_not_check_version {E : Env} :
  (forall (rows : list Store.GameVersion) (seq now : Z)
          (rnd : Developer.randomness) (w : Developer.world) (writer : Developer.conn)
          (data : Developer.upload_init),
      let plain := Developer.handle_upload_init now rnd w writer data in
      let other :=
        Developer.handle_upload_init now rnd
          (Developer.with_db (Store.with_GameVersions rows seq (Developer.db w)) w)
          writer data in
      other.2 = plain.2 /\
      Developer.UPLOADS other.1 = Developer.UPLOADS plain.1) /\
  (forall (now : Z) (w : Developer.world) (writer : Developer.conn)
          (data : Developer.upload_finish) (up : Developer.UploadSession)
          (g : Store.Game),
      Developer.UPLOADS w !! Py.strip (Py.or_str (Developer.f_uploadId data) EmptyString)
        = Some up ->
      Store.Game_get_by_gameId (Developer.db w) (Developer.up_game_id up) = Store.OK g ->
      Store.version_taken (Developer.db w) (Store.g_id g)
        (Py.strip (Developer.up_version up)) = true ->
      exists w' e fields,
        Developer.handle_upload_finish now w writer data = (w', Err_ e fields) /\
        Developer.db w' = Developer.db w).
Proof.
  split.
  - intros rows seq now rnd w writer data plain other. subst plain other.
    pose proof (DeveloperFacts.init_ignores_versions rows seq now rnd w writer data) as Hc.
    unfold DeveloperFacts.with_versions in Hc. rewrite Hc. simpl. auto.
  - intros. eapply DeveloperFacts.finish_version_taken; eauto.
Qed.

(** Version 1.0.0 of [g1] is published; a second upload of it, complete and
    valid, is refused at finish and the store keeps its single version. *)
Lemma init_does_not_check_version_witness :
  exists w' e fields,
    Demo.finish2 = (w', Err_ e fields) /\
    Developer.db w' = Developer.db Demo.w_sent2.
Proof.
  apply (proj2 (@init_does_not_check_version Demo.demo_env) 400 Demo.w_sent2
           1%nat (Demo.finish "u2")
           (Developer.mkUploadSession "u2" 7 "g1" "1.0.0" "g1.zip" 6
              (Demo.hex Demo.demo_zip) ["srv"; "tmp_uploads"; "u2.zip.part"]
              false 6 1 Demo.demo_zip)
           (Store.mkGame 1 "g1" "Game One" "demo" 7 0 100 200)).
  - vm_compute. reflexivity.
  - vm_compute. reflexivity.
  - vm_compute. reflexivity.
Defined.

(** C5 as stated fails: version 1.0.0 of [g1] exists and belongs to the
    session's developer, yet init for 1.0.0 succeeds, returns the upload id
    and opens the session. *)
Lemma init_existing_version_counterexample :
  let init := Demo.init2 in
  Store.version_taken (Developer.db Demo.w_published1) 1 "1.0.0" = true /\
  init.2 = Ok_ [("uploadId", JStr "u2"); ("gameId", JStr "g1"); ("created", JBool false)] /\
  is_Some (Developer.UPLOADS init.1 !! "u2").
Proof.
  vm_compute. repeat split; eauto.
Qed.




(** * An upload from init to finish *)

Module UploadFacts.
Import Developer.






(** Texts numbered from [k] on. *)
Fixpoint numbered (k : Z) (texts : list string) : list (Z * string) :=
  match texts with
  | [] => []
  | t :: ts => (k, t) :: numbered (k + 1) ts
  end.

Section WithEnv.
Context `{Env}.









(** The bytes a list of requests offers. *)
Definition offered (reqs : list (Z * string)) : Z :=
  foldr (fun r acc => match b64decode r.2 with
                      | Some c => Z.of_nat (length c) + acc
                      | None => acc
                      end) 0 reqs.





Lemma offered_numbered texts : forall chunks k,
  Forall2 (fun t c => b64decode t = Some c /\ c <> []) texts chunks ->
  offered (numbered k texts) = Z.of_nat (length (concat chunks)) /\
  Forall (fun r => exists c, b64decode r.2 = Some c /\ c <> []) (numbered k texts).
Proof.
  induction texts as [|t texts IH]; intros chunks k Hdec;
    inversion Hdec as [|? c ? cs [Ht Hc] Hrest]; subst; simpl.
  { split; [done|constructor]. }
  destruct (IH cs (k + 1) Hrest) as [Ho Hf].
  rewrite Ht, Ho, length_app. split; [lia|]. constructor; eauto.
Qed.

(** *** Init *)








(** *** Finish *)








End WithEnv.
End UploadFacts.




(** * Properties of the record store *)

Module StoreFacts.
Import Store.

Lemma elem_of_map {A B} (f : A -> B) (l : list A) (y : B) :
  y ∈ map f l <-> exists x, y = f x /\ x ∈ l.
Proof.
  rewrite list_elem_of_In, in_map_iff. split.
  - intros (x & <- & Hx). exists x. by rewrite list_elem_of_In.
  - intros (x & -> & Hx). exists x. by rewrite <- list_elem_of_In.
Qed.

Lemma find_Some_elem {A} (p : A -> bool) (l : list A) (x : A) :
  List.find p l = Some x -> x ∈ l /\ p x = true.
Proof.
  intros Hf. apply find_some in Hf as [Hin Hp].
  by rewrite list_elem_of_In.
Qed.

Lemma find_room_by_id_Some d id r :
  find_room_by_id d id = Some r -> r ∈ Room_rows d /\ r_id r = id.
Proof.
  intros Hf. apply find_Some_elem in Hf as [Hin Hp].
  split; [done|]. by apply bool_decide_eq_true in Hp.
Qed.

Lemma find_version_by_id_Some d id v :
  find_version_by_id d id = Some v -> v ∈ GameVersion_rows d /\ gv_id v = id.
Proof.
  intros Hf. apply find_Some_elem in Hf as [Hin Hp].
  split; [done|]. by apply bool_decide_eq_true in Hp.
Qed.

(** ** What each write leaves of the Room table *)

Lemma MatchLog_create_rooms d rid g v s e reason win js :
  Room_rows (MatchLog_create d rid g v s e reason win js).1 = Room_rows d.
Proof. reflexivity. Qed.

Definition set_status_row (now room_id : Z) (status : string) (r : Room) : Room :=
  if decide (r_id r = room_id)
  then mkRoom (r_id r) (r_hostPlayerId r) (r_gameFk r) (r_gameVersionFk r)
              status (r_createdAt r) now
  else r.

Lemma Room_set_status_rows now d rid st :
  Room_rows (Room_set_status now d rid st).1
  = if bool_decide (rid <= 0) || negb (Py.truthy (Py.strip st))
    then Room_rows d
    else map (set_status_row now rid (Py.strip st)) (Room_rows d).
Proof.
  unfold Room_set_status.
  destruct (bool_decide (rid <= 0) || negb (Py.truthy (Py.strip st))); reflexivity.
Qed.

Definition set_host_row (now room_id host : Z) (r : Room) : Room :=
  if decide (r_id r = room_id)
  then mkRoom (r_id r) host (r_gameFk r) (r_gameVersionFk r) (r_status r)
              (r_createdAt r) now
  else r.

Lemma Room_set_host_rows now d rid h :
  Room_rows (Room_set_host now d rid h).1
  = if bool_decide (rid <= 0) || bool_decide (h <= 0)
    then Room_rows d
    else map (set_host_row now rid h) (Room_rows d).
Proof.
  unfold Room_set_host.
  destruct (bool_decide (rid <= 0) || bool_decide (h <= 0)); reflexivity.
Qed.


Lemma Room_add_member_rows now d rid pid :
  Room_rows (Room_add_member now d rid pid).1
  = if bool_decide (rid <= 0) || bool_decide (pid <= 0)
    then Room_rows d
    else map (touch_room now rid) (Room_rows d).
Proof.
  unfold Room_add_member.
  destruct (bool_decide (rid <= 0) || bool_decide (pid <= 0)); [reflexivity|].
  destruct (is_member d rid pid); reflexivity.
Qed.


(** ** The room writes leave the match log alone *)





(** ** Rows of one room all marked [waiting] *)





Lemma strip_playing : Py.strip "playing" = "playing".
Proof. reflexivity. Qed.






(** ** [Room.get] *)

Lemma Room_get_OK d rid info :
  Room_get d rid = OK info ->
  0 < rid /\
  exists r g v,
    find_room_by_id d rid = Some r /\
    find_game_by_id d (r_gameFk r) = Some g /\
    find_version_by_id d (r_gameVersionFk r) = Some v /\
    info = mkRoomInfo (r_id r) (r_hostPlayerId r) (r_status r)
             (r_createdAt r) (r_updatedAt r)
             (g_id g) (g_gameId g) (g_name g) (g_delisted g)
             (gv_id v) (gv_version v) (gv_clientType v)
             (gv_minPlayers v) (gv_maxPlayers v) (room_players d rid).
Proof.
  unfold Room_get. destruct (decide (rid <= 0)); [discriminate|].
  destruct (find_room_by_id d rid) as [r|]; [|discriminate].
  destruct (find_game_by_id d (r_gameFk r)) as [g|] eqn:Hg; [|discriminate].
  destruct (find_version_by_id d (r_gameVersionFk r)) as [v|] eqn:Hv;
    [|discriminate].
  intros [= <-]. split; [lia|]. exists r, g, v. repeat split; done.
Qed.



Lemma insert_by_joinedAt_length m l :
  length (insert_by_joinedAt m l) = S (length l).
Proof.
  induction l as [|x l IH]; [done|]. cbn [insert_by_joinedAt].
  destruct (decide _); cbn [length]; [done|]. by rewrite IH.
Qed.

Lemma order_by_joinedAt_length l :
  length (order_by_joinedAt l) = length l.
Proof.
  unfold order_by_joinedAt. induction l as [|x l IH]; [done|].
  cbn [foldr]. rewrite insert_by_joinedAt_length. cbn [length]. by rewrite IH.
Qed.

Lemma room_players_length d rid :
  length (room_players d rid) = length (members_of d rid).
Proof.
  unfold room_players. by rewrite length_map, order_by_joinedAt_length.
Qed.

(** ** The store invariant behind room capacity *)

Record DbInv (d : db) : Prop := mkDbInv {
  inv_versions : forall v, v ∈ GameVersion_rows d ->
    1 <= gv_minPlayers v <= gv_maxPlayers v;
  inv_room_ids : forall r, r ∈ Room_rows d -> r_id r <= Room_seq d;
  inv_room_nodup : NoDup (map r_id (Room_rows d));
  inv_member_ids : forall m, m ∈ RoomMember_rows d -> m_roomId m <= Room_seq d;
  inv_capacity : forall r, r ∈ Room_rows d ->
    exists v, find_version_by_id d (r_gameVersionFk r) = Some v /\
              Z.of_nat (length (members_of d (r_id r))) <= gv_maxPlayers v }.

Lemma DbInv_empty : DbInv empty_db.
Proof.
  split; cbn; try (intros ? Hin; by apply not_elem_of_nil in Hin).
  constructor.
Qed.

Lemma find_app_Some {A} (p : A -> bool) (l l' : list A) (x : A) :
  List.find p l = Some x -> List.find p (l ++ l') = Some x.
Proof.
  induction l as [|y l IH]; [discriminate|]. cbn [List.find app].
  destruct (p y); [done|]. exact IH.
Qed.

Lemma find_is_Some {A} (p : A -> bool) (l : list A) (x : A) :
  x ∈ l -> p x = true -> is_Some (List.find p l).
Proof.
  intros Hin Hp. destruct (List.find p l) eqn:Hf; [by eexists|].
  apply list_elem_of_In in Hin.
  pose proof (find_none p l Hf x Hin). congruence.
Qed.

Lemma NoDup_map_eq {A B} (f : A -> B) (l : list A) (x y : A) :
  NoDup (map f l) -> x ∈ l -> y ∈ l -> f x = f y -> x = y.
Proof.
  induction l as [|z l IH]; intros Hnd Hx Hy Hf.
  - by apply not_elem_of_nil in Hx.
  - cbn [map] in Hnd. apply NoDup_cons in Hnd as [Hz Hnd].
    apply elem_of_cons in Hx as [->|Hx]; apply elem_of_cons in Hy as [->|Hy].
    + done.
    + destruct Hz. rewrite Hf. apply elem_of_map. by exists y.
    + destruct Hz. rewrite <- Hf. apply elem_of_map. by exists x.
    + by apply IH.
Qed.

(** The invariant reads four columns of the store only. *)
Lemma DbInv_core d d' :
  GameVersion_rows d' = GameVersion_rows d ->
  Room_rows d' = Room_rows d ->
  Room_seq d' = Room_seq d ->
  RoomMember_rows d' = RoomMember_rows d ->
  DbInv d -> DbInv d'.
Proof.
  intros Hv Hr Hs Hm [I1 I2 I3 I4 I5].
  split; unfold find_version_by_id, members_of in *;
    rewrite ?Hv, ?Hr, ?Hs, ?Hm; assumption.
Qed.

(** Rows may be rewritten as long as each keeps its key and its version,
    rows may go, and members may go. *)
Lemma DbInv_shrink d d' :
  GameVersion_rows d' = GameVersion_rows d ->
  Room_seq d' = Room_seq d ->
  NoDup (map r_id (Room_rows d')) ->
  (forall r', r' ∈ Room_rows d' ->
     exists r, r ∈ Room_rows d /\ r_id r = r_id r' /\
               r_gameVersionFk r = r_gameVersionFk r') ->
  (forall m, m ∈ RoomMember_rows d' -> m ∈ RoomMember_rows d) ->
  (forall rid, (length (members_of d' rid) <= length (members_of d rid))%nat) ->
  DbInv d -> DbInv d'.
Proof.
  intros Hv Hs Hnd Hrows Hmem Hlen [I1 I2 I3 I4 I5]. split.
  - rewrite Hv. exact I1.
  - intros r' Hin. destruct (Hrows r' Hin) as (r & Hr & Hid & _).
    rewrite Hs, <- Hid. by apply I2.
  - exact Hnd.
  - intros m Hin. rewrite Hs. by apply I4, Hmem.
  - intros r' Hin. destruct (Hrows r' Hin) as (r & Hr & Hid & Hfk).
    destruct (I5 r Hr) as (v & Hfind & Hcap). exists v. split.
    + unfold find_version_by_id in *. by rewrite Hv, <- Hfk.
    + rewrite <- Hid. specialize (Hlen (r_id r)). lia.
Qed.

Lemma DbInv_map_rooms (f : Room -> Room) d d' :
  (forall r, r_id (f r) = r_id r) ->
  (forall r, r_gameVersionFk (f r) = r_gameVersionFk r) ->
  GameVersion_rows d' = GameVersion_rows d ->
  Room_seq d' = Room_seq d ->
  Room_rows d' = map f (Room_rows d) ->
  (forall m, m ∈ RoomMember_rows d' -> m ∈ RoomMember_rows d) ->
  (forall rid, (length (members_of d' rid) <= length (members_of d rid))%nat) ->
  DbInv d -> DbInv d'.
Proof.
  intros Hid Hfk Hv Hs Hr Hmem Hlen HI.
  apply (DbInv_shrink d d'); try done.
  - rewrite Hr, map_map. rewrite (map_ext _ r_id) by done. apply HI.
  - intros r'. rewrite Hr. intros Hin.
    apply elem_of_map in Hin as (r & -> & Hin). exists r. by rewrite Hid, Hfk.
Qed.

Lemma DbInv_MatchLog_create d rid g v s e reason win js :
  DbInv d -> DbInv (MatchLog_create d rid g v s e reason win js).1.
Proof. by apply DbInv_core. Qed.

Lemma DbInv_Review_upsert now d gid pid rating comment :
  DbInv d -> DbInv (Review_upsert now d gid pid rating comment).1.
Proof.
  unfold Review_upsert. destruct (_ || _); [done|].
  destruct (find_game_by_gameId d (Py.strip gid)) as [g|]; [|done].
  destruct (existsb _ _); by apply DbInv_core.
Qed.

Lemma DbInv_Game_create now d gid name descr dev :
  DbInv d -> DbInv (Game_create now d gid name descr dev).1.
Proof.
  unfold Game_create. destruct (_ || _); [done|].
  destruct (find_game_by_gameId d (Py.strip gid)) as [g|]; [done|].
  by apply DbInv_core.
Qed.

Lemma DbInv_Game_set_delisted now d gid flag dev :
  DbInv d -> DbInv (Game_set_delisted now d gid flag dev).1.
Proof.
  unfold Game_set_delisted. destruct (_ || _); [done|].
  destruct (find_game_by_gameId d (Py.strip gid)) as [g|]; [|done].
  destruct (decide _); [done|]. by apply DbInv_core.
Qed.

Lemma DbInv_Room_set_status now d rid st :
  DbInv d -> DbInv (Room_set_status now d rid st).1.
Proof.
  intros HI. unfold Room_set_status.
  destruct (_ || _); [done|]. cbn [fst].
  apply (DbInv_map_rooms
           (fun r => if decide (r_id r = rid)
                     then mkRoom (r_id r) (r_hostPlayerId r) (r_gameFk r)
                            (r_gameVersionFk r) (Py.strip st) (r_createdAt r) now
                     else r) d); try done.
  - intros r. by destruct (decide _).
  - intros r. by destruct (decide _).
Qed.

Lemma DbInv_Room_set_host now d rid h :
  DbInv d -> DbInv (Room_set_host now d rid h).1.
Proof.
  intros HI. unfold Room_set_host.
  destruct (_ || _); [done|]. cbn [fst].
  apply (DbInv_map_rooms
           (fun r => if decide (r_id r = rid)
                     then mkRoom (r_id r) h (r_gameFk r) (r_gameVersionFk r)
                            (r_status r) (r_createdAt r) now
                     else r) d); try done.
  - intros r. by destruct (decide _).
  - intros r. by destruct (decide _).
Qed.

Lemma touch_room_id now rid r : r_id (touch_room now rid r) = r_id r.
Proof. unfold touch_room. by destruct (decide _). Qed.

Lemma touch_room_version now rid r :
  r_gameVersionFk (touch_room now rid r) = r_gameVersionFk r.
Proof. unfold touch_room. by destruct (decide _). Qed.

Lemma DbInv_Room_remove_member now d rid pid :
  DbInv d -> DbInv (Room_remove_member now d rid pid).1.
Proof.
  intros HI. unfold Room_remove_member.
  destruct (_ || _); [done|]. cbn [fst].
  apply (DbInv_map_rooms (touch_room now rid) d); try done.
  - apply touch_room_id.
  - apply touch_room_version.
  - intros m. cbn [RoomMember_rows with_Rooms with_RoomMembers].
    intros Hin. by apply list_elem_of_filter in Hin as [_ Hin].
  - intros r. unfold members_of.
    cbn [RoomMember_rows with_Rooms with_RoomMembers].
    rewrite list_filter_filter.
    rewrite <- (list_filter_filter_l
                  (fun a => m_roomId a = r /\
                            ~ (m_roomId a = rid /\ m_playerId a = pid))
                  (fun a => m_roomId a = r)) by (by intros ? []).
    apply length_filter.
Qed.

Lemma DbInv_Room_delete_if_empty d rid :
  DbInv d -> DbInv (Room_delete_if_empty d rid).1.
Proof.
  intros HI. unfold Room_delete_if_empty.
  destruct (decide _); [done|]. destruct (decide _); [done|]. cbn [fst].
  apply (DbInv_shrink d); try done.
  - cbn [Room_rows with_Rooms].
    apply (sublist_NoDup _ (map r_id (Room_rows d))); [apply HI|].
    change (r_id <$> filter (fun r => r_id r <> rid) (Room_rows d)
            `sublist_of` r_id <$> Room_rows d).
    apply fmap_sublist, sublist_filter.
  - cbn [Room_rows with_Rooms]. intros r' Hin.
    apply list_elem_of_filter in Hin as [_ Hin]. by exists r'.
Qed.

Lemma members_of_fresh d rid :
  (forall m, m ∈ RoomMember_rows d -> m_roomId m <> rid) ->
  members_of d rid = [].
Proof.
  intros Hm. unfold members_of.
  induction (RoomMember_rows d) as [|m l IH]; [done|].
  rewrite filter_cons_False.
  - apply IH. intros m' Hin. apply Hm. by apply list_elem_of_further.
  - apply Hm, list_elem_of_here.
Qed.

Lemma is_member_fresh d rid pid :
  (forall m, m ∈ RoomMember_rows d -> m_roomId m <> rid) ->
  is_member d rid pid = false.
Proof.
  intros Hm. unfold is_member.
  destruct (existsb _ _) eqn:He; [|done].
  apply existsb_exists in He as (m & Hin & Hp).
  apply list_elem_of_In in Hin. apply andb_true_iff in Hp as [Hp _].
  apply bool_decide_eq_true in Hp. by destruct (Hm m Hin).
Qed.

(** A new room has its host as only member, so it is within the capacity
    of any version of the table. *)
Lemma DbInv_Room_create now d host g vid :
  DbInv d ->
  (exists v, v ∈ GameVersion_rows d /\ gv_id v = vid) ->
  DbInv (Room_create now d host g vid).1.
Proof.
  intros HI (v0 & Hv0 & Hvid). unfold Room_create.
  destruct (_ || _); [done|].
  set (rid := Room_seq d + 1).
  set (row := mkRoom rid host g vid "waiting" now now).
  set (d1 := with_Rooms (Room_rows d ++ [row]) rid d).
  assert (Hfresh : forall m, m ∈ RoomMember_rows d -> m_roomId m <> rid).
  { intros m Hin. pose proof (inv_member_ids d HI m Hin). subst rid. lia. }
  rewrite (is_member_fresh d1 rid host) by exact Hfresh. cbn [fst].
  destruct HI as [I1 I2 I3 I4 I5]. split.
  - exact I1.
  - cbn [Room_rows Room_seq with_Rooms with_RoomMembers d1].
    intros r Hin. apply elem_of_app in Hin as [Hin|Hin].
    + specialize (I2 r Hin). subst rid. lia.
    + apply list_elem_of_singleton in Hin as ->. cbn. lia.
  - cbn [Room_rows with_Rooms with_RoomMembers d1].
    rewrite map_app. apply NoDup_app. split; [exact I3|]. split.
    + intros x Hx Hx'. cbn in Hx'. apply list_elem_of_singleton in Hx' as ->.
      apply elem_of_map in Hx as (r & Hr & Hin). specialize (I2 r Hin).
      subst rid. lia.
    + cbn. apply NoDup_singleton.
  - cbn [RoomMember_rows Room_seq with_Rooms with_RoomMembers d1].
    intros m Hin. apply elem_of_app in Hin as [Hin|Hin].
    + specialize (I4 m Hin). subst rid. lia.
    + apply list_elem_of_singleton in Hin as ->. cbn. lia.
  - cbn [Room_rows with_Rooms with_RoomMembers d1].
    intros r Hin. unfold find_version_by_id, members_of.
    cbn [GameVersion_rows RoomMember_rows with_Rooms with_RoomMembers d1].
    rewrite filter_app.
    apply elem_of_app in Hin as [Hin|Hin].
    + destruct (I5 r Hin) as (v & Hfind & Hcap). exists v.
      split; [exact Hfind|].
      rewrite filter_cons_False, filter_nil, app_nil_r; [exact Hcap|].
      cbn. specialize (I2 r Hin). subst rid. lia.
    + apply list_elem_of_singleton in Hin as ->. cbn [r_id r_gameVersionFk row].
      destruct (find_is_Some (fun v => bool_decide (gv_id v = vid))
                  (GameVersion_rows d) v0 Hv0) as [v Hfind].
      { by apply bool_decide_eq_true. }
      exists v. split; [exact Hfind|].
      fold (members_of d rid). rewrite (members_of_fresh d rid Hfresh).
      rewrite filter_cons_True by reflexivity. rewrite filter_nil.
      cbn [app length].
      apply find_Some_elem in Hfind as [Hin _]. specialize (I1 v Hin). lia.
Qed.

(** A member added to a room that [Room.get] shows below its capacity
    keeps every room within its capacity. *)
Lemma DbInv_Room_add_member now d rid pid info :
  DbInv d ->
  Room_get d rid = OK info ->
  Z.of_nat (length (ri_players info)) < ri_maxPlayers info ->
  DbInv (Room_add_member now d rid pid).1.
Proof.
  intros HI Hget Hlt. unfold Room_add_member.
  destruct (_ || _); [done|]. cbn [fst].
  apply Room_get_OK in Hget as (Hpos & r0 & g0 & v0 & Hr0 & _ & Hv0 & ->).
  cbn [ri_players ri_maxPlayers] in Hlt. rewrite room_players_length in Hlt.
  apply find_room_by_id_Some in Hr0 as [Hin0 Hid0].
  destruct (is_member d rid pid).
  - apply (DbInv_map_rooms (touch_room now rid) d); try done.
    + apply touch_room_id.
    + apply touch_room_version.
  - destruct HI as [I1 I2 I3 I4 I5]. split.
    + exact I1.
    + cbn [Room_rows Room_seq with_Rooms with_RoomMembers].
      intros r' Hin. apply elem_of_map in Hin as (r & -> & Hin).
      rewrite touch_room_id. by apply I2.
    + cbn [Room_rows with_Rooms with_RoomMembers].
      rewrite map_map, (map_ext _ r_id); [exact I3|].
      intros r. apply touch_room_id.
    + cbn [RoomMember_rows Room_seq with_Rooms with_RoomMembers].
      intros m Hin. apply elem_of_app in Hin as [Hin|Hin]; [by apply I4|].
      apply list_elem_of_singleton in Hin as ->. cbn [m_roomId].
      rewrite <- Hid0. by apply I2.
    + cbn [Room_rows with_Rooms with_RoomMembers].
      intros r' Hin. apply elem_of_map in Hin as (r & -> & Hin).
      rewrite touch_room_id, touch_room_version.
      destruct (I5 r Hin) as (v & Hfind & Hcap). exists v.
      split; [exact Hfind|].
      unfold members_of. cbn [RoomMember_rows with_Rooms with_RoomMembers].
      rewrite filter_app, length_app. fold (members_of d (r_id r)).
      destruct (decide (r_id r = rid)) as [Hr|Hr].
      * assert (r = r0) as ->.
        { apply (NoDup_map_eq r_id (Room_rows d)); [done..|]. congruence. }
        rewrite Hv0 in Hfind. injection Hfind as <-.
        rewrite filter_cons_True by (cbn; congruence). cbn [length filter].
        rewrite Hr. rewrite filter_nil. cbn [length]. lia.
      * rewrite filter_cons_False by (cbn; congruence).
        rewrite filter_nil. cbn [length]. lia.
Qed.

Lemma DbInv_GameVersion_create now d g version f :
  DbInv d ->
  1 <= f_minPlayers f <= f_maxPlayers f ->
  DbInv (GameVersion_create now d g version f).1.
Proof.
  intros [I1 I2 I3 I4 I5] Hf. unfold GameVersion_create.
  destruct (_ || _); [done|]. destruct (version_taken _ _ _); [done|].
  cbn [fst]. split; try assumption.
  - cbn [GameVersion_rows with_Games with_GameVersions].
    intros v Hin. apply elem_of_app in Hin as [Hin|Hin]; [by apply I1|].
    apply list_elem_of_singleton in Hin as ->. exact Hf.
  - intros r Hin. destruct (I5 r Hin) as (v & Hfind & Hcap). exists v.
    split; [|exact Hcap]. unfold find_version_by_id in *.
    cbn [GameVersion_rows with_Games with_GameVersions].
    by apply find_app_Some.
Qed.

End StoreFacts.

(** * Properties of the lobby: leaving, host succession, reviews *)

Module LobbyFacts.
Import Lobby.

Lemma session_of_writer_Some w writer l sess :
  session_of_writer w writer = Some (l, sess) ->
  SESSIONS_BY_WRITER w !! writer = Some l /\ heap w !! l = Some sess.
Proof.
  unfold session_of_writer.
  destruct (SESSIONS_BY_WRITER w !! writer) as [l'|]; [|discriminate].
  destruct (heap w !! l') as [s|] eqn:Hh; [|discriminate].
  intros [= <- <-]. auto.
Qed.

(** [_handle_room_leave] of a session that is in no room does nothing. *)
Lemma _handle_room_leave_no_room now w l sess force :
  heap w !! l = Some sess -> room_id sess = None ->
  _handle_room_leave now w l force = w.
Proof. intros Hh Hr. unfold _handle_room_leave. by rewrite Hh, Hr. Qed.

(** The frames of a trace that are events of a given name. *)
Definition is_event (name : string) (cf : conn * frame) : bool :=
  match cf.2 with
  | Event_ n _ => bool_decide (n = name)
  | _ => false
  end.

Definition events_named (name : string) (tr : list (conn * frame)) :
    list (conn * frame) :=
  List.filter (is_event name) tr.

End LobbyFacts.

(** C10.  For a logged-in player whose session is in no room, [room_leave]
    replies [{ok: true, left: true}] and changes nothing else: the state
    after it is the state before it with that single frame written to the
    player's connection. *)
Theorem room_leave_without_room (now : Z) (w : Lobby.world) (writer : Lobby.conn)
    (l : Lobby.loc) (sess : Lobby.PlayerSession) :
  Lobby.session_of_writer w writer = Some (l, sess) ->
  Lobby.room_id sess = None ->
  Lobby.handle_room_leave now w writer
  = Lobby.with_sent (Lobby.sent w ++ [(writer, Ok_ [("left", JBool true)])]) w.
Proof.
  intros Hs Hr. unfold Lobby.handle_room_leave. rewrite Hs, Hr.
  apply LobbyFacts.session_of_writer_Some in Hs as [_ Hh].
  cbn [bool_decide]. 
  by rewrite (LobbyFacts._handle_room_leave_no_room now w l sess false Hh Hr).
Qed.

(** Player 5, logged in on connection 10 and in no room, leaves. *)
Lemma room_leave_without_room_witness :
  Lobby.handle_room_leave 1000 Demo.lobby3 10%nat
  = Lobby.with_sent (Lobby.sent Demo.lobby3 ++ [(10%nat, Ok_ [("left", JBool true)])])
      Demo.lobby3.
Proof.
  apply (room_leave_without_room 1000 Demo.lobby3 10%nat 0%nat
           (Lobby.mkPlayerSession 5 "eve" 10%nat None)).
  - vm_compute. reflexivity.
  - reflexivity.
Defined.

(** C6, the code at a failing input.  Player 5 opens a room, player 9 joins,
    then player 2.  When the host 5 leaves, the members left are 9 and 2 in
    the order they joined (the store's [ORDER BY joinedAt]), so the
    earliest-joined remaining member is 9; but the join handler has sorted
    the cached member list by player id, and the new host, in the cache, in
    the store and in the [host_changed] events sent to both remaining
    members, is player 2. *)
Lemma host_succession_failing_input :
  Store.room_players (Lobby.db Demo.host_left) 1 = [9; 2] /\
  Lobby.host_player_id <$> (Lobby.ROOMS Demo.host_left !! 1) = Some 2 /\
  Store.r_hostPlayerId <$> Store.find_room_by_id (Lobby.db Demo.host_left) 1 = Some 2 /\
  LobbyFacts.events_named "host_changed" (Lobby.sent Demo.host_left)
  = [(12%nat, Event_ "host_changed" [("roomId", JInt 1); ("hostPlayerId", JInt 2)]);
     (11%nat, Event_ "host_changed" [("roomId", JInt 1); ("hostPlayerId", JInt 2)])].
Proof.
  vm_compute. repeat split.
Qed.

(** C8, the code at a failing input.  Player 12 alone plays one match of
    [g1]; the only row of MatchLog names her as the only participant.
    Player 1 and player 3 never played.  The review of player 3 is refused
    with [not_played], but the review of player 1 is accepted and stored:
    the probe [resultsJson LIKE '%"userId": 1%'] matches the text
    ["userId": 12]. *)
Lemma review_without_playing_failing_input :
  map Store.ml_resultsJson (Store.MatchLog_rows (Lobby.db Demo.solo_played))
  = [Json.dumps (JObj [("players", JList [JObj [("userId", JInt 12)]]);
                       ("results", JList [])])] /\
  Store.MatchLog_has_player_played (Lobby.db Demo.solo_played) "g1" 1
  = Store.OK true /\
  last (Lobby.sent Demo.reviewed_by_1) = Some (21%nat, Ok_ []) /\
  map (fun r => (Store.rv_playerId r, Store.rv_rating r))
      (Store.Review_rows (Lobby.db Demo.reviewed_by_1)) = [(1, 5)] /\
  last (Lobby.sent Demo.reviewed_by_3) = Some (23%nat, Err_ "not_played" []) /\
  Store.Review_rows (Lobby.db Demo.reviewed_by_3) = [].
Proof.
  vm_compute. repeat split.
Qed.

(** * The end of a match *)

Module MatchFacts.
Import Lobby.

(** ** Who receives a pushed event *)

Definition receiver_in (by_player : gmap Z loc) (h : gmap loc PlayerSession)
    (u : Z) : option conn :=
  match by_player !! u with
  | Some l => writer <$> (h !! l)
  | None => None
  end.

Definition receivers_in (by_player : gmap Z loc) (h : gmap loc PlayerSession)
    (ps : list Z) : list conn :=
  omap (receiver_in by_player h) ps.

Definition receivers (w : world) (ps : list Z) : list conn :=
  receivers_in (SESSIONS_BY_PLAYER_ID w) (heap w) ps.

Definition pushed (name : string) (data : list (string * json))
    (cs : list conn) : list (conn * frame) :=
  map (fun c => (c, Event_ name data)) cs.

Lemma with_sent_same w : with_sent (sent w) w = w.
Proof. by destruct w. Qed.

Lemma with_ROOMS_same w : with_ROOMS (ROOMS w) w = w.
Proof. by destruct w. Qed.

Lemma _push_event_to_player_spec w u name data :
  _push_event_to_player w u name data
  = with_sent (sent w ++ pushed name data
                 (option_list (receiver_in (SESSIONS_BY_PLAYER_ID w) (heap w) u))) w.
Proof.
  unfold _push_event_to_player, receiver_in.
  destruct (SESSIONS_BY_PLAYER_ID w !! u) as [l|].
  - destruct (heap w !! l) as [sess|]; cbn [fmap option_fmap option_map option_list pushed map].
    + reflexivity.
    + by rewrite app_nil_r, with_sent_same.
  - cbn [option_list pushed map]. by rewrite app_nil_r, with_sent_same.
Qed.

Lemma push_each_spec w ps name data :
  push_each w ps name data
  = with_sent (sent w ++ pushed name data (receivers w ps)) w.
Proof.
  unfold push_each, receivers. revert w.
  induction ps as [|u ps IH]; intros w.
  - cbn [foldl receivers_in omap list_omap pushed map].
    by rewrite app_nil_r, with_sent_same.
  - cbn [foldl]. rewrite _push_event_to_player_spec, IH.
    cbn [with_sent sent SESSIONS_BY_PLAYER_ID heap].
    unfold with_sent. cbn [db files heap next_loc SESSIONS_BY_WRITER
      SESSIONS_BY_PLAYER_ID ROOMS procs sent].
    f_equal. rewrite <- app_assoc. f_equal.
    unfold receivers_in. cbn [omap list_omap].
    destruct (receiver_in _ _ u); cbn [option_list pushed map app]; reflexivity.
Qed.

(** ** [_ensure_room_live] *)

(** The cache entry made from the store's row. *)
Definition loaded (d : Store.db) (room_id : Z) (live : RoomLive) : Prop :=
  exists info,
    Store.Room_get d room_id = Store.OK info /\
    live = mkRoomLive (Store.ri_id info) (Store.ri_hostPlayerId info)
             (Store.ri_players info) (Store.ri_gameId info)
             (Store.ri_version info)
             (Py.or_int (Some (Store.ri_gameDbId info)) 0)
             (Py.or_int (Some (Store.ri_gameVersionId info)) 0)
             (Py.or_str (Some (Store.ri_status info)) "waiting")
             None None None.

Lemma _ensure_room_live_spec w r :
  exists R,
    _ensure_room_live w r = (with_ROOMS R w, R !! r) /\
    (forall k, k <> r -> R !! k = ROOMS w !! k) /\
    (forall live, R !! r = Some live ->
       ROOMS w !! r = Some live \/ (ROOMS w !! r = None /\ loaded (db w) r live)) /\
    (R !! r = None -> R = ROOMS w).
Proof.
  unfold _ensure_room_live.
  destruct (ROOMS w !! r) as [live|] eqn:Hr.
  - exists (ROOMS w). rewrite with_ROOMS_same, Hr. repeat split; auto; congruence.
  - destruct (Store.Room_get (db w) r) as [info|e] eqn:Hg.
    + eexists (<[r := _]> (ROOMS w)). rewrite lookup_insert_eq.
      split; [reflexivity|]. split; [|split].
      * intros k Hk. by rewrite lookup_insert_ne.
      * intros live [= <-]. right. split; [done|]. by exists info.
      * discriminate.
    + exists (ROOMS w). rewrite with_ROOMS_same, Hr. repeat split; auto; discriminate.
Qed.

Lemma _ensure_room_live_db w r : db (_ensure_room_live w r).1 = db w.
Proof.
  destruct (_ensure_room_live_spec w r) as (R & -> & _). reflexivity.
Qed.

Lemma stop_process_spec w live :
  exists p, stop_process w live = with_procs p w.
Proof.
  unfold stop_process. destruct (game_proc live) as [p|].
  - destruct (procs w !! p) as [[rc|]|]; eauto; exists (procs w); by destruct w.
  - exists (procs w). by destruct w.
Qed.

(** ** What the lobby's room bookkeeping does to the store

    Whatever holds of the store and is kept by the five writes below is
    kept by the end of a match, by a leave and by a disconnect. *)

Section db_closure.
Variable P : Store.db -> Prop.
Hypothesis P_log : forall d rid g v s e reason win js,
  P d -> P (Store.MatchLog_create d rid g v s e reason win js).1.
Hypothesis P_waiting : forall now d rid,
  P d -> P (Store.Room_set_status now d rid "waiting").1.
Hypothesis P_remove : forall now d rid pid,
  P d -> P (Store.Room_remove_member now d rid pid).1.
Hypothesis P_host : forall now d rid h,
  P d -> P (Store.Room_set_host now d rid h).1.
Hypothesis P_delete : forall d rid,
  P d -> P (Store.Room_delete_if_empty d rid).1.

Lemma _finish_match_db now w r res :
  P (db w) -> P (db (_finish_match now w r res)).
Proof.
  intros HP. unfold _finish_match.
  destruct (_ensure_room_live_spec w r) as (R & -> & _).
  destruct (R !! r) as [live|]; [|exact HP].
  destruct (_ && negb (result_truthy res)); [exact HP|].
  destruct (stop_process_spec (with_ROOMS R w) live) as [p ->].
  destruct (negb (bool_decide (status live = "playing")) && _ && _).
  - destruct res as [r0|]; [|exact HP].
    destruct (result_truthy (Some r0)); [|exact HP].
    cbn [db with_db with_procs with_ROOMS]. by apply P_log.
  - rewrite push_each_spec. cbn [db with_db with_procs with_ROOMS with_sent].
    apply P_waiting.
    destruct res as [r0|]; [|exact HP].
    destruct (result_truthy (Some r0)); [|exact HP].
    cbn [db with_db with_procs with_ROOMS]. by apply P_log.
Qed.

Lemma _watch_game_db now w r p rc :
  P (db w) -> P (db (_watch_game now w r p rc)).
Proof.
  intros HP. unfold _watch_game.
  set (w1 := match procs w !! p with
             | Some None => with_procs (<[p:=Some rc]> (procs w)) w
             | _ => w
             end).
  assert (Hw1 : db w1 = db w).
  { subst w1. by destruct (procs w !! p) as [[?|]|]. }
  destruct (_ensure_room_live_spec w1 r) as (R & -> & _).
  destruct (R !! r) as [live|]; [|by rewrite <- Hw1 in HP].
  destruct (negb _); [by rewrite <- Hw1 in HP|].
  apply _finish_match_db. cbn [db with_ROOMS]. by rewrite Hw1.
Qed.

Lemma _handle_room_leave_db now w l force :
  P (db w) -> P (db (_handle_room_leave now w l force)).
Proof.
  intros HP. unfold _handle_room_leave.
  destruct (heap w !! l) as [sess|]; [|exact HP].
  destruct (room_id sess) as [rid|]; [|exact HP].
  destruct (_ensure_room_live_spec w rid) as (R & -> & _).
  destruct (negb force && _); [exact HP|].
  cbn [db with_heap].
  destruct (R !! rid) as [live|].
  - set (ps := if bool_decide (player_id sess ∈ players live)
               then filter (fun u => u <> player_id sess) (players live)
               else players live).
    destruct ps as [|new_host ps'].
    + rewrite push_each_spec. cbn [db with_db with_ROOMS with_sent].
      apply P_delete. by apply P_remove.
    + rewrite push_each_spec. cbn [db with_db with_ROOMS with_sent].
      destruct (bool_decide _).
      * rewrite push_each_spec. cbn [db with_db with_ROOMS with_sent].
        apply P_host. by apply P_remove.
      * cbn [db with_db with_ROOMS with_sent]. by apply P_remove.
  - cbn [db with_db with_ROOMS]. by apply P_remove.
Qed.

Lemma handle_room_leave_db now w c :
  P (db w) -> P (db (handle_room_leave now w c)).
Proof.
  intros HP. unfold handle_room_leave.
  destruct (session_of_writer w c) as [[l sess]|]; [|exact HP].
  set (x := match room_id sess with
            | Some rid => if decide (rid = 0) then (w, None)
                          else _ensure_room_live w rid
            | None => (w, None)
            end).
  assert (Hx : db x.1 = db w).
  { subst x. destruct (room_id sess) as [rid|]; [|done].
    destruct (decide (rid = 0)); [done|]. apply _ensure_room_live_db. }
  destruct x as [w1 live]. cbn [fst] in Hx.
  destruct (match live with Some _ => _ | None => _ end).
  - cbn [db _send with_sent]. by rewrite Hx.
  - cbn [db _send with_sent]. apply _handle_room_leave_db. by rewrite Hx.
Qed.

Lemma _cleanup_connection_db now w c notify :
  P (db w) -> P (db (_cleanup_connection now w c notify)).
Proof.
  intros HP. unfold _cleanup_connection.
  destruct (SESSIONS_BY_WRITER w !! c) as [l|]; [|by destruct notify].
  cbn [heap]. destruct (heap w !! l) as [sess|]; [|exact HP].
  cbn [room_id].
  assert (Hgoal : forall w', P (db w') ->
            P (db (if notify then _send w' c (Ok_ [("loggedOut", JBool true)])
                   else w'))).
  { intros w' HP'. by destruct notify. }
  apply Hgoal.
  destruct (room_id sess) as [rid|]; [|exact HP].
  match goal with
  | |- context [_ensure_room_live ?w0 rid] =>
      destruct (_ensure_room_live_spec w0 rid) as (R & -> & _)
  end.
  apply _handle_room_leave_db.
  destruct (R !! rid) as [live|]; [|exact HP].
  destruct (bool_decide _); [|exact HP].
  apply _finish_match_db. exact HP.
Qed.

Lemma handle_post_result_db now w c data :
  P (db w) -> P (db (handle_post_result now w c data)).
Proof.
  intros HP. unfold handle_post_result.
  destruct (decide _); [exact HP|].
  cbn [db _send with_sent]. by apply _finish_match_db.
Qed.

End db_closure.

(** ** A room whose match is over *)



















(** ** Nothing that ends a match or empties a room reopens a closed room *)






(** ** The events that end a match *)














End MatchFacts.




(** * The platform as a whole: what every reachable state satisfies *)

Module SystemFacts.

Section WithEnv.
Context `{Env}.

(** ** Manifests *)

Lemma parse_manifest_valid obj m :
  Manifest.parse_manifest obj = inr m ->
  (Manifest.clientType m = "cli" \/ Manifest.clientType m = "gui") /\
  1 <= Manifest.minPlayers m <= Manifest.maxPlayers m /\
  Py.truthy (Manifest.gameId m) = true /\
  Py.truthy (Manifest.name m) = true /\
  Py.truthy (Manifest.version m) = true /\
  Py.truthy (Manifest.developer m) = true.
Proof.
  unfold Manifest.parse_manifest, Manifest.bind.
  destruct (Manifest.str_field obj "gameId") as [?|game_id]; [discriminate|].
  destruct (Manifest.str_field obj "name") as [?|name]; [discriminate|].
  destruct (Manifest.str_field obj "version") as [?|version]; [discriminate|].
  destruct (Manifest.str_field obj "developer") as [?|developer]; [discriminate|].
  destruct (Manifest.str_field obj "description") as [?|description]; [discriminate|].
  destruct (Manifest.str_field obj "clientType") as [?|client_type]; [discriminate|].
  destruct (Manifest.int_field obj "minPlayers") as [?|min_players]; [discriminate|].
  destruct (Manifest.int_field obj "maxPlayers") as [?|max_players]; [discriminate|].
  destruct (Manifest._require obj "entrypoints") as [?|entrypoints]; [discriminate|].
  destruct entrypoints as [| | | | |entrypoints]; try discriminate.
  destruct (Manifest._require entrypoints "server") as [?|srv]; [discriminate|].
  destruct (Manifest._require entrypoints "client") as [?|cli]; [discriminate|].
  destruct srv as [| | | | |srv]; try discriminate.
  destruct cli as [| | | | |cli]; try discriminate.
  destruct (Manifest.str_field srv "module") as [?|srv_module]; [discriminate|].
  destruct (Manifest.argv_field srv) as [?|srv_argv]; [discriminate|].
  destruct (Manifest.str_field cli "module") as [?|cli_module]; [discriminate|].
  destruct (Manifest.argv_field cli) as [?|cli_argv]; [discriminate|].
  destruct (negb (bool_decide (Py.lower client_type = "cli")
                  || bool_decide (Py.lower client_type = "gui"))) eqn:Hct;
    [discriminate|].
  destruct (bool_decide (min_players <= 0) || bool_decide (max_players <= 0)
            || bool_decide (min_players > max_players)) eqn:Hrange;
    [discriminate|].
  destruct (negb (Py.truthy game_id) || negb (Py.truthy name)
            || negb (Py.truthy version) || negb (Py.truthy developer)) eqn:Hid;
    [discriminate|].
  intros [= <-]. cbn [Manifest.clientType Manifest.minPlayers
    Manifest.maxPlayers Manifest.gameId Manifest.name Manifest.version
    Manifest.developer].
  apply negb_false_iff, orb_true_iff in Hct.
  apply orb_false_iff in Hrange as [Hrange H3].
  apply orb_false_iff in Hrange as [H1 H2].
  apply bool_decide_eq_false in H1, H2, H3.
  apply orb_false_iff in Hid as [Hid Hd].
  apply orb_false_iff in Hid as [Hid Hv].
  apply orb_false_iff in Hid as [Hg Hn].
  apply negb_false_iff in Hg, Hn, Hv, Hd.
  split; [|split; [lia|done]].
  destruct Hct as [Hc|Hc]; apply bool_decide_eq_true in Hc; auto.
Qed.

Lemma load_manifest_from_dir_valid f dir m raw :
  Manifest.load_manifest_from_dir f dir = inr (m, raw) ->
  exists obj, raw = JObj obj /\ Manifest.parse_manifest obj = inr m.
Proof.
  unfold Manifest.load_manifest_from_dir.
  destruct (f !! (dir ++ ["manifest.json"])) as [[text|]|]; try discriminate.
  destruct (json_loads text) as [v| |]; try discriminate.
  destruct v as [| | | | |obj]; try discriminate.
  destruct (Manifest.parse_manifest obj) as [[?|?]|m'] eqn:Hp; try discriminate.
  intros [= <- <-]. by exists obj.
Qed.

(** ** The developer service and the store *)

Section developer_closure.
Variable P : Store.db -> Prop.
Hypothesis P_game : forall now d gid name descr dev,
  P d -> P (Store.Game_create now d gid name descr dev).1.
Hypothesis P_delist : forall now d gid flag dev,
  P d -> P (Store.Game_set_delisted now d gid flag dev).1.
Hypothesis P_version : forall now d g version f,
  1 <= Store.f_minPlayers f <= Store.f_maxPlayers f ->
  P d -> P (Store.GameVersion_create now d g version f).1.

Lemma init_target_db now w rnd sess data gid d g b :
  P (Developer.db w) ->
  Developer.init_target now w rnd sess data gid = inr (d, g, b) ->
  P d.
Proof.
  intros HP. unfold Developer.init_target.
  destruct (negb (Py.truthy gid)).
  - destruct (_ || _); [discriminate|].
    destruct (Store.Game_create _ _ _ _ _ _) as [d' [id|e]] eqn:Hc;
      [|discriminate].
    intros [= <- _ _]. change d' with (d', @Store.OK Z id).1.
    rewrite <- Hc. by apply P_game.
  - destruct (Store.Game_get_by_gameId _ _) as [gdata|e].
    + destruct (decide _); [discriminate|]. by intros [= <- _ _].
    + destruct (negb (bool_decide (e = "not_found"))); [discriminate|].
      destruct (_ || _); [discriminate|].
      destruct (Store.Game_create _ _ _ _ _ _) as [d' [id|e']] eqn:Hc.
      * intros [= <- _ _]. change d' with (d', @Store.OK Z id).1.
        rewrite <- Hc. by apply P_game.
      * destruct (bool_decide _); [|discriminate].
        destruct (Store.Game_get_by_gameId d' gid) as [g2|]; [|discriminate].
        destruct (decide _); [|discriminate].
        intros [= <- _ _]. change d' with (d', @Store.ERR Z e').1.
        rewrite <- Hc. by apply P_game.
Qed.

Lemma handle_upload_init_db now rnd w c data :
  P (Developer.db w) ->
  P (Developer.db (Developer.handle_upload_init now rnd w c data).1).
Proof.
  intros HP. unfold Developer.handle_upload_init.
  destruct (Developer.SESSIONS w !! c) as [sess|]; [|exact HP].
  destruct (_ || _); [exact HP|].
  destruct (negb (Developer._VERSION_RE_fullmatch _)); [exact HP|].
  destruct (_ && _); [exact HP|].
  destruct (Developer.init_target _ _ _ _ _ _) as [?|[[d g] b]] eqn:Hi;
    [exact HP|].
  cbn [fst Developer.db]. by apply (init_target_db _ _ _ _ _ _ _ _ _ HP Hi).
Qed.

Lemma handle_upload_chunk_db w c data :
  Developer.db (Developer.handle_upload_chunk w c data).1 = Developer.db w.
Proof.
  unfold Developer.handle_upload_chunk.
  destruct (Developer.SESSIONS w !! c) as [sess|]; [|done].
  destruct (Developer.UPLOADS w !! _) as [up|]; [|done].
  destruct (decide _); [done|]. destruct (decide _); [done|].
  destruct (b64decode _) as [chunk|]; [|done].
  destruct (bool_decide _); [done|]. by destruct (decide _).
Qed.

Lemma handle_game_delist_db now w c gid flag :
  P (Developer.db w) ->
  P (Developer.db (Developer.handle_game_delist now w c gid flag).1).
Proof.
  intros HP. unfold Developer.handle_game_delist.
  destruct (Developer.SESSIONS w !! c) as [sess|]; [|exact HP].
  destruct (if flag && _ then _ else _); [exact HP|].
  destruct (Store.Game_set_delisted _ _ _ _ _) as [d [?|e]] eqn:Hd;
    [|exact HP].
  cbn [fst Developer.db Developer.with_db].
  change d with (d, @Store.OK unit data).1. rewrite <- Hd. by apply P_delist.
Qed.

Lemma handle_upload_finish_db now w c data :
  P (Developer.db w) ->
  P (Developer.db (Developer.handle_upload_finish now w c data).1).
Proof.
  intros HP. unfold Developer.handle_upload_finish.
  destruct (Developer.SESSIONS w !! c) as [sess|]; [|exact HP].
  destruct (Developer.UPLOADS w !! _) as [up|]; [|exact HP].
  destruct (decide _); [exact HP|]. destruct (decide _); [exact HP|].
  destruct (negb (bool_decide _)); [exact HP|].
  destruct (Developer.stage_package _ _) as [f3 [e|]]; [exact HP|].
  destruct (Manifest.load_manifest_from_dir _ _) as [?|[m raw]] eqn:Hm;
    [exact HP|].
  destruct (negb (bool_decide (Manifest.gameId m = _))); [exact HP|].
  destruct (negb (bool_decide (Manifest.version m = _))); [exact HP|].
  destruct (negb (Fs.exists_ f3 _)); [exact HP|].
  destruct (negb (Fs.exists_ f3 _)); [exact HP|].
  destruct (Store.Game_get_by_gameId _ _) as [gdata|]; [|exact HP].
  destruct (decide _); [exact HP|].
  destruct (Store.GameVersion_create _ _ _ _ _) as [d [gvid|e]] eqn:Hc;
    [|exact HP].
  cbn [fst Developer.db]. change d with (d, @Store.OK Z gvid).1.
  rewrite <- Hc. apply P_version; [|exact HP].
  cbn [Store.f_minPlayers Store.f_maxPlayers].
  apply load_manifest_from_dir_valid in Hm as (obj & _ & Hp).
  by apply parse_manifest_valid in Hp as (_ & Hr & _).
Qed.

End developer_closure.

(** ** The lobby and the store *)

Import Lobby.

Lemma last_send w c f : last (sent (_send w c f)) = Some (c, f).
Proof. cbn [_send with_sent sent]. apply last_snoc. Qed.

Lemma Room_get_within d rid info :
  StoreFacts.DbInv d ->
  Store.Room_get d rid = Store.OK info ->
  1 <= Store.ri_minPlayers info <= Store.ri_maxPlayers info /\
  Z.of_nat (length (Store.ri_players info)) <= Store.ri_maxPlayers info.
Proof.
  intros HI Hget.
  apply StoreFacts.Room_get_OK in Hget as (_ & r & g & v & Hr & _ & Hv & ->).
  cbn [Store.ri_minPlayers Store.ri_maxPlayers Store.ri_players].
  apply StoreFacts.find_room_by_id_Some in Hr as [Hin Hid].
  destruct (StoreFacts.inv_capacity d HI r Hin) as (v' & Hv' & Hcap).
  rewrite Hv in Hv'. injection Hv' as <-.
  apply StoreFacts.find_version_by_id_Some in Hv as [Hvin _].
  split; [by apply (StoreFacts.inv_versions d HI)|].
  rewrite StoreFacts.room_players_length, <- Hid. exact Hcap.
Qed.

Lemma newest_elem rows v : Store.newest rows = Some v -> v ∈ rows.
Proof.
  revert v. induction rows as [|x rows IH]; intros v; [discriminate|].
  cbn [Store.newest]. destruct (Store.newest rows) as [w0|].
  - destruct (Store.newer w0 x); intros [= <-].
    + by apply list_elem_of_further, IH.
    + apply list_elem_of_here.
  - intros [= <-]. apply list_elem_of_here.
Qed.

Lemma GameVersion_latest_elem d gid v :
  Store.GameVersion_latest_for_gameId d gid = Store.OK v ->
  v ∈ Store.GameVersion_rows d.
Proof.
  unfold Store.GameVersion_latest_for_gameId.
  destruct (negb _); [discriminate|].
  destruct (Store.find_game_by_gameId d _) as [g|]; [|discriminate].
  destruct (decide _); [discriminate|].
  destruct (Store.newest _) as [v'|] eqn:Hn; [|discriminate].
  intros [= <-]. apply newest_elem in Hn.
  by apply list_elem_of_filter in Hn as [_ Hn].
Qed.

Lemma DbInv_lobby_closure :
  let P := StoreFacts.DbInv in
  (forall d r g v s e reason win js,
      P d -> P (Store.MatchLog_create d r g v s e reason win js).1) /\
  (forall now d r, P d -> P (Store.Room_set_status now d r "waiting").1) /\
  (forall now d r pid, P d -> P (Store.Room_remove_member now d r pid).1) /\
  (forall now d r h, P d -> P (Store.Room_set_host now d r h).1) /\
  (forall d r, P d -> P (Store.Room_delete_if_empty d r).1).
Proof.
  cbv zeta. refine (conj _ (conj _ (conj _ (conj _ _)))); intros.
  - by apply StoreFacts.DbInv_MatchLog_create.
  - by apply StoreFacts.DbInv_Room_set_status.
  - by apply StoreFacts.DbInv_Room_remove_member.
  - by apply StoreFacts.DbInv_Room_set_host.
  - by apply StoreFacts.DbInv_Room_delete_if_empty.
Qed.

Lemma handle_player_login_db w c resp :
  db (handle_player_login w c resp) = db w.
Proof.
  unfold handle_player_login. destruct resp as [[pid uname]|e]; [|done].
  destruct (decide _); [done|].
  by destruct (SESSIONS_BY_PLAYER_ID w !! _).
Qed.

Lemma handle_room_create_inv now w c gid :
  StoreFacts.DbInv (db w) ->
  StoreFacts.DbInv (db (handle_room_create now w c gid)).
Proof.
  intros HI. unfold handle_room_create.
  destruct (session_of_writer w c) as [[l sess]|]; [|exact HI].
  destruct (room_id sess) as [rid0|]; [exact HI|].
  destruct (negb _); [exact HI|].
  destruct (Store.Game_get_by_gameId _ _) as [gdata|]; [|exact HI].
  destruct (decide _); [exact HI|].
  destruct (Store.GameVersion_latest_for_gameId _ _) as [v|] eqn:Hv; [|exact HI].
  destruct (Store.Room_create _ _ _ _ _) as [d [rid|e]] eqn:Hc; [|exact HI].
  assert (Hd : StoreFacts.DbInv d).
  { change d with (d, @Store.OK Z rid).1. rewrite <- Hc.
    apply StoreFacts.DbInv_Room_create; [exact HI|].
    exists v. split; [by apply GameVersion_latest_elem in Hv|].
    by rewrite PyFacts.or_int_Some_0. }
  destruct (MatchFacts._ensure_room_live_spec (with_db d w) (Py.or_int (Some rid) 0))
    as (R & -> & _).
  by destruct (R !! _).
Qed.

Lemma handle_room_join_inv now w c roomId :
  StoreFacts.DbInv (db w) ->
  StoreFacts.DbInv (db (handle_room_join now w c roomId)).
Proof.
  intros HI. unfold handle_room_join.
  destruct (session_of_writer w c) as [[l sess]|]; [|exact HI].
  destruct (room_id sess) as [rid0|]; [exact HI|].
  destruct (decide _); [exact HI|].
  destruct (MatchFacts._ensure_room_live_spec w (Py.or_int roomId 0)) as (R & -> & _).
  destruct (R !! _) as [live|]; [|exact HI].
  destruct (bool_decide _); [exact HI|].
  cbn [db with_ROOMS].
  destruct (Store.Room_get (db w) _) as [rd|] eqn:Hget; [|exact HI].
  destruct (bool_decide _); [exact HI|].
  destruct (decide _) as [|Hroom]; [exact HI|].
  destruct (Store.Room_add_member _ _ _ _) as [d [?|e]] eqn:Ha; [|exact HI].
  rewrite MatchFacts.push_each_spec.
  cbn [db _send with_db with_heap with_ROOMS with_sent].
  change d with (d, @Store.OK unit data).1. rewrite <- Ha.
  apply (StoreFacts.DbInv_Room_add_member _ _ _ _ rd HI Hget).
  destruct (Room_get_within _ _ _ HI Hget) as [Hrange _].
  rewrite PyFacts.or_int_Some_pos in Hroom by lia. lia.
Qed.

Lemma handle_review_upsert_inv now w c data :
  StoreFacts.DbInv (db w) ->
  StoreFacts.DbInv (db (handle_review_upsert now w c data)).
Proof.
  intros HI. unfold handle_review_upsert.
  destruct (session_of_writer w c) as [[l sess]|]; [|exact HI].
  destruct (negb _); [exact HI|].
  destruct (Store.MatchLog_has_player_played _ _ _) as [played|]; [|exact HI].
  destruct (negb _); [exact HI|].
  destruct (Store.Review_upsert _ _ _ _ _ _) as [d [?|e]] eqn:Hr; [|exact HI].
  cbn [db _send with_db with_sent].
  change d with (d, @Store.OK unit data0).1. rewrite <- Hr.
  by apply StoreFacts.DbInv_Review_upsert.
Qed.

(** ** [room_start]: refused, or started with enough members *)

(** What [room_start] did: the store [d2] is the one it checked the
    member count in (the store it found, or that store after the end
    of a match left over); then either it answered with an error and
    left [d2] as it was, or it marked the room [playing] in [d2]. *)
Definition started (now : Z) (c : conn) (d2 : Store.db) (res : world) : Prop :=
  exists rid info port live',
    Store.Room_get d2 rid = Store.OK info /\
    Py.or_int (Some (Store.ri_minPlayers info)) 2
      <= Z.of_nat (length (Store.ri_players info)) /\
    db res = (Store.Room_set_status now d2 rid "playing").1 /\
    last (sent res)
    = Some (c, Ok_ [("started", JBool true); ("port", JInt port)]) /\
    ROOMS res !! rid = Some live' /\
    status live' = "playing" /\
    players live' = Store.ri_players info.

Definition refused (c : conn) (d2 : Store.db) (res : world) : Prop :=
  exists e dd, last (sent res) = Some (c, Err_ e dd) /\ db res = d2.

Lemma handle_room_start_cases now env w c roomId :
  exists d2,
    (d2 = db w \/
     exists w1 rid r, db w1 = db w /\ d2 = db (_finish_match now w1 rid r)) /\
    (refused c d2 (handle_room_start now env w c roomId) \/
     started now c d2 (handle_room_start now env w c roomId)).
Proof.
  unfold handle_room_start.
  destruct (session_of_writer w c) as [[l sess]|].
  2:{ exists (db w). split; [by left|]. left. eexists _, _.
      split; [apply last_send|reflexivity]. }
  destruct (decide _).
  { exists (db w). split; [by left|]. left. eexists _, _.
    split; [apply last_send|reflexivity]. }
  destruct (MatchFacts._ensure_room_live_spec w
              (Py.or_int roomId (Py.or_int (room_id sess) 0)))
    as (R & -> & _).
  set (rid := Py.or_int roomId (Py.or_int (room_id sess) 0)) in *.
  destruct (R !! rid) as [live|].
  2:{ exists (db w). split; [by left|]. left. eexists _, _.
      split; [apply last_send|reflexivity]. }
  destruct (decide _).
  { exists (db w). split; [by left|]. left. eexists _, _.
    split; [apply last_send|reflexivity]. }
  set (w1 := with_ROOMS R w).
  match goal with
  | |- context [match ?s with Some _ => _ | None => _send w1 c _ end] =>
      generalize s
  end.
  intros [reason|].
  2:{ exists (db w). split; [by left|]. left. eexists _, _.
      split; [apply last_send|reflexivity]. }
  set (w2 := match reason with
             | Some r => _finish_match now w1 rid (Some (synthetic_result rid r))
             | None => w1
             end).
  exists (db w2). split.
  { subst w2. destruct reason as [r|]; [|by left].
    right. by exists w1, rid, (Some (synthetic_result rid r)). }
  clearbody w2.
  destruct (Store.Room_get (db w2) rid) as [room_row|] eqn:Hget.
  2:{ left. eexists _, _. split; [apply last_send|reflexivity]. }
  destruct (decide _) as [|Hmin].
  { left. eexists _, _. split; [apply last_send|reflexivity]. }
  destruct (Store.GameVersion_get_by_id _ _) as [v|].
  2:{ left. eexists _, _. split; [apply last_send|reflexivity]. }
  destruct (Manifest.load_manifest_from_dir _ _) as [err|[manifest raw]].
  { left. eexists _, _. split; [apply last_send|reflexivity]. }
  destruct (se_port env) as [e|port].
  { left. eexists _, _. split; [apply last_send|reflexivity]. }
  destruct (format_argv _ _) as [e|argv].
  { left. eexists _, _. split; [apply last_send|reflexivity]. }
  destruct (se_spawn env) as [e|p].
  { left. eexists _, _. split; [apply last_send|reflexivity]. }
  right. rewrite MatchFacts.push_each_spec.
  exists rid, room_row, port. eexists.
  split; [exact Hget|]. split; [lia|]. split; [reflexivity|].
  split; [apply last_send|].
  cbn [ROOMS _send with_sent with_db with_ROOMS with_procs with_files].
  split; [apply lookup_insert_eq|]. split; reflexivity.
Qed.

Lemma handle_room_start_inv now env w c roomId :
  StoreFacts.DbInv (db w) ->
  StoreFacts.DbInv (db (handle_room_start now env w c roomId)).
Proof.
  intros HI.
  destruct (handle_room_start_cases now env w c roomId)
    as (d2 & Hd2 & Hres).
  assert (HI2 : StoreFacts.DbInv d2).
  { destruct Hd2 as [->|(w1 & rid & r & Hw1 & ->)]; [exact HI|].
    destruct DbInv_lobby_closure as (H1 & H2 & _).
    apply (MatchFacts._finish_match_db _ H1 H2). by rewrite Hw1. }
  destruct Hres as [(e & dd & _ & ->)|(rid & info & port & live' & _ & _ & -> & _)];
    [exact HI2|].
  by apply StoreFacts.DbInv_Room_set_status.
Qed.


(** ** [room_join] at a room that is full, or by a member *)




(** ** Every request keeps the store invariant *)

Definition Inv (s : System.state) : Prop :=
  StoreFacts.DbInv (Lobby.db (System.lobby s)).

Lemma DbInv_developer_closure :
  let P := StoreFacts.DbInv in
  (forall now d gid name descr dev,
      P d -> P (Store.Game_create now d gid name descr dev).1) /\
  (forall now d gid flag dev,
      P d -> P (Store.Game_set_delisted now d gid flag dev).1) /\
  (forall now d g version f,
      1 <= Store.f_minPlayers f <= Store.f_maxPlayers f ->
      P d -> P (Store.GameVersion_create now d g version f).1).
Proof.
  cbv zeta. refine (conj _ (conj _ _)); intros.
  - by apply StoreFacts.DbInv_Game_create.
  - by apply StoreFacts.DbInv_Game_set_delisted.
  - by apply StoreFacts.DbInv_GameVersion_create.
Qed.

Lemma exec_Inv s r : Inv s -> Inv (System.exec s r).
Proof.
  unfold Inv. intros HI.
  destruct DbInv_lobby_closure as (L1 & L2 & L3 & L4 & L5).
  destruct DbInv_developer_closure as (D1 & D2 & D3).
  destruct r; cbn [System.exec System.with_developer System.with_lobby
                   System.lobby Lobby.db Lobby.with_db Lobby.with_files].
  - unfold Developer.handle_login. destruct resp as [[dev uname]|]; [|exact HI].
    destruct (decide _); [exact HI|].
    by destruct (Developer.ONLINE_DEVS _ !! _).
  - cbn [Developer.handle_logout fst]. unfold Developer.drop_session.
    by destruct (Developer.SESSIONS _ !! _).
  - unfold Developer.drop_session. by destruct (Developer.SESSIONS _ !! _).
  - by apply (handle_game_delist_db _ D2).
  - by apply (handle_upload_init_db _ D1).
  - by rewrite handle_upload_chunk_db.
  - by apply (handle_upload_finish_db _ D3).
  - by rewrite handle_player_login_db.
  - by apply (MatchFacts._cleanup_connection_db _ L1 L2 L3 L4 L5).
  - by apply (MatchFacts._cleanup_connection_db _ L1 L2 L3 L4 L5).
  - by apply handle_room_create_inv.
  - by apply handle_room_join_inv.
  - by apply (MatchFacts.handle_room_leave_db _ L3 L4 L5).
  - by apply handle_room_start_inv.
  - by apply (MatchFacts.handle_post_result_db _ L1 L2).
  - by apply (MatchFacts._watch_game_db _ L1 L2).
  - by apply handle_review_upsert_inv.
Qed.

Lemma reachable_Inv s : System.reachable s -> Inv s.
Proof.
  induction 1 as [|s r _ IH]; [apply StoreFacts.DbInv_empty|].
  by apply exec_Inv.
Qed.

Lemma reachable_run s rs :
  System.reachable s -> System.reachable (System.run s rs).
Proof.
  revert s. induction rs as [|r rs IH]; intros s Hs; [exact Hs|].
  apply IH. by constructor.
Qed.

End WithEnv.

End SystemFacts.



From Stdlib Require Import Sorting.Sorted.

(** * Further properties of the code *)

(** ** src/common/framing.py: a stream of frames *)

Module StreamFacts.
Import Framing.

(** [send_frame] once for each payload, in order, on one writer. *)
Fixpoint send_all (w : writer) (payloads : list (list byte)) : outcome writer :=
  match payloads with
  | [] => Returned w
  | b :: rest =>
      match send_frame w b with
      | Returned w' => send_all w' rest
      | Raised e => Raised e
      end
  end.

(** [recv_frame] [k] times on one reader: the payloads received, oldest
    first, while every call returns one. *)
Fixpoint recv_many (k : nat) (rd : reader) : option (list (list byte) * reader) :=
  match k with
  | O => Some ([], rd)
  | S k' =>
      match recv_frame rd with
      | Some (Returned (Some body), rd') =>
          match recv_many k' rd' with
          | Some (bodies, rd'') => Some (body :: bodies, rd'')
          | None => None
          end
      | _ => None
      end
  end.

Definition sendable (b : list byte) : Prop :=
  1 <= Z.of_nat (length b) <= 65536.

(** The bytes [send_all] writes: each payload behind its header. *)
Lemma send_all_spec (w : writer) (payloads : list (list byte)) :
  Forall sendable payloads ->
  exists hdrs,
    Forall2 (fun b hdr => HDR_pack (Z.of_nat (length b)) = Some hdr) payloads hdrs /\
    send_all w payloads
    = Returned (w ++ concat (zip_with (fun hdr b => hdr ++ b) hdrs payloads)).
Proof.
  intros Hall. revert w. induction Hall as [|b rest Hb _ IH]; intros w.
  - exists []. split; [constructor|]. cbn. by rewrite app_nil_r.
  - destruct (FramingFacts.send_frame_ok w b Hb) as (hdr & Hhdr & Hsend).
    destruct (IH ((w ++ hdr) ++ b)) as (hdrs & Hhdrs & Hrest).
    exists (hdr :: hdrs). split; [by constructor|].
    cbn [send_all]. rewrite Hsend, Hrest. cbn [zip_with concat].
    by rewrite <- !app_assoc.
Qed.

Lemma recv_many_spec (payloads hdrs : list (list byte)) (rd : reader)
    (tail : list byte) :
  Forall sendable payloads ->
  Forall2 (fun b hdr => HDR_pack (Z.of_nat (length b)) = Some hdr) payloads hdrs ->
  concat rd = concat (zip_with (fun hdr b => hdr ++ b) hdrs payloads) ++ tail ->
  exists rd', recv_many (length payloads) rd = Some (payloads, rd') /\
              concat rd' = tail.
Proof.
  intros Hall Hh. revert rd. induction Hh as [|b hdr rest hdrs Hhdr _ IH];
    intros rd Hrd.
  - exists rd. by split.
  - apply Forall_cons in Hall as [Hb Hall].
    cbn [zip_with concat] in Hrd. rewrite <- app_assoc in Hrd.
    destruct (FramingFacts.recv_frame_whole hdr b rd _ Hhdr Hb Hrd)
      as (rd1 & Hrecv & Hrd1).
    destruct (IH Hall rd1 Hrd1) as (rd2 & Hmany & Hrd2).
    exists rd2. split; [|exact Hrd2].
    cbn [length recv_many]. by rewrite Hrecv, Hmany.
Qed.

End StreamFacts.

(** X1.  [_read_exact(reader, n)] returns: when the stream still holds at
    least [n] bytes, however they are cut into segments, it returns exactly
    the next [n] bytes and leaves the rest of the stream unread; when the
    stream ends before [n] bytes, it returns [None]. *)
Theorem read_exact_spec (n : nat) (rd : Framing.reader) :
  ((n <= length (concat rd))%nat ->
   exists rd', Framing._read_exact n rd = Some (Some (take n (concat rd)), rd') /\
               concat rd' = drop n (concat rd)) /\
  ((length (concat rd) < n)%nat ->
   exists rd', Framing._read_exact n rd = Some (None, rd')).
Proof.
  split.
  - apply FramingFacts._read_exact_enough.
  - apply FramingFacts._read_exact_short.
Qed.

(** Five bytes wanted from a stream that brings [PK], [dem], [o] and from
    one that brings [PK] only. *)
Lemma read_exact_spec_witness :
  (exists rd', Framing._read_exact 5
                 [Demo.bytes_of "PK"; Demo.bytes_of "dem"; Demo.bytes_of "o"]
               = Some (Some (Demo.bytes_of "PKdem"), rd') /\
               concat rd' = Demo.bytes_of "o") /\
  (exists rd', Framing._read_exact 5 [Demo.bytes_of "PK"] = Some (None, rd')).
Proof.
  split.
  - apply (proj1 (read_exact_spec 5
                    [Demo.bytes_of "PK"; Demo.bytes_of "dem"; Demo.bytes_of "o"])).
    vm_compute. lia.
  - apply (proj2 (read_exact_spec 5 [Demo.bytes_of "PK"])). vm_compute. lia.
Defined.

(** X2.  Frames keep their boundaries.  When payloads of 1 to 65536 bytes
    are sent one after the other with [send_frame] on a fresh connection,
    and the bytes written arrive cut into segments in any way, then as many
    calls of [recv_frame] return the payloads, in the order sent, and the
    next call reports the end of the stream. *)
Theorem frames_in_order (payloads : list (list byte)) (rd : Framing.reader) :
  Forall StreamFacts.sendable payloads ->
  StreamFacts.send_all [] payloads = Returned (concat rd) ->
  exists rd' rd'',
    StreamFacts.recv_many (length payloads) rd = Some (payloads, rd') /\
    Framing.recv_frame rd' = Some (Returned None, rd'').
Proof.
  intros Hall Hsent.
  destruct (StreamFacts.send_all_spec [] payloads Hall) as (hdrs & Hh & Hs).
  rewrite Hs in Hsent. injection Hsent as Hrd. cbn [app] in Hrd.
  destruct (StreamFacts.recv_many_spec payloads hdrs rd [] Hall Hh) as (rd' & Hm & Ht).
  { by rewrite app_nil_r. }
  destruct (FramingFacts.recv_frame_short_header rd') as (rd'' & Hend).
  { rewrite Ht. cbn. unfold Framing.HDR_size. lia. }
  by exists rd', rd''.
Qed.

(** Two payloads, [ab] and [c], whose eleven bytes arrive as 3 + 8. *)
Lemma frames_in_order_witness :
  exists rd' rd'',
    StreamFacts.recv_many 2
      [[Byte.x00; Byte.x00; Byte.x00];
       [Byte.x02; Byte.x61; Byte.x62; Byte.x00; Byte.x00; Byte.x00; Byte.x01; Byte.x63]]
    = Some ([[Byte.x61; Byte.x62]; [Byte.x63]], rd') /\
    Framing.recv_frame rd' = Some (Returned None, rd'').
Proof.
  apply (frames_in_order [[Byte.x61; Byte.x62]; [Byte.x63]]
           [[Byte.x00; Byte.x00; Byte.x00];
            [Byte.x02; Byte.x61; Byte.x62; Byte.x00; Byte.x00; Byte.x00; Byte.x01;
             Byte.x63]]).
  - repeat constructor; vm_compute; discriminate.
  - vm_compute. reflexivity.
Defined.

(** ** src/server/developer_server.py: game ids made for the developer *)

Module SlugFacts.
Import Developer.

Definition slug_char (c : ascii) : bool :=
  is_lower c || is_digit c || bool_decide (c = "_"%char).

Definition all_chars (class : ascii -> bool) (s : string) : bool :=
  forallb class (list_ascii_of_string s).

Lemma slug_char_game_id c : slug_char c = true -> game_id_char c = true.
Proof.
  unfold slug_char, game_id_char.
  destruct (is_upper c), (is_lower c), (is_digit c), (bool_decide (c = "_"%char));
    cbn; congruence.
Qed.

Lemma slug_sub_chars in_run s : all_chars slug_char (slug_sub in_run s) = true.
Proof.
  unfold all_chars. revert in_run. induction s as [|c s IH]; intros in_run; [done|].
  cbn [slug_sub]. destruct (is_lower c || is_digit c) eqn:Hc.
  - cbn [list_ascii_of_string forallb]. rewrite IH. unfold slug_char.
    by rewrite Hc.
  - destruct in_run; [apply IH|]. cbn [list_ascii_of_string forallb].
    by rewrite IH.
Qed.

Lemma lstrip_underscore_chars class s :
  all_chars class s = true -> all_chars class (lstrip_underscore s) = true.
Proof.
  unfold all_chars. induction s as [|c s IH]; [done|]. cbn [lstrip_underscore].
  destruct (bool_decide _); [|done].
  cbn [list_ascii_of_string forallb]. intros [_ Hs]%andb_true_iff. by apply IH.
Qed.

Lemma forallb_rev {A} (p : A -> bool) (l : list A) :
  forallb p (List.rev l) = forallb p l.
Proof.
  induction l as [|x l IH]; [done|]. cbn [List.rev forallb].
  rewrite forallb_app, IH. cbn [forallb]. destruct (p x), (forallb p l); done.
Qed.

Lemma rev_chars class s : all_chars class (Py.rev s) = all_chars class s.
Proof.
  unfold all_chars, Py.rev.
  by rewrite list_ascii_of_string_of_list_ascii, forallb_rev.
Qed.

Lemma strip_underscore_chars class s :
  all_chars class s = true -> all_chars class (strip_underscore s) = true.
Proof.
  intros Hs. unfold strip_underscore.
  rewrite rev_chars. apply lstrip_underscore_chars.
  rewrite rev_chars. by apply lstrip_underscore_chars.
Qed.

Lemma substring_chars class n s :
  all_chars class s = true -> all_chars class (substring 0 n s) = true.
Proof.
  unfold all_chars. revert s. induction n as [|n IH]; intros [|c s]; try done.
  cbn [substring list_ascii_of_string forallb].
  intros [Hc Hs]%andb_true_iff. by rewrite Hc, IH.
Qed.

Lemma substring_length n s :
  String.length (substring 0 n s) = Nat.min n (String.length s).
Proof.
  revert s. induction n as [|n IH]; intros [|c s]; try done.
  cbn [substring String.length Nat.min]. by rewrite IH.
Qed.

Lemma all_chars_impl (p q : ascii -> bool) s :
  (forall c, p c = true -> q c = true) ->
  all_chars p s = true -> all_chars q s = true.
Proof.
  unfold all_chars. intros Hpq. induction (list_ascii_of_string s) as [|c l IH];
    [done|]. cbn [forallb]. intros [Hc Hl]%andb_true_iff.
  by rewrite (Hpq c Hc), IH.
Qed.


End SlugFacts.

(** X3.  [_slugify] gives either the empty string or a string of 1 to 32
    characters, all of them lower-case letters, digits or underscores; in
    the second case it passes the pattern of game ids, [_GAME_ID_RE]. *)
Theorem slugify_is_game_id (name : string) :
  Developer._slugify name = EmptyString \/
  ((1 <= String.length (Developer._slugify name) <= 32)%nat /\
   SlugFacts.all_chars SlugFacts.slug_char (Developer._slugify name) = true /\
   Developer._GAME_ID_RE_fullmatch (Developer._slugify name) = true).
Proof.
  unfold Developer._slugify.
  pose proof (SlugFacts.strip_underscore_chars SlugFacts.slug_char _
                (SlugFacts.slug_sub_chars false (Py.lower (Py.strip name)))) as Hs.
  destruct (Developer.strip_underscore _) as [|c s]; [by left|].
  right. cbn [Py.truthy].
  assert (Hlen : (1 <= String.length (substring 0 32 (String c s)) <= 32)%nat).
  { rewrite SlugFacts.substring_length. cbn [String.length]. lia. }
  assert (Hch : SlugFacts.all_chars SlugFacts.slug_char
                  (substring 0 32 (String c s)) = true)
    by by apply SlugFacts.substring_chars.
  split; [exact Hlen|]. split; [exact Hch|].
  unfold Developer._GAME_ID_RE_fullmatch, Developer.fullmatch.
  rewrite bool_decide_eq_true_2 by lia.
  apply (SlugFacts.all_chars_impl _ _ _ SlugFacts.slug_char_game_id Hch).
Qed.



(** ** What every request keeps: a store property kept by each write *)

Module PlatformFacts.

(** The columns of a version that come from a parsed manifest. *)
Definition valid_fields (f : Store.GameVersion_fields) : Prop :=
  1 <= Store.f_minPlayers f <= Store.f_maxPlayers f /\
  (Store.f_clientType f = "cli" \/ Store.f_clientType f = "gui").

Section WithEnv.
Context `{Env}.

Lemma Game_get_elem d gid g :
  Store.Game_get_by_gameId d gid = Store.OK g -> g ∈ Store.Game_rows d.
Proof.
  unfold Store.Game_get_by_gameId. destruct (negb _); [discriminate|].
  destruct (Store.find_game_by_gameId d _) as [g'|] eqn:Hf; [|discriminate].
  intros [= <-]. by apply StoreFacts.find_Some_elem in Hf as [Hin _].
Qed.

(** The latest version of a game id is a version of the game that
    [get_by_gameId] shows. *)
Lemma latest_of_game d gid g v :
  Store.Game_get_by_gameId d gid = Store.OK g ->
  Store.GameVersion_latest_for_gameId d gid = Store.OK v ->
  Store.gv_gameFk v = Store.g_id g.
Proof.
  unfold Store.Game_get_by_gameId, Store.GameVersion_latest_for_gameId.
  destruct (negb _); [discriminate|].
  destruct (Store.find_game_by_gameId d _) as [g'|]; [|discriminate].
  intros [= <-]. destruct (decide _); [discriminate|].
  destruct (Store.newest _) as [v'|] eqn:Hn; [|discriminate].
  intros [= <-]. apply SystemFacts.newest_elem in Hn.
  by apply list_elem_of_filter in Hn as [Hfk _].
Qed.

Section closure.
Variable P : Store.db -> Prop.
Hypothesis P_game : forall now d gid name descr dev,
  P d -> P (Store.Game_create now d gid name descr dev).1.
Hypothesis P_delist : forall now d gid flag dev,
  P d -> P (Store.Game_set_delisted now d gid flag dev).1.
Hypothesis P_version : forall now d g version f,
  valid_fields f ->
  (exists row, row ∈ Store.Game_rows d /\ Store.g_id row = g) ->
  P d -> P (Store.GameVersion_create now d g version f).1.
Hypothesis P_review : forall now d gid pid rating comment,
  Store.MatchLog_has_player_played d (Py.strip gid) pid = Store.OK true ->
  P d -> P (Store.Review_upsert now d gid pid rating comment).1.
Hypothesis P_room : forall now d host g v,
  (exists row, row ∈ Store.Game_rows d /\ Store.g_id row = g) ->
  (exists row, row ∈ Store.GameVersion_rows d /\ Store.gv_id row = v /\
               Store.gv_gameFk row = g) ->
  P d -> P (Store.Room_create now d host g v).1.
Hypothesis P_add : forall now d rid pid,
  P d -> P (Store.Room_add_member now d rid pid).1.
Hypothesis P_remove : forall now d rid pid,
  P d -> P (Store.Room_remove_member now d rid pid).1.
Hypothesis P_status : forall now d rid st,
  P d -> P (Store.Room_set_status now d rid st).1.
Hypothesis P_host : forall now d rid h,
  P d -> P (Store.Room_set_host now d rid h).1.
Hypothesis P_delete : forall d rid,
  P d -> P (Store.Room_delete_if_empty d rid).1.
Hypothesis P_log : forall d rid g v s e reason win js,
  P d -> P (Store.MatchLog_create d rid g v s e reason win js).1.

Lemma upload_finish_keeps now w c data :
  P (Developer.db w) ->
  P (Developer.db (Developer.handle_upload_finish now w c data).1).
Proof.
  intros HP. unfold Developer.handle_upload_finish.
  destruct (Developer.SESSIONS w !! c) as [sess|]; [|exact HP].
  destruct (Developer.UPLOADS w !! _) as [up|]; [|exact HP].
  destruct (decide _); [exact HP|]. destruct (decide _); [exact HP|].
  destruct (negb (bool_decide _)); [exact HP|].
  destruct (Developer.stage_package _ _) as [f3 [e|]]; [exact HP|].
  destruct (Manifest.load_manifest_from_dir _ _) as [?|[m raw]] eqn:Hm;
    [exact HP|].
  destruct (negb (bool_decide (Manifest.gameId m = _))); [exact HP|].
  destruct (negb (bool_decide (Manifest.version m = _))); [exact HP|].
  destruct (negb (Fs.exists_ f3 _)); [exact HP|].
  destruct (negb (Fs.exists_ f3 _)); [exact HP|].
  destruct (Store.Game_get_by_gameId _ _) as [gdata|] eqn:Hg; [|exact HP].
  destruct (decide _); [exact HP|].
  destruct (Store.GameVersion_create _ _ _ _ _) as [d [gvid|e]] eqn:Hc;
    [|exact HP].
  cbn [fst Developer.db]. change d with (d, @Store.OK Z gvid).1.
  rewrite <- Hc. apply P_version; [| |exact HP].
  - apply SystemFacts.load_manifest_from_dir_valid in Hm as (obj & _ & Hp).
    apply SystemFacts.parse_manifest_valid in Hp as (Hct & Hr & _).
    by split.
  - exists gdata. split; [|reflexivity]. by apply Game_get_elem in Hg.
Qed.

Lemma room_create_keeps now w c gid :
  P (Lobby.db w) -> P (Lobby.db (Lobby.handle_room_create now w c gid)).
Proof.
  intros HP. unfold Lobby.handle_room_create.
  destruct (Lobby.session_of_writer w c) as [[l sess]|]; [|exact HP].
  destruct (Lobby.room_id sess) as [rid0|]; [exact HP|].
  destruct (negb _); [exact HP|].
  destruct (Store.Game_get_by_gameId _ _) as [gdata|] eqn:Hg; [|exact HP].
  destruct (decide _); [exact HP|].
  destruct (Store.GameVersion_latest_for_gameId _ _) as [v|] eqn:Hv; [|exact HP].
  destruct (Store.Room_create _ _ _ _ _) as [d [rid|e]] eqn:Hc; [|exact HP].
  assert (Hd : P d).
  { change d with (d, @Store.OK Z rid).1. rewrite <- Hc.
    rewrite !PyFacts.or_int_Some_0. apply P_room; [| |exact HP].
    - exists gdata. split; [|reflexivity]. by apply Game_get_elem in Hg.
    - exists v. split; [by apply SystemFacts.GameVersion_latest_elem in Hv|].
      split; [reflexivity|]. by apply (latest_of_game _ _ _ _ Hg Hv). }
  destruct (MatchFacts._ensure_room_live_spec (Lobby.with_db d w)
              (Py.or_int (Some rid) 0)) as (R & -> & _).
  by destruct (R !! _).
Qed.

Lemma room_join_keeps now w c roomId :
  P (Lobby.db w) -> P (Lobby.db (Lobby.handle_room_join now w c roomId)).
Proof.
  intros HP. unfold Lobby.handle_room_join.
  destruct (Lobby.session_of_writer w c) as [[l sess]|]; [|exact HP].
  destruct (Lobby.room_id sess) as [rid0|]; [exact HP|].
  destruct (decide _); [exact HP|].
  destruct (MatchFacts._ensure_room_live_spec w (Py.or_int roomId 0))
    as (R & -> & _).
  destruct (R !! _) as [live|]; [|exact HP].
  destruct (bool_decide _); [exact HP|].
  cbn [Lobby.db Lobby.with_ROOMS].
  destruct (Store.Room_get (Lobby.db w) _) as [rd|]; [|exact HP].
  destruct (bool_decide _); [exact HP|].
  destruct (decide _); [exact HP|].
  destruct (Store.Room_add_member _ _ _ _) as [d [?|e]] eqn:Ha; [|exact HP].
  rewrite MatchFacts.push_each_spec.
  cbn [Lobby.db Lobby._send Lobby.with_db Lobby.with_heap Lobby.with_ROOMS
         Lobby.with_sent].
  change d with (d, @Store.OK unit data).1. rewrite <- Ha. by apply P_add.
Qed.

Lemma room_start_keeps now env w c roomId :
  P (Lobby.db w) -> P (Lobby.db (Lobby.handle_room_start now env w c roomId)).
Proof.
  intros HP.
  destruct (SystemFacts.handle_room_start_cases now env w c roomId)
    as (d2 & Hd2 & Hres).
  assert (HP2 : P d2).
  { destruct Hd2 as [->|(w1 & rid & r & Hw1 & ->)]; [exact HP|].
    apply (MatchFacts._finish_match_db _ P_log
             (fun now d rid => P_status now d rid "waiting")).
    by rewrite Hw1. }
  destruct Hres as [(e & dd & _ & ->)
                   |(rid & info & port & live' & _ & _ & -> & _)];
    [exact HP2|].
  by apply P_status.
Qed.

Lemma review_upsert_keeps now w c data :
  P (Lobby.db w) -> P (Lobby.db (Lobby.handle_review_upsert now w c data)).
Proof.
  intros HP. unfold Lobby.handle_review_upsert.
  destruct (Lobby.session_of_writer w c) as [[l sess]|]; [|exact HP].
  destruct (negb _); [exact HP|].
  destruct (Store.MatchLog_has_player_played _ _ _) as [played|] eqn:Hp;
    [|exact HP].
  destruct played; [|exact HP]. cbn [negb].
  destruct (Store.Review_upsert _ _ _ _ _ _) as [d [?|e]] eqn:Hr; [|exact HP].
  cbn [Lobby.db Lobby._send Lobby.with_db Lobby.with_sent].
  change d with (d, @Store.OK unit data0).1. rewrite <- Hr.
  by apply P_review.
Qed.

Lemma exec_keeps s r :
  P (Lobby.db (System.lobby s)) ->
  P (Lobby.db (System.lobby (System.exec s r))).
Proof.
  intros HP.
  pose proof (fun now d rid => P_status now d rid "waiting") as P_waiting.
  destruct r; cbn [System.exec System.with_developer System.with_lobby
                   System.lobby Lobby.db Lobby.with_db Lobby.with_files].
  - unfold Developer.handle_login. destruct resp as [[dev uname]|]; [|exact HP].
    destruct (decide _); [exact HP|].
    by destruct (Developer.ONLINE_DEVS _ !! _).
  - cbn [Developer.handle_logout fst]. unfold Developer.drop_session.
    by destruct (Developer.SESSIONS _ !! _).
  - unfold Developer.drop_session. by destruct (Developer.SESSIONS _ !! _).
  - by apply (SystemFacts.handle_game_delist_db _ P_delist).
  - by apply (SystemFacts.handle_upload_init_db _ P_game).
  - by rewrite SystemFacts.handle_upload_chunk_db.
  - by apply upload_finish_keeps.
  - by rewrite SystemFacts.handle_player_login_db.
  - by apply (MatchFacts._cleanup_connection_db _ P_log P_waiting P_remove
                P_host P_delete).
  - by apply (MatchFacts._cleanup_connection_db _ P_log P_waiting P_remove
                P_host P_delete).
  - by apply room_create_keeps.
  - by apply room_join_keeps.
  - by apply (MatchFacts.handle_room_leave_db _ P_remove P_host P_delete).
  - by apply room_start_keeps.
  - by apply (MatchFacts.handle_post_result_db _ P_log P_waiting).
  - by apply (MatchFacts._watch_game_db _ P_log P_waiting).
  - by apply review_upsert_keeps.
Qed.

Lemma run_keeps rs s :
  P (Lobby.db (System.lobby s)) ->
  P (Lobby.db (System.lobby (System.run s rs))).
Proof.
  revert s. induction rs as [|r rs IH]; intros s HP; [exact HP|].
  apply IH. by apply exec_keeps.
Qed.

Lemma reachable_keeps s :
  P Store.empty_db -> System.reachable s -> P (Lobby.db (System.lobby s)).
Proof.
  intros H0. induction 1 as [|s r _ IH]; [exact H0|]. by apply exec_keeps.
Qed.

End closure.

End WithEnv.

End PlatformFacts.

(** ** src/server/db_server.py: what the tables always satisfy *)

Module TableFacts.
Import Store.

(** Unfolds a write of the store and follows each of its guards. *)
Ltac write_cases :=
  unfold Game_create, Game_set_delisted, GameVersion_create, Review_upsert,
    Room_create, Room_add_member, Room_remove_member, Room_set_status,
    Room_set_host, Room_delete_if_empty, MatchLog_create;
  repeat match goal with
         | |- context [if ?b then _ else _] => destruct b
         | |- context [match ?x with Some _ => _ | None => _ end] => destruct x
         end.

(** *** Reviews *)

Definition review_key (r : Review) : Z * Z := (rv_gameFk r, rv_playerId r).

(** The probe of [has_player_played] finds the reviewer in a logged match
    of the game. *)
Definition probed (logs : list MatchLog) (r : Review) : Prop :=
  exists ml, ml ∈ logs /\ ml_gameFk ml = rv_gameFk r /\
             like_contains (userId_marker (rv_playerId r)) (ml_resultsJson ml) = true.

Record reviews_ok (d : db) : Prop := mkReviewsOk {
  rv_ratings : forall r, r ∈ Review_rows d -> 1 <= rv_rating r <= 5;
  rv_players : forall r, r ∈ Review_rows d -> 0 < rv_playerId r;
  rv_unique : NoDup (map review_key (Review_rows d));
  rv_probed : forall r, r ∈ Review_rows d -> probed (MatchLog_rows d) r }.

Lemma reviews_ok_frame d d' :
  Review_rows d' = Review_rows d ->
  (forall ml, ml ∈ MatchLog_rows d -> ml ∈ MatchLog_rows d') ->
  reviews_ok d -> reviews_ok d'.
Proof.
  intros Hr Hl [I1 I2 I3 I4]. split; rewrite Hr; try assumption.
  intros r Hin. destruct (I4 r Hin) as (ml & Hml & Hg & Hp).
  exists ml. split; [by apply Hl|done].
Qed.

Lemma has_played_probed d gid pid :
  MatchLog_has_player_played d gid pid = OK true ->
  0 < pid /\
  exists g, find_game_by_gameId d (Py.strip gid) = Some g /\
    exists ml, ml ∈ MatchLog_rows d /\ ml_gameFk ml = g_id g /\
               like_contains (userId_marker pid) (ml_resultsJson ml) = true.
Proof.
  unfold MatchLog_has_player_played.
  destruct (negb _ || bool_decide (pid <= 0)) eqn:Hg; [discriminate|].
  apply orb_false_iff in Hg as [_ Hpid]. apply bool_decide_eq_false in Hpid.
  destruct (find_game_by_gameId d (Py.strip gid)) as [g|]; [|discriminate].
  intros [= He]. split; [lia|]. exists g. split; [done|].
  apply existsb_exists in He as (ml & Hin & Hml).
  apply andb_true_iff in Hml as [Hfk Hlike]. apply bool_decide_eq_true in Hfk.
  exists ml. by rewrite list_elem_of_In.
Qed.

(** [str.strip()] twice is [str.strip()] once. *)
Definition starts_clean (s : string) : Prop :=
  match s with String c _ => Py.is_space c = false | EmptyString => True end.

Lemma lstrip_clean s : starts_clean s -> Py.lstrip s = s.
Proof. destruct s as [|c s]; [done|]. cbn. by intros ->. Qed.

Lemma starts_clean_lstrip s : starts_clean (Py.lstrip s).
Proof.
  induction s as [|c s IH]; [done|]. cbn [Py.lstrip].
  destruct (Py.is_space c) eqn:Hc; [exact IH|exact Hc].
Qed.

Lemma lstrip_snoc c l :
  Py.is_space c = false ->
  exists l1, Py.lstrip (string_of_list_ascii (l ++ [c]))
             = string_of_list_ascii (l1 ++ [c]).
Proof.
  intros Hc. induction l as [|x l IH].
  - exists []. cbn. by rewrite Hc.
  - cbn [app string_of_list_ascii Py.lstrip].
    destruct (Py.is_space x); [exact IH|]. by exists (x :: l).
Qed.

Lemma ends_clean_lstrip x :
  starts_clean (Py.rev x) -> starts_clean (Py.rev (Py.lstrip x)).
Proof.
  rewrite <- (string_of_list_ascii_of_string x).
  generalize (list_ascii_of_string x). clear x. intros L.
  destruct L as [|c r _] using rev_ind; [done|].
  unfold Py.rev at 1. rewrite list_ascii_of_string_of_list_ascii, rev_app_distr.
  cbn [List.rev app string_of_list_ascii starts_clean]. intros Hc.
  destruct (lstrip_snoc c r Hc) as [l1 ->].
  unfold Py.rev. rewrite list_ascii_of_string_of_list_ascii, rev_app_distr.
  exact Hc.
Qed.

Lemma strip_strip (s : string) : Py.strip (Py.strip s) = Py.strip s.
Proof.
  unfold Py.strip.
  set (a := Py.lstrip (Py.rev (Py.lstrip s))).
  assert (Ha : starts_clean a) by apply starts_clean_lstrip.
  assert (Hb : starts_clean (Py.rev a)).
  { apply ends_clean_lstrip. rewrite PyFacts.rev_rev. apply starts_clean_lstrip. }
  rewrite (lstrip_clean (Py.rev a) Hb), PyFacts.rev_rev.
  by rewrite (lstrip_clean a Ha).
Qed.

Lemma Review_upsert_ok now d gid pid rating comment :
  MatchLog_has_player_played d (Py.strip gid) pid = OK true ->
  reviews_ok d -> reviews_ok (Review_upsert now d gid pid rating comment).1.
Proof.
  intros Hplayed HI. unfold Review_upsert.
  destruct (_ || _) eqn:Hguard; [exact HI|].
  apply orb_false_iff in Hguard as [Hguard Hhi].
  apply orb_false_iff in Hguard as [Hguard Hlo].
  apply orb_false_iff in Hguard as [_ Hpid].
  apply bool_decide_eq_false in Hhi, Hlo, Hpid.
  apply has_played_probed in Hplayed as (_ & g0 & Hg0 & ml & Hml & Hfk & Hlike).
  rewrite strip_strip in Hg0. rewrite Hg0.
  set (same := fun r => bool_decide (rv_gameFk r = g_id g0)
                        && bool_decide (rv_playerId r = pid)).
  destruct HI as [I1 I2 I3 I4].
  destruct (existsb same (Review_rows d)) eqn:Hex; cbn [fst].
  - set (f := fun r => if same r
                       then mkReview (rv_id r) (rv_gameFk r) (rv_playerId r)
                              rating (Py.strip comment) (rv_createdAt r) now
                       else r).
    assert (Hkey : forall r, review_key (f r) = review_key r).
    { intros r. subst f same. cbn beta. by destruct (_ && _). }
    split; cbn [Review_rows MatchLog_rows with_Reviews].
    + intros r' Hin. apply StoreFacts.elem_of_map in Hin as (r & -> & Hin).
      subst f same. cbn beta. destruct (_ && _); [cbn; lia|by apply I1].
    + intros r' Hin. apply StoreFacts.elem_of_map in Hin as (r & -> & Hin).
      subst f same. cbn beta. destruct (_ && _); [cbn; by apply I2|by apply I2].
    + rewrite map_map, (map_ext _ review_key) by exact Hkey. exact I3.
    + intros r' Hin. apply StoreFacts.elem_of_map in Hin as (r & -> & Hin).
      destruct (I4 r Hin) as (ml' & Hml' & Hfk' & Hlike').
      exists ml'. clear Hkey. subst f same. cbn beta.
      by destruct (_ && _).
  - split; cbn [Review_rows MatchLog_rows with_Reviews].
    + intros r Hin. apply elem_of_app in Hin as [Hin|Hin]; [by apply I1|].
      apply list_elem_of_singleton in Hin as ->. cbn. lia.
    + intros r Hin. apply elem_of_app in Hin as [Hin|Hin]; [by apply I2|].
      apply list_elem_of_singleton in Hin as ->. cbn. lia.
    + rewrite map_app. apply NoDup_app. split; [exact I3|]. split.
      * intros k Hk Hk'. cbn in Hk'. apply list_elem_of_singleton in Hk' as ->.
        apply StoreFacts.elem_of_map in Hk as (r & Hr & Hin).
        assert (Hs : same r = true).
        { subst same. cbn beta. unfold review_key in Hr. injection Hr as <- <-.
          by rewrite !bool_decide_eq_true_2. }
        assert (Hn : existsb same (Review_rows d) = true).
        { apply existsb_exists. exists r. by rewrite <- list_elem_of_In. }
        congruence.
      * cbn. apply NoDup_singleton.
    + intros r Hin. apply elem_of_app in Hin as [Hin|Hin]; [by apply I4|].
      apply list_elem_of_singleton in Hin as ->. by exists ml.
Qed.

Section WithEnv.
Context `{Env}.

Lemma reachable_reviews_ok s :
  System.reachable s -> reviews_ok (Lobby.db (System.lobby s)).
Proof.
  assert (Hframe : forall d d', Review_rows d' = Review_rows d ->
            MatchLog_rows d' = MatchLog_rows d -> reviews_ok d -> reviews_ok d').
  { intros d d' Hr Hl. apply reviews_ok_frame; [done|]. by rewrite Hl. }
  apply (PlatformFacts.reachable_keeps reviews_ok).
  - intros now d gid name descr dev. apply Hframe; write_cases; reflexivity.
  - intros now d gid flag dev. apply Hframe; write_cases; reflexivity.
  - intros now d g version f _ _. apply Hframe; write_cases; reflexivity.
  - intros. by apply Review_upsert_ok.
  - intros now d host g v _ _. apply Hframe; write_cases; reflexivity.
  - intros now d rid pid. apply Hframe; write_cases; reflexivity.
  - intros now d rid pid. apply Hframe; write_cases; reflexivity.
  - intros now d rid st. apply Hframe; write_cases; reflexivity.
  - intros now d rid h. apply Hframe; write_cases; reflexivity.
  - intros d rid. apply Hframe; write_cases; reflexivity.
  - intros d rid g v s0 e reason win js.
    apply reviews_ok_frame; [reflexivity|].
    intros ml Hin. cbn. apply elem_of_app. by left.
  - split; cbn; try (intros ? Hin; by apply not_elem_of_nil in Hin).
    constructor.
Qed.

End WithEnv.

End TableFacts.

(** ** The catalogue: games, versions and what refers to them *)

Module CatalogueFacts.
Import Store.

Definition game_keys (d : db) : list Z := map g_id (Game_rows d).

Definition version_key (v : GameVersion) : Z * string := (gv_gameFk v, gv_version v).

(** A version of game [g] with key [vid]. *)
Definition version_of (d : db) (vid g : Z) : Prop :=
  exists v, v ∈ GameVersion_rows d /\ gv_id v = vid /\ gv_gameFk v = g.

Record versions_ok (d : db) : Prop := mkVersionsOk {
  vs_seq : 0 <= GameVersion_seq d;
  vs_bound : forall v, v ∈ GameVersion_rows d -> 0 < gv_id v <= GameVersion_seq d;
  vs_keys : NoDup (map gv_id (GameVersion_rows d));
  vs_unique : NoDup (map version_key (GameVersion_rows d));
  vs_range : forall v, v ∈ GameVersion_rows d ->
    1 <= gv_minPlayers v <= gv_maxPlayers v;
  vs_client : forall v, v ∈ GameVersion_rows d ->
    gv_clientType v = "cli" \/ gv_clientType v = "gui";
  vs_named : forall v, v ∈ GameVersion_rows d -> Py.truthy (gv_version v) = true }.

Record refs_ok (d : db) : Prop := mkRefsOk {
  ref_version : forall v, v ∈ GameVersion_rows d -> gv_gameFk v ∈ game_keys d;
  ref_room : forall r, r ∈ Room_rows d ->
    r_gameFk r ∈ game_keys d /\ version_of d (r_gameVersionFk r) (r_gameFk r);
  ref_review : forall r, r ∈ Review_rows d -> rv_gameFk r ∈ game_keys d }.

Lemma versions_ok_frame d d' :
  GameVersion_rows d' = GameVersion_rows d ->
  GameVersion_seq d' = GameVersion_seq d ->
  versions_ok d -> versions_ok d'.
Proof. intros Hr Hs [I1 I2 I3 I4 I5 I6 I7]. split; rewrite ?Hr, ?Hs; assumption. Qed.

Lemma version_taken_false d g version v :
  version_taken d g version = false -> v ∈ GameVersion_rows d ->
  version_key v <> (g, version).
Proof.
  unfold version_taken. intros Hf Hin Hk. unfold version_key in Hk.
  injection Hk as Hg Hv.
  assert (Ht : existsb (fun v => bool_decide (gv_gameFk v = g)
                                 && bool_decide (gv_version v = version))
                 (GameVersion_rows d) = true).
  { apply existsb_exists. exists v. split; [by apply list_elem_of_In|].
    by rewrite !bool_decide_eq_true_2. }
  congruence.
Qed.

Lemma GameVersion_create_ok now d g version f :
  PlatformFacts.valid_fields f ->
  versions_ok d -> versions_ok (GameVersion_create now d g version f).1.
Proof.
  intros [Hrange Hclient] HI. unfold GameVersion_create.
  destruct (_ || _) eqn:Hguard; [exact HI|].
  apply orb_false_iff in Hguard as [_ Hname]. apply negb_false_iff in Hname.
  destruct (version_taken d g (Py.strip version)) eqn:Htaken; [exact HI|].
  destruct HI as [I1 I2 I3 I4 I5 I6 I7]. cbn [fst].
  split; cbn [GameVersion_rows GameVersion_seq with_Games with_GameVersions].
  - lia.
  - intros v Hin. apply elem_of_app in Hin as [Hin|Hin].
    + specialize (I2 v Hin). lia.
    + apply list_elem_of_singleton in Hin as ->. cbn. lia.
  - rewrite map_app. apply NoDup_app. split; [exact I3|]. split; [|apply NoDup_singleton].
    intros k Hk Hk'. cbn in Hk'. apply list_elem_of_singleton in Hk' as ->.
    apply StoreFacts.elem_of_map in Hk as (v & Hv & Hin). specialize (I2 v Hin). lia.
  - rewrite map_app. apply NoDup_app. split; [exact I4|]. split; [|apply NoDup_singleton].
    intros k Hk Hk'. cbn in Hk'. apply list_elem_of_singleton in Hk' as ->.
    apply StoreFacts.elem_of_map in Hk as (v & Hv & Hin).
    by apply (version_taken_false d g (Py.strip version) v Htaken Hin).
  - intros v Hin. apply elem_of_app in Hin as [Hin|Hin]; [by apply I5|].
    apply list_elem_of_singleton in Hin as ->. exact Hrange.
  - intros v Hin. apply elem_of_app in Hin as [Hin|Hin]; [by apply I6|].
    apply list_elem_of_singleton in Hin as ->. exact Hclient.
  - intros v Hin. apply elem_of_app in Hin as [Hin|Hin]; [by apply I7|].
    apply list_elem_of_singleton in Hin as ->. exact Hname.
Qed.

(** What a write may do and keep every reference valid: it keeps the
    keys of the games and the versions, and the rows it adds or rewrites
    refer to them. *)
Lemma refs_ok_frame d d' :
  (forall k, k ∈ game_keys d -> k ∈ game_keys d') ->
  (forall vid g, version_of d vid g -> version_of d' vid g) ->
  (forall v, v ∈ GameVersion_rows d' ->
     gv_gameFk v ∈ game_keys d' \/
     exists v0, v0 ∈ GameVersion_rows d /\ gv_gameFk v0 = gv_gameFk v) ->
  (forall r, r ∈ Room_rows d' ->
     (r_gameFk r ∈ game_keys d' /\ version_of d' (r_gameVersionFk r) (r_gameFk r)) \/
     exists r0, r0 ∈ Room_rows d /\ r_gameFk r0 = r_gameFk r /\
                r_gameVersionFk r0 = r_gameVersionFk r) ->
  (forall r, r ∈ Review_rows d' ->
     rv_gameFk r ∈ game_keys d' \/
     exists r0, r0 ∈ Review_rows d /\ rv_gameFk r0 = rv_gameFk r) ->
  refs_ok d -> refs_ok d'.
Proof.
  intros Hk Hv Hvs Hrs Hrv [I1 I2 I3]. split.
  - intros v Hin. destruct (Hvs v Hin) as [?|(v0 & Hin0 & <-)]; [done|].
    by apply Hk, I1.
  - intros r Hin. destruct (Hrs r Hin) as [?|(r0 & Hin0 & <- & <-)]; [done|].
    destruct (I2 r0 Hin0) as [Hg Hver]. split; [by apply Hk|by apply Hv].
  - intros r Hin. destruct (Hrv r Hin) as [?|(r0 & Hin0 & <-)]; [done|].
    by apply Hk, I3.
Qed.

(** The same when the write leaves a table as it is. *)
Lemma same_rows {A} (l l' : list A) (key : A -> Z) (keys : list Z) :
  l' = l -> forall x, x ∈ l' -> key x ∈ keys \/ exists x0, x0 ∈ l /\ key x0 = key x.
Proof. intros -> x Hin. right. by exists x. Qed.

Lemma version_of_same d d' :
  GameVersion_rows d' = GameVersion_rows d ->
  forall vid g, version_of d vid g -> version_of d' vid g.
Proof. intros Hr vid g. unfold version_of. by rewrite Hr. Qed.

Lemma rooms_same d d' P :
  Room_rows d' = Room_rows d ->
  forall r, r ∈ Room_rows d' ->
    P r \/ exists r0, r0 ∈ Room_rows d /\ r_gameFk r0 = r_gameFk r /\
                      r_gameVersionFk r0 = r_gameVersionFk r.
Proof. intros -> r Hin. right. by exists r. Qed.

Lemma rooms_mapped d d' (f : Room -> Room) P :
  (forall r, r_gameFk (f r) = r_gameFk r) ->
  (forall r, r_gameVersionFk (f r) = r_gameVersionFk r) ->
  Room_rows d' = map f (Room_rows d) ->
  forall r, r ∈ Room_rows d' ->
    P r \/ exists r0, r0 ∈ Room_rows d /\ r_gameFk r0 = r_gameFk r /\
                      r_gameVersionFk r0 = r_gameVersionFk r.
Proof.
  intros Hg Hv -> r Hin. apply StoreFacts.elem_of_map in Hin as (r0 & -> & Hin).
  right. exists r0. by rewrite Hg, Hv.
Qed.

Lemma refs_tables d d' :
  game_keys d' = game_keys d ->
  GameVersion_rows d' = GameVersion_rows d ->
  Review_rows d' = Review_rows d ->
  (forall r, r ∈ Room_rows d' ->
     (r_gameFk r ∈ game_keys d' /\ version_of d' (r_gameVersionFk r) (r_gameFk r)) \/
     exists r0, r0 ∈ Room_rows d /\ r_gameFk r0 = r_gameFk r /\
                r_gameVersionFk r0 = r_gameVersionFk r) ->
  refs_ok d -> refs_ok d'.
Proof.
  intros Hg Hv Hrv Hr. apply refs_ok_frame; try done.
  - by rewrite Hg.
  - by apply version_of_same.
  - by apply (same_rows _ _ gv_gameFk).
  - by apply (same_rows _ _ rv_gameFk).
Qed.

Lemma touch_room_refs now rid r :
  r_gameFk (touch_room now rid r) = r_gameFk r /\
  r_gameVersionFk (touch_room now rid r) = r_gameVersionFk r.
Proof. unfold touch_room. by destruct (decide _). Qed.

Lemma game_keys_mapped (f : Game -> Game) rows :
  (forall g, g_id (f g) = g_id g) -> map g_id (map f rows) = map g_id rows.
Proof. intros Hf. rewrite map_map. by apply map_ext. Qed.

Lemma refs_Game_create now d gid name descr dev :
  refs_ok d -> refs_ok (Game_create now d gid name descr dev).1.
Proof.
  intros HI. unfold Game_create. destruct (_ || _); [exact HI|].
  destruct (find_game_by_gameId d _); [exact HI|]. cbn [fst].
  apply (refs_ok_frame d); try done.
  - intros k Hk. unfold game_keys. cbn [Game_rows with_Games].
    rewrite map_app. apply elem_of_app. by left.
  - by apply (same_rows _ _ gv_gameFk).
  - by apply rooms_same.
  - by apply (same_rows _ _ rv_gameFk).
Qed.

Lemma refs_Game_set_delisted now d gid flag dev :
  refs_ok d -> refs_ok (Game_set_delisted now d gid flag dev).1.
Proof.
  intros HI. unfold Game_set_delisted. destruct (_ || _); [exact HI|].
  destruct (find_game_by_gameId d _); [|exact HI].
  destruct (decide _); [exact HI|]. cbn [fst].
  apply (refs_tables d); try done; [|by apply rooms_same].
  unfold game_keys. cbn [Game_rows with_Games]. apply game_keys_mapped.
  intros g0. by destruct (decide _).
Qed.

Lemma refs_GameVersion_create now d g version f :
  (exists row, row ∈ Game_rows d /\ g_id row = g) ->
  refs_ok d -> refs_ok (GameVersion_create now d g version f).1.
Proof.
  intros (row & Hrow & Hg) HI. unfold GameVersion_create.
  destruct (_ || _); [exact HI|]. destruct (version_taken _ _ _); [exact HI|].
  cbn [fst].
  match goal with |- refs_ok ?x => set (d' := x) end.
  assert (Hkeys : game_keys d' = game_keys d).
  { subst d'. unfold game_keys. cbn [Game_rows with_Games with_GameVersions].
    apply game_keys_mapped. intros g0. unfold bump_game_updatedAt.
    by destruct (decide _). }
  assert (Hvs : exists row', gv_gameFk row' = g /\
                  GameVersion_rows d' = GameVersion_rows d ++ [row']).
  { eexists. split; [|reflexivity]. reflexivity. }
  destruct Hvs as (row' & Hfk & Hvs).
  assert (Hrv : Review_rows d' = Review_rows d) by reflexivity.
  assert (Hrm : Room_rows d' = Room_rows d) by reflexivity.
  clearbody d'.
  apply (refs_ok_frame d); try done.
  - intros k Hk. by rewrite Hkeys.
  - intros vid g0 (v & Hin & Hv). exists v. split; [|done].
    rewrite Hvs. apply elem_of_app. by left.
  - intros v. rewrite Hvs. intros Hin. apply elem_of_app in Hin as [Hin|Hin].
    + right. by exists v.
    + apply list_elem_of_singleton in Hin as ->. left. rewrite Hkeys, Hfk.
      apply StoreFacts.elem_of_map. by exists row.
  - by apply rooms_same.
  - by apply (same_rows _ _ rv_gameFk).
Qed.

Lemma refs_Review_upsert now d gid pid rating comment :
  refs_ok d -> refs_ok (Review_upsert now d gid pid rating comment).1.
Proof.
  intros HI. unfold Review_upsert. destruct (_ || _); [exact HI|].
  destruct (find_game_by_gameId d _) as [g|] eqn:Hg; [|exact HI].
  apply StoreFacts.find_Some_elem in Hg as [Hg _].
  destruct (existsb _ _); cbn [fst].
  - apply (refs_ok_frame d); try done.
    + by apply (same_rows _ _ gv_gameFk).
    + by apply rooms_same.
    + intros r. cbn [Review_rows with_Reviews]. intros Hin.
      apply StoreFacts.elem_of_map in Hin as (r0 & -> & Hin).
      right. exists r0. split; [done|]. by destruct (_ && _).
  - apply (refs_ok_frame d); try done.
    + by apply (same_rows _ _ gv_gameFk).
    + by apply rooms_same.
    + intros r. cbn [Review_rows with_Reviews]. intros Hin.
      apply elem_of_app in Hin as [Hin|Hin]; [right; by exists r|].
      apply list_elem_of_singleton in Hin as ->. left.
      apply StoreFacts.elem_of_map. by exists g.
Qed.

Lemma refs_Room_create now d host g v :
  (exists row, row ∈ Game_rows d /\ g_id row = g) ->
  (exists row, row ∈ GameVersion_rows d /\ gv_id row = v /\ gv_gameFk row = g) ->
  refs_ok d -> refs_ok (Room_create now d host g v).1.
Proof.
  intros (grow & Hgrow & Hg) Hver HI. unfold Room_create.
  destruct (_ || _); [exact HI|]. cbn [fst].
  assert (Hgoal : forall d', game_keys d' = game_keys d ->
            GameVersion_rows d' = GameVersion_rows d ->
            Review_rows d' = Review_rows d ->
            Room_rows d' = Room_rows d ++
              [mkRoom (Room_seq d + 1) host g v "waiting" now now] ->
            refs_ok d').
  { intros d' Hk Hv Hrv Hr. apply (refs_tables d); try done.
    intros r. rewrite Hr. intros Hin.
    apply elem_of_app in Hin as [Hin|Hin]; [right; by exists r|].
    apply list_elem_of_singleton in Hin as ->. left. cbn [r_gameFk r_gameVersionFk].
    split.
    - rewrite Hk. apply StoreFacts.elem_of_map. by exists grow.
    - unfold version_of. by rewrite Hv. }
  destruct (is_member _ _ _); by apply Hgoal.
Qed.

Lemma refs_rooms_mapped d d' (f : Room -> Room) :
  (forall r, r_gameFk (f r) = r_gameFk r) ->
  (forall r, r_gameVersionFk (f r) = r_gameVersionFk r) ->
  game_keys d' = game_keys d ->
  GameVersion_rows d' = GameVersion_rows d ->
  Review_rows d' = Review_rows d ->
  Room_rows d' = map f (Room_rows d) ->
  refs_ok d -> refs_ok d'.
Proof.
  intros Hg Hv Hk Hvs Hrv Hr. apply (refs_tables d); try done.
  by apply (rooms_mapped d d' f).
Qed.

Lemma refs_Room_add_member now d rid pid :
  refs_ok d -> refs_ok (Room_add_member now d rid pid).1.
Proof.
  intros HI. unfold Room_add_member. destruct (_ || _); [exact HI|]. cbn [fst].
  destruct (is_member _ _ _);
    by apply (refs_rooms_mapped d _ (touch_room now rid));
      try (intros r; apply touch_room_refs).
Qed.

Lemma refs_Room_remove_member now d rid pid :
  refs_ok d -> refs_ok (Room_remove_member now d rid pid).1.
Proof.
  intros HI. unfold Room_remove_member. destruct (_ || _); [exact HI|]. cbn [fst].
  by apply (refs_rooms_mapped d _ (touch_room now rid));
    try (intros r; apply touch_room_refs).
Qed.

Lemma refs_Room_set_status now d rid st :
  refs_ok d -> refs_ok (Room_set_status now d rid st).1.
Proof.
  intros HI. rewrite (surjective_pairing (Room_set_status now d rid st)).
  cbn [fst]. pose proof (StoreFacts.Room_set_status_rows now d rid st) as Hrows.
  revert Hrows. unfold Room_set_status. destruct (_ || _); [done|]. cbn [fst].
  intros Hrows.
  apply (refs_rooms_mapped d _ (StoreFacts.set_status_row now rid (Py.strip st)));
    try done; intros r; unfold StoreFacts.set_status_row; by destruct (decide _).
Qed.

Lemma refs_Room_set_host now d rid h :
  refs_ok d -> refs_ok (Room_set_host now d rid h).1.
Proof.
  intros HI. pose proof (StoreFacts.Room_set_host_rows now d rid h) as Hrows.
  revert Hrows. unfold Room_set_host. destruct (_ || _); [done|]. cbn [fst].
  intros Hrows.
  apply (refs_rooms_mapped d _ (StoreFacts.set_host_row now rid h));
    try done; intros r; unfold StoreFacts.set_host_row; by destruct (decide _).
Qed.

Lemma refs_Room_delete_if_empty d rid :
  refs_ok d -> refs_ok (Room_delete_if_empty d rid).1.
Proof.
  intros HI. unfold Room_delete_if_empty. destruct (decide _); [exact HI|].
  destruct (decide _); [exact HI|]. cbn [fst].
  apply (refs_tables d); try done.
  intros r. cbn [Room_rows with_Rooms]. intros Hin.
  apply list_elem_of_filter in Hin as [_ Hin]. right. by exists r.
Qed.

Lemma refs_MatchLog_create d rid g v s e reason win js :
  refs_ok d -> refs_ok (MatchLog_create d rid g v s e reason win js).1.
Proof. intros HI. apply (refs_tables d); try done. by apply rooms_same. Qed.

Section WithEnv.
Context `{Env}.

Lemma reachable_refs_ok s :
  System.reachable s -> refs_ok (Lobby.db (System.lobby s)).
Proof.
  apply (PlatformFacts.reachable_keeps refs_ok).
  - intros. by apply refs_Game_create.
  - intros. by apply refs_Game_set_delisted.
  - intros. by apply refs_GameVersion_create.
  - intros. by apply refs_Review_upsert.
  - intros. by apply refs_Room_create.
  - intros. by apply refs_Room_add_member.
  - intros. by apply refs_Room_remove_member.
  - intros. by apply refs_Room_set_status.
  - intros. by apply refs_Room_set_host.
  - intros. by apply refs_Room_delete_if_empty.
  - intros. by apply refs_MatchLog_create.
  - split; cbn; intros ? Hin; by apply not_elem_of_nil in Hin.
Qed.

Lemma reachable_versions_ok s :
  System.reachable s -> versions_ok (Lobby.db (System.lobby s)).
Proof.
  apply (PlatformFacts.reachable_keeps versions_ok).
  - intros now d gid name descr dev. apply versions_ok_frame;
      TableFacts.write_cases; reflexivity.
  - intros now d gid flag dev. apply versions_ok_frame;
      TableFacts.write_cases; reflexivity.
  - intros now d g version f Hf _. by apply GameVersion_create_ok.
  - intros now d gid pid rating comment _. apply versions_ok_frame;
      TableFacts.write_cases; reflexivity.
  - intros now d host g v _ _. apply versions_ok_frame;
      TableFacts.write_cases; reflexivity.
  - intros now d rid pid. apply versions_ok_frame;
      TableFacts.write_cases; reflexivity.
  - intros now d rid pid. apply versions_ok_frame;
      TableFacts.write_cases; reflexivity.
  - intros now d rid st. apply versions_ok_frame;
      TableFacts.write_cases; reflexivity.
  - intros now d rid h. apply versions_ok_frame;
      TableFacts.write_cases; reflexivity.
  - intros d rid. apply versions_ok_frame; TableFacts.write_cases; reflexivity.
  - intros d rid g v s0 e reason win js. by apply versions_ok_frame.
  - split; cbn; try (intros ? Hin; by apply not_elem_of_nil in Hin);
      try apply NoDup_nil_2; lia.
Qed.

End WithEnv.

End CatalogueFacts.

(** ** What is never taken back *)

Module HistoryFacts.
Import Store.

(** The columns of a game that say which game it is. *)
Definition game_identity (g : Game) : Z * string * Z :=
  (g_id g, g_gameId g, g_developerId g).

(** [d] continues [d0]: the match log and the version table of [d0] are
    initial segments of those of [d], and so are the games of [d0], read
    by their identity. *)
Definition continues (d0 d : db) : Prop :=
  MatchLog_rows d0 `prefix_of` MatchLog_rows d /\
  GameVersion_rows d0 `prefix_of` GameVersion_rows d /\
  map game_identity (Game_rows d0) `prefix_of` map game_identity (Game_rows d).

Lemma continues_refl d : continues d d.
Proof. by repeat split. Qed.

Lemma continues_trans d0 d1 d2 :
  continues d0 d1 -> continues d1 d2 -> continues d0 d2.
Proof.
  intros (A1 & A2 & A3) (B1 & B2 & B3).
  repeat split; by etrans.
Qed.

Lemma continues_same d d' :
  MatchLog_rows d' = MatchLog_rows d ->
  GameVersion_rows d' = GameVersion_rows d ->
  map game_identity (Game_rows d') = map game_identity (Game_rows d) ->
  continues d d'.
Proof. intros H1 H2 H3. unfold continues. by rewrite H1, H2, H3. Qed.

Lemma identity_mapped (f : Game -> Game) rows :
  (forall g, game_identity (f g) = game_identity g) ->
  map game_identity (map f rows) = map game_identity rows.
Proof. intros Hf. rewrite map_map. by apply map_ext. Qed.

Lemma continues_Game_create now d gid name descr dev :
  continues d (Game_create now d gid name descr dev).1.
Proof.
  unfold Game_create. destruct (_ || _); [apply continues_refl|].
  destruct (find_game_by_gameId d _); [apply continues_refl|]. cbn [fst].
  repeat split; try reflexivity.
  cbn [Game_rows with_Games]. rewrite map_app. by apply prefix_app_r.
Qed.

Lemma continues_Game_set_delisted now d gid flag dev :
  continues d (Game_set_delisted now d gid flag dev).1.
Proof.
  unfold Game_set_delisted. destruct (_ || _); [apply continues_refl|].
  destruct (find_game_by_gameId d _); [|apply continues_refl].
  destruct (decide _); [apply continues_refl|]. cbn [fst].
  apply continues_same; try reflexivity.
  cbn [Game_rows with_Games]. apply identity_mapped.
  intros g0. by destruct (decide _).
Qed.

Lemma continues_GameVersion_create now d g version f :
  continues d (GameVersion_create now d g version f).1.
Proof.
  unfold GameVersion_create. destruct (_ || _); [apply continues_refl|].
  destruct (version_taken _ _ _); [apply continues_refl|]. cbn [fst].
  repeat split.
  - reflexivity.
  - cbn [GameVersion_rows with_Games with_GameVersions]. by apply prefix_app_r.
  - cbn [Game_rows with_Games with_GameVersions].
    rewrite identity_mapped; [reflexivity|].
    intros g0. unfold bump_game_updatedAt. by destruct (decide _).
Qed.

Lemma continues_MatchLog_create d rid g v s e reason win js :
  continues d (MatchLog_create d rid g v s e reason win js).1.
Proof.
  repeat split; try reflexivity.
  cbn [fst MatchLog_create MatchLog_rows with_MatchLogs]. by apply prefix_app_r.
Qed.

Section WithEnv.
Context `{Env}.

Lemma run_continues s rs :
  continues (Lobby.db (System.lobby s)) (Lobby.db (System.lobby (System.run s rs))).
Proof.
  apply (PlatformFacts.run_keeps (continues (Lobby.db (System.lobby s))));
    try apply continues_refl.
  - intros now d gid name descr dev Hd.
    apply (continues_trans _ _ _ Hd), continues_Game_create.
  - intros now d gid flag dev Hd.
    apply (continues_trans _ _ _ Hd), continues_Game_set_delisted.
  - intros now d g version f _ _ Hd.
    apply (continues_trans _ _ _ Hd), continues_GameVersion_create.
  - intros now d gid pid rating comment _ Hd.
    apply (continues_trans _ _ _ Hd), continues_same;
      TableFacts.write_cases; reflexivity.
  - intros now d host g v _ _ Hd.
    apply (continues_trans _ _ _ Hd), continues_same;
      TableFacts.write_cases; reflexivity.
  - intros now d rid pid Hd.
    apply (continues_trans _ _ _ Hd), continues_same;
      TableFacts.write_cases; reflexivity.
  - intros now d rid pid Hd.
    apply (continues_trans _ _ _ Hd), continues_same;
      TableFacts.write_cases; reflexivity.
  - intros now d rid st Hd.
    apply (continues_trans _ _ _ Hd), continues_same;
      TableFacts.write_cases; reflexivity.
  - intros now d rid h Hd.
    apply (continues_trans _ _ _ Hd), continues_same;
      TableFacts.write_cases; reflexivity.
  - intros d rid Hd.
    apply (continues_trans _ _ _ Hd), continues_same;
      TableFacts.write_cases; reflexivity.
  - intros d rid g v s0 e reason win js Hd.
    apply (continues_trans _ _ _ Hd), continues_MatchLog_create.
Qed.

End WithEnv.

End HistoryFacts.

(** ** src/server/lobby_server.py: rooms *)

Module RoomFacts.
Import Lobby.

(** The members left when player [pid] is taken out of the cached list. *)
Definition remaining (pid : Z) (live : RoomLive) : list Z :=
  if bool_decide (pid ∈ players live)
  then filter (fun u => u <> pid) (players live)
  else players live.

(** [_handle_room_leave] of the host of a cached room in which members
    remain. *)
Lemma host_leaves now w l sess rid live force new_host rest :
  heap w !! l = Some sess ->
  room_id sess = Some rid ->
  ROOMS w !! rid = Some live ->
  negb force && bool_decide (status live = "playing") = false ->
  host_player_id live = player_id sess ->
  remaining (player_id sess) live = new_host :: rest ->
  _handle_room_leave now w l force
  = mkWorld
      (Store.Room_set_host now
         (Store.Room_remove_member now (db w) rid (player_id sess)).1
         rid new_host).1
      (files w) (<[l := set_room_id None sess]> (heap w)) (next_loc w)
      (SESSIONS_BY_WRITER w) (SESSIONS_BY_PLAYER_ID w)
      (<[rid := set_host new_host (set_players (new_host :: rest) live)]> (ROOMS w))
      (procs w)
      ((sent w
        ++ MatchFacts.pushed "host_changed"
             [("roomId", JInt rid); ("hostPlayerId", JInt new_host)]
             (MatchFacts.receivers w (new_host :: rest)))
        ++ MatchFacts.pushed "player_left"
             [("roomId", JInt rid); ("playerId", JInt (player_id sess))]
             (MatchFacts.receivers w (new_host :: rest))).
Proof.
  intros Hh Hroom Hlive Hguard Hhost Hps.
  unfold _handle_room_leave, _ensure_room_live. rewrite Hh, Hroom, Hlive, Hguard.
  unfold remaining in Hps. rewrite Hps.
  cbn [host_player_id set_players]. rewrite (bool_decide_eq_true_2 _ Hhost).
  rewrite !MatchFacts.push_each_spec.
  cbn [db files heap next_loc SESSIONS_BY_WRITER SESSIONS_BY_PLAYER_ID ROOMS procs
       sent with_db with_heap with_ROOMS with_sent].
  by rewrite insert_insert_eq.
Qed.

Lemma set_host_row_host now rid h r :
  Store.r_id r = rid ->
  Store.r_hostPlayerId (StoreFacts.set_host_row now rid h r) = h.
Proof. intros Hr. unfold StoreFacts.set_host_row. by destruct (decide _). Qed.

Lemma Room_set_host_host now d rid h r :
  0 < rid -> 0 < h ->
  r ∈ Store.Room_rows (Store.Room_set_host now d rid h).1 ->
  Store.r_id r = rid -> Store.r_hostPlayerId r = h.
Proof.
  intros Hrid Hh. rewrite StoreFacts.Room_set_host_rows.
  rewrite !bool_decide_eq_false_2 by lia. cbn [orb].
  intros Hin Hr. apply StoreFacts.elem_of_map in Hin as (r0 & -> & Hin).
  apply set_host_row_host. revert Hr. unfold StoreFacts.set_host_row.
  by destruct (decide _).
Qed.

(** *** Leaving *)

Lemma Room_remove_member_gone now d rid pid :
  0 < rid -> 0 < pid ->
  Store.is_member (Store.Room_remove_member now d rid pid).1 rid pid = false.
Proof.
  intros Hrid Hpid. unfold Store.Room_remove_member.
  rewrite !bool_decide_eq_false_2 by lia. cbn [orb fst].
  unfold Store.is_member. cbn [Store.RoomMember_rows Store.with_Rooms
    Store.with_RoomMembers].
  destruct (existsb _ _) eqn:He; [|done].
  apply existsb_exists in He as (m & Hin & Hm).
  apply list_elem_of_In, list_elem_of_filter in Hin as [Hnot _].
  apply andb_true_iff in Hm as [H1 H2].
  apply bool_decide_eq_true in H1, H2. by destruct Hnot.
Qed.

Definition members_same (d d' : Store.db) : Prop :=
  Store.RoomMember_rows d' = Store.RoomMember_rows d.

Lemma is_member_same d d' rid pid :
  members_same d d' -> Store.is_member d' rid pid = Store.is_member d rid pid.
Proof. unfold members_same, Store.is_member. by intros ->. Qed.

Lemma Room_set_host_members now d rid h :
  members_same d (Store.Room_set_host now d rid h).1.
Proof. unfold members_same, Store.Room_set_host. by destruct (_ || _). Qed.

Lemma Room_delete_if_empty_members d rid :
  members_same d (Store.Room_delete_if_empty d rid).1.
Proof.
  unfold members_same, Store.Room_delete_if_empty.
  destruct (decide _); [done|]. by destruct (decide _).
Qed.

(** After [_handle_room_leave] has run its course the player is no member
    of the room in the store, and the session is in no room. *)
Lemma left_room now w l sess rid force :
  heap w !! l = Some sess ->
  room_id sess = Some rid ->
  0 < rid -> 0 < player_id sess ->
  negb force && match (_ensure_room_live w rid).2 with
                | Some live => bool_decide (status live = "playing")
                | None => false
                end = false ->
  let w' := _handle_room_leave now w l force in
  Store.is_member (db w') rid (player_id sess) = false /\
  heap w' !! l = Some (set_room_id None sess) /\
  SESSIONS_BY_WRITER w' = SESSIONS_BY_WRITER w /\
  SESSIONS_BY_PLAYER_ID w' = SESSIONS_BY_PLAYER_ID w.
Proof.
  intros Hh Hroom Hrid Hpid Hguard w'. subst w'.
  unfold _handle_room_leave. rewrite Hh, Hroom.
  destruct (MatchFacts._ensure_room_live_spec w rid) as (R & HR & _).
  rewrite HR in Hguard |- *. cbn [snd] in Hguard. rewrite Hguard.
  pose proof (Room_remove_member_gone now (db w) rid (player_id sess) Hrid Hpid)
    as Hgone.
  cbn [db heap SESSIONS_BY_WRITER SESSIONS_BY_PLAYER_ID with_heap].
  split; [|split; [apply lookup_insert_eq|]].
  - destruct (R !! rid) as [live|]; [|exact Hgone].
    fold (remaining (player_id sess) live).
    destruct (remaining (player_id sess) live) as [|new_host ps'].
    + rewrite MatchFacts.push_each_spec. cbn [db with_db with_ROOMS with_sent].
      by rewrite (is_member_same _ _ _ _ (Room_delete_if_empty_members _ _)).
    + rewrite MatchFacts.push_each_spec. cbn [db with_db with_ROOMS with_sent].
      destruct (bool_decide (host_player_id _ = _));
        [|cbn [db with_db with_ROOMS with_sent]; exact Hgone].
      rewrite MatchFacts.push_each_spec. cbn [db with_db with_ROOMS with_sent].
      by rewrite (is_member_same _ _ _ _ (Room_set_host_members _ _ _ _)).
  - destruct (R !! rid) as [live|]; [|done].
    fold (remaining (player_id sess) live).
    destruct (remaining (player_id sess) live) as [|new_host ps'].
    + by rewrite MatchFacts.push_each_spec.
    + rewrite MatchFacts.push_each_spec.
      destruct (bool_decide (host_player_id _ = _)); [|done].
      by rewrite MatchFacts.push_each_spec.
Qed.

End RoomFacts.

(** ** src/server/lobby_server.py: sessions *)

Module SessionFacts.
Import Lobby.

(** A step that leaves the session tables alone and, in the heap, at
    most moves sessions from one room to another. *)
Record heap_step (w w' : world) : Prop := mkHeapStep {
  hs_next : next_loc w' = next_loc w;
  hs_writer : SESSIONS_BY_WRITER w' = SESSIONS_BY_WRITER w;
  hs_player : SESSIONS_BY_PLAYER_ID w' = SESSIONS_BY_PLAYER_ID w;
  hs_heap : forall l,
    heap w' !! l = heap w !! l \/
    exists sess r, heap w !! l = Some sess /\
                   heap w' !! l = Some (set_room_id r sess) }.

Lemma heap_step_refl w : heap_step w w.
Proof. split; auto. Qed.

Lemma heap_step_trans a b c : heap_step a b -> heap_step b c -> heap_step a c.
Proof.
  intros [A1 A2 A3 A4] [B1 B2 B3 B4]. split; try congruence.
  intros l. destruct (B4 l) as [Hb|(sb & rb & Hb & Hb')].
  - rewrite Hb. apply A4.
  - destruct (A4 l) as [Ha|(sa & ra & Ha & Ha')].
    + right. exists sb, rb. by rewrite <- Ha.
    + right. exists sa, rb. split; [done|]. rewrite Hb'.
      rewrite Hb in Ha'. by injection Ha' as ->.
Qed.

(** A step that does not touch the sessions at all. *)
Lemma heap_step_same w w' :
  heap w' = heap w -> next_loc w' = next_loc w ->
  SESSIONS_BY_WRITER w' = SESSIONS_BY_WRITER w ->
  SESSIONS_BY_PLAYER_ID w' = SESSIONS_BY_PLAYER_ID w ->
  heap_step w w'.
Proof. intros Hh Hn Hw Hp. split; try done. intros l. left. by rewrite Hh. Qed.

Lemma heap_step_send w c f : heap_step w (_send w c f).
Proof. by apply heap_step_same. Qed.

Lemma heap_step_set_room w l sess r :
  heap w !! l = Some sess ->
  heap_step w (with_heap (<[l := set_room_id r sess]> (heap w)) w).
Proof.
  intros Hl. split; try done. intros l'. cbn [heap with_heap].
  destruct (decide (l = l')) as [<-|Hne].
  - right. exists sess, r. by rewrite lookup_insert_eq.
  - left. by rewrite lookup_insert_ne.
Qed.

Lemma _ensure_room_live_step w r : heap_step w (_ensure_room_live w r).1.
Proof.
  destruct (MatchFacts._ensure_room_live_spec w r) as (R & -> & _).
  by apply heap_step_same.
Qed.

Lemma _finish_match_step now w r res : heap_step w (_finish_match now w r res).
Proof.
  unfold _finish_match.
  destruct (MatchFacts._ensure_room_live_spec w r) as (R & -> & _).
  destruct (R !! r) as [live|]; [|by apply heap_step_same].
  destruct (_ && negb (result_truthy res)); [by apply heap_step_same|].
  destruct (MatchFacts.stop_process_spec (with_ROOMS R w) live) as [p ->].
  destruct (negb (bool_decide (status live = "playing")) && _ && _).
  - destruct res as [r0|]; [|by apply heap_step_same].
    destruct (result_truthy (Some r0)); by apply heap_step_same.
  - rewrite MatchFacts.push_each_spec.
    destruct res as [r0|]; [destruct (result_truthy (Some r0))|];
      by apply heap_step_same.
Qed.

Lemma _watch_game_step now w r p rc : heap_step w (_watch_game now w r p rc).
Proof.
  unfold _watch_game.
  set (w1 := match procs w !! p with
             | Some None => with_procs (<[p:=Some rc]> (procs w)) w
             | _ => w
             end).
  assert (H1 : heap_step w w1).
  { subst w1. destruct (procs w !! p) as [[?|]|]; by apply heap_step_same. }
  apply (heap_step_trans _ _ _ H1).
  destruct (MatchFacts._ensure_room_live_spec w1 r) as (R & -> & _).
  assert (H2 : heap_step w1 (with_ROOMS R w1)) by by apply heap_step_same.
  destruct (R !! r) as [live|]; [|exact H2].
  destruct (negb _); [exact H2|].
  apply (heap_step_trans _ _ _ H2), _finish_match_step.
Qed.

Lemma handle_post_result_step now w c data :
  heap_step w (handle_post_result now w c data).
Proof.
  unfold handle_post_result. destruct (decide _); [apply heap_step_send|].
  eapply heap_step_trans; [apply _finish_match_step|apply heap_step_send].
Qed.

Lemma handle_review_upsert_step now w c data :
  heap_step w (handle_review_upsert now w c data).
Proof.
  unfold handle_review_upsert.
  destruct (session_of_writer w c) as [[l sess]|]; [|apply heap_step_send].
  destruct (negb _); [apply heap_step_send|].
  destruct (Store.MatchLog_has_player_played _ _ _) as [played|];
    [|apply heap_step_send].
  destruct (negb _); [apply heap_step_send|].
  destruct (Store.Review_upsert _ _ _ _ _ _) as [d [?|e]];
    [|apply heap_step_send].
  by apply heap_step_same.
Qed.

Lemma _handle_room_leave_step now w l force :
  heap_step w (_handle_room_leave now w l force).
Proof.
  unfold _handle_room_leave.
  destruct (heap w !! l) as [sess|] eqn:Hh; [|apply heap_step_refl].
  destruct (room_id sess) as [rid|]; [|apply heap_step_refl].
  destruct (MatchFacts._ensure_room_live_spec w rid) as (R & -> & _).
  destruct (negb force && _); [by apply heap_step_same|].
  match goal with
  | |- heap_step w (with_heap (<[l := ?s]> (heap ?x)) ?x) =>
      assert (Hx : heap_step w x /\ heap x = heap w)
  end.
  { destruct (R !! rid) as [live|]; [|by split; [apply heap_step_same|]].
    fold (RoomFacts.remaining (player_id sess) live).
    destruct (RoomFacts.remaining (player_id sess) live) as [|new_host ps'].
    - rewrite MatchFacts.push_each_spec. by split; [apply heap_step_same|].
    - rewrite MatchFacts.push_each_spec.
      destruct (bool_decide (host_player_id _ = _)).
      + rewrite MatchFacts.push_each_spec. by split; [apply heap_step_same|].
      + by split; [apply heap_step_same|]. }
  destruct Hx as [Hx Hheap]. apply (heap_step_trans _ _ _ Hx).
  apply heap_step_set_room. by rewrite Hheap.
Qed.

Lemma handle_room_leave_step now w c : heap_step w (handle_room_leave now w c).
Proof.
  unfold handle_room_leave.
  destruct (session_of_writer w c) as [[l sess]|]; [|apply heap_step_send].
  set (x := match room_id sess with
            | Some rid => if decide (rid = 0) then (w, None)
                          else _ensure_room_live w rid
            | None => (w, None)
            end).
  assert (Hx : heap_step w x.1).
  { subst x. destruct (room_id sess) as [rid|]; [|apply heap_step_refl].
    destruct (decide (rid = 0)); [apply heap_step_refl|].
    apply _ensure_room_live_step. }
  destruct x as [w1 live]. cbn [fst] in Hx.
  destruct (match live with Some _ => _ | None => _ end).
  - apply (heap_step_trans _ _ _ Hx), heap_step_send.
  - apply (heap_step_trans _ _ _ Hx).
    eapply heap_step_trans; [apply _handle_room_leave_step|apply heap_step_send].
Qed.

Lemma session_of_writer_heap w c l sess :
  session_of_writer w c = Some (l, sess) -> heap w !! l = Some sess.
Proof.
  unfold session_of_writer. destruct (SESSIONS_BY_WRITER w !! c) as [l'|];
    [|discriminate].
  destruct (heap w !! l') as [s|] eqn:Hh; [|discriminate]. by intros [= <- <-].
Qed.

Lemma handle_room_create_step now w c gid :
  heap_step w (handle_room_create now w c gid).
Proof.
  unfold handle_room_create.
  destruct (session_of_writer w c) as [[l sess]|] eqn:Hs; [|apply heap_step_send].
  apply session_of_writer_heap in Hs.
  destruct (room_id sess) as [rid0|]; [apply heap_step_send|].
  destruct (negb _); [apply heap_step_send|].
  destruct (Store.Game_get_by_gameId _ _) as [gdata|]; [|apply heap_step_send].
  destruct (decide _); [apply heap_step_send|].
  destruct (Store.GameVersion_latest_for_gameId _ _) as [v|];
    [|apply heap_step_send].
  destruct (Store.Room_create _ _ _ _ _) as [d [rid|e]]; [|apply heap_step_send].
  destruct (MatchFacts._ensure_room_live_spec (with_db d w)
              (Py.or_int (Some rid) 0)) as (R & -> & _).
  assert (H1 : heap_step w (with_ROOMS R (with_db d w))) by by apply heap_step_same.
  destruct (R !! _) as [live|].
  - apply (heap_step_trans _ _ _ H1).
    eapply heap_step_trans; [|apply heap_step_send].
    by apply heap_step_set_room.
  - apply (heap_step_trans _ _ _ H1), heap_step_send.
Qed.

Lemma handle_room_join_step now w c roomId :
  heap_step w (handle_room_join now w c roomId).
Proof.
  unfold handle_room_join.
  destruct (session_of_writer w c) as [[l sess]|] eqn:Hs; [|apply heap_step_send].
  apply session_of_writer_heap in Hs.
  destruct (room_id sess) as [rid0|]; [apply heap_step_send|].
  destruct (decide _); [apply heap_step_send|].
  destruct (MatchFacts._ensure_room_live_spec w (Py.or_int roomId 0))
    as (R & -> & _).
  assert (H1 : heap_step w (with_ROOMS R w)) by by apply heap_step_same.
  destruct (R !! _) as [live|];
    [|apply (heap_step_trans _ _ _ H1), heap_step_send].
  destruct (bool_decide _); [apply (heap_step_trans _ _ _ H1), heap_step_send|].
  destruct (Store.Room_get _ _) as [rd|];
    [|apply (heap_step_trans _ _ _ H1), heap_step_send].
  destruct (bool_decide _).
  { apply (heap_step_trans _ _ _ H1).
    eapply heap_step_trans; [|apply heap_step_send]. by apply heap_step_set_room. }
  destruct (decide _); [apply (heap_step_trans _ _ _ H1), heap_step_send|].
  destruct (Store.Room_add_member _ _ _ _) as [d [?|e]];
    [|apply (heap_step_trans _ _ _ H1), heap_step_send].
  rewrite MatchFacts.push_each_spec.
  split; try done. intros l'.
  cbn [heap _send with_db with_heap with_ROOMS with_sent].
  destruct (decide (l = l')) as [<-|Hne].
  - right. exists sess, (Some (Py.or_int roomId 0)). by rewrite lookup_insert_eq.
  - left. by rewrite lookup_insert_ne.
Qed.

Section WithEnv.
Context `{Env}.

Lemma handle_room_start_step now env w c roomId :
  heap_step w (handle_room_start now env w c roomId).
Proof.
  unfold handle_room_start.
  destruct (session_of_writer w c) as [[l sess]|]; [|apply heap_step_send].
  destruct (decide _); [apply heap_step_send|].
  destruct (MatchFacts._ensure_room_live_spec w
              (Py.or_int roomId (Py.or_int (room_id sess) 0)))
    as (R & -> & _).
  set (rid := Py.or_int roomId (Py.or_int (room_id sess) 0)) in *.
  assert (H1 : heap_step w (with_ROOMS R w)) by by apply heap_step_same.
  destruct (R !! rid) as [live|];
    [|apply (heap_step_trans _ _ _ H1), heap_step_send].
  destruct (decide _); [apply (heap_step_trans _ _ _ H1), heap_step_send|].
  set (w1 := with_ROOMS R w) in *.
  match goal with
  | |- context [match ?s with Some _ => _ | None => _send w1 c _ end] =>
      generalize s
  end.
  intros [reason|]; [|apply (heap_step_trans _ _ _ H1), heap_step_send].
  set (w2 := match reason with
             | Some r => _finish_match now w1 rid (Some (synthetic_result rid r))
             | None => w1
             end).
  assert (H2 : heap_step w w2).
  { apply (heap_step_trans _ _ _ H1). subst w2.
    destruct reason; [apply _finish_match_step|apply heap_step_refl]. }
  clearbody w2.
  destruct (Store.Room_get (db w2) rid) as [room_row|];
    [|apply (heap_step_trans _ _ _ H2), heap_step_send].
  destruct (decide _); [apply (heap_step_trans _ _ _ H2), heap_step_send|].
  destruct (Store.GameVersion_get_by_id _ _) as [v|];
    [|apply (heap_step_trans _ _ _ H2), heap_step_send].
  destruct (Manifest.load_manifest_from_dir _ _) as [err|[manifest raw]];
    [apply (heap_step_trans _ _ _ H2), heap_step_send|].
  destruct (se_port env) as [e|port];
    [apply (heap_step_trans _ _ _ H2), heap_step_send|].
  destruct (format_argv _ _) as [e|argv];
    [apply (heap_step_trans _ _ _ H2), heap_step_send|].
  destruct (se_spawn env) as [e|p].
  { apply (heap_step_trans _ _ _ H2). by apply heap_step_same. }
  rewrite MatchFacts.push_each_spec.
  apply (heap_step_trans _ _ _ H2). by apply heap_step_same.
Qed.

(** *** One session for each player *)

Record sessions_ok (w : world) : Prop := mkSessionsOk {
  so_session : forall c l, SESSIONS_BY_WRITER w !! c = Some l ->
    exists sess, heap w !! l = Some sess /\ writer sess = c /\
                 0 < player_id sess /\
                 SESSIONS_BY_PLAYER_ID w !! player_id sess = Some l;
  so_player : forall p l, SESSIONS_BY_PLAYER_ID w !! p = Some l ->
    exists sess, heap w !! l = Some sess /\ player_id sess = p;
  so_fresh : forall l, is_Some (heap w !! l) -> (l < next_loc w)%nat }.

Lemma sessions_ok_step w w' : heap_step w w' -> sessions_ok w -> sessions_ok w'.
Proof.
  intros [H1 H2 H3 H4] [I1 I2 I3]. split.
  - intros c l. rewrite H2, H3. intros Hc.
    destruct (I1 c l Hc) as (sess & Hh & Hw & Hpos & Hp).
    destruct (H4 l) as [Hl|(s0 & r & Hl & Hl')].
    + exists sess. by rewrite Hl.
    + rewrite Hh in Hl. injection Hl as <-.
      exists (set_room_id r sess). by rewrite Hl'.
  - intros p l. rewrite H3. intros Hp.
    destruct (I2 p l Hp) as (sess & Hh & Hid).
    destruct (H4 l) as [Hl|(s0 & r & Hl & Hl')].
    + exists sess. by rewrite Hl.
    + rewrite Hh in Hl. injection Hl as <-.
      exists (set_room_id r sess). by rewrite Hl'.
  - intros l Hl. rewrite H1. apply I3.
    destruct Hl as [x Hx].
    destruct (H4 l) as [Hl0|(s0 & r & Hl0 & _)]; [|by eexists].
    exists x. etrans; [symmetry; apply Hl0|apply Hx].
Qed.

Lemma handle_player_login_ok w c resp :
  sessions_ok w -> sessions_ok (handle_player_login w c resp).
Proof.
  intros HI. unfold handle_player_login.
  destruct resp as [[pid uname]|e];
    [|apply (sessions_ok_step w); [apply heap_step_send|assumption]].
  destruct (decide _) as [|Hpos];
    [apply (sessions_ok_step w); [apply heap_step_send|assumption]|].
  destruct (SESSIONS_BY_PLAYER_ID w !! _) as [l0|] eqn:Hp;
    [apply (sessions_ok_step w); [apply heap_step_send|assumption]|].
  eapply sessions_ok_step; [apply heap_step_send|].
  destruct HI as [I1 I2 I3].
  set (pid' := Py.or_int pid 0) in *.
  assert (Hnew : heap w !! next_loc w = None).
  { destruct (heap w !! next_loc w) eqn:Hh; [|done].
    assert (Hlt : (next_loc w < next_loc w)%nat) by (apply I3; by eexists). lia. }
  split; cbn [heap next_loc SESSIONS_BY_WRITER SESSIONS_BY_PLAYER_ID].
  - intros c' l. destruct (decide (c = c')) as [<-|Hne].
    + rewrite lookup_insert_eq. intros [= <-]. eexists.
      rewrite lookup_insert_eq. split; [reflexivity|].
      cbn [player_id writer]. rewrite lookup_insert_eq.
      repeat split. lia.
    + rewrite lookup_insert_ne by done. intros Hc.
      destruct (I1 c' l Hc) as (sess & Hh & Hw & Hpos' & Hp').
      exists sess.
      assert (l <> next_loc w) by (intros ->; congruence).
      assert (player_id sess <> pid') by (intros Heq; congruence).
      by rewrite !lookup_insert_ne.
  - intros p l. destruct (decide (pid' = p)) as [<-|Hne].
    + rewrite lookup_insert_eq. intros [= <-]. eexists.
      rewrite lookup_insert_eq. by split.
    + rewrite lookup_insert_ne by done. intros Hp'.
      destruct (I2 p l Hp') as (sess & Hh & Hid). exists sess.
      assert (l <> next_loc w) by (intros ->; congruence).
      by rewrite lookup_insert_ne.
  - intros l. destruct (decide (next_loc w = l)) as [<-|Hne]; [lia|].
    rewrite lookup_insert_ne by done. intros Hl. specialize (I3 l Hl). lia.
Qed.

Lemma _cleanup_connection_ok now w c notify :
  sessions_ok w -> sessions_ok (_cleanup_connection now w c notify).
Proof.
  intros HI. unfold _cleanup_connection.
  destruct (SESSIONS_BY_WRITER w !! c) as [l|] eqn:Hc.
  2:{ destruct notify; [|exact HI]. apply (sessions_ok_step w); [apply heap_step_send|assumption]. }
  destruct (so_session w HI c l Hc) as (sess & Hh & Hw & Hpos & Hp).
  cbn [db files heap next_loc SESSIONS_BY_WRITER SESSIONS_BY_PLAYER_ID ROOMS
       procs sent].
  rewrite Hh.
  set (w2 := mkWorld _ _ _ _ (delete c _) (delete (player_id sess) _) _ _ _).
  assert (H2 : sessions_ok w2).
  { destruct HI as [I1 I2 I3].
    split; subst w2; cbn [heap next_loc SESSIONS_BY_WRITER SESSIONS_BY_PLAYER_ID].
    - intros c' l'. destruct (decide (c = c')) as [<-|Hne].
      + by rewrite lookup_delete_eq.
      + rewrite lookup_delete_ne by done. intros Hc'.
        destruct (I1 c' l' Hc') as (sess' & Hh' & Hw' & Hpos' & Hp').
        exists sess'. repeat split; try done.
        rewrite lookup_delete_ne; [done|]. intros Heq.
        rewrite <- Heq, Hp in Hp'. injection Hp' as <-.
        rewrite Hh in Hh'. injection Hh' as <-. congruence.
    - intros p l'. destruct (decide (player_id sess = p)) as [<-|Hne].
      + by rewrite lookup_delete_eq.
      + rewrite lookup_delete_ne by done. apply I2.
    - exact I3. }
  assert (H3 : forall w', heap_step w2 w' ->
            sessions_ok (if notify
                         then _send w' c (Ok_ [("loggedOut", JBool true)])
                         else w')).
  { intros w' Hs. destruct notify.
    - apply (sessions_ok_step w2); [|exact H2].
      apply (heap_step_trans _ _ _ Hs), heap_step_send.
    - by apply (sessions_ok_step w2). }
  apply H3.
  destruct (room_id sess) as [rid|]; [|apply heap_step_refl].
  destruct (MatchFacts._ensure_room_live_spec w2 rid) as (R & -> & _).
  assert (H4 : heap_step w2 (with_ROOMS R w2)) by by apply heap_step_same.
  apply (heap_step_trans _ _ _ H4).
  eapply heap_step_trans; [|apply _handle_room_leave_step].
  destruct (R !! rid) as [live|]; [|apply heap_step_refl].
  destruct (bool_decide _); [apply _finish_match_step|apply heap_step_refl].
Qed.

Lemma exec_sessions_ok s r :
  sessions_ok (System.lobby s) -> sessions_ok (System.lobby (System.exec s r)).
Proof.
  intros HI.
  assert (Hdev : forall dw, sessions_ok (System.lobby (System.with_developer dw s))).
  { intros dw. apply (sessions_ok_step (System.lobby s)); [|assumption].
    by apply heap_step_same. }
  destruct r; cbn [System.exec]; try apply Hdev; cbn [System.lobby System.with_lobby].
  - by apply handle_player_login_ok.
  - by apply _cleanup_connection_ok.
  - by apply _cleanup_connection_ok.
  - apply (sessions_ok_step (System.lobby s)); [apply handle_room_create_step|assumption].
  - apply (sessions_ok_step (System.lobby s)); [apply handle_room_join_step|assumption].
  - apply (sessions_ok_step (System.lobby s)); [apply handle_room_leave_step|assumption].
  - apply (sessions_ok_step (System.lobby s)); [apply handle_room_start_step|assumption].
  - apply (sessions_ok_step (System.lobby s)); [apply handle_post_result_step|assumption].
  - apply (sessions_ok_step (System.lobby s)); [apply _watch_game_step|assumption].
  - apply (sessions_ok_step (System.lobby s)); [apply handle_review_upsert_step|assumption].
Qed.

Lemma reachable_sessions_ok s :
  System.reachable s -> sessions_ok (System.lobby s).
Proof.
  induction 1 as [|s r _ IH]; [|by apply exec_sessions_ok].
  split; cbn [System.lobby System.initial heap SESSIONS_BY_WRITER
                 SESSIONS_BY_PLAYER_ID next_loc].
  - intros c l Hc. by rewrite lookup_empty in Hc.
  - intros p l Hp. by rewrite lookup_empty in Hp.
  - intros l [x Hx]. by rewrite lookup_empty in Hx.
Qed.

End WithEnv.

End SessionFacts.

(** ** src/server/lobby_server.py: disconnecting, joining *)

Module ConnectionFacts.
Import Lobby.

(** [_finish_match] does not touch the sessions. *)
Lemma _finish_match_sessions now w r res :
  heap (_finish_match now w r res) = heap w /\
  SESSIONS_BY_WRITER (_finish_match now w r res) = SESSIONS_BY_WRITER w /\
  SESSIONS_BY_PLAYER_ID (_finish_match now w r res) = SESSIONS_BY_PLAYER_ID w.
Proof.
  unfold _finish_match.
  destruct (MatchFacts._ensure_room_live_spec w r) as (R & -> & _).
  destruct (R !! r) as [live|]; [|done].
  destruct (_ && negb (result_truthy res)); [done|].
  destruct (MatchFacts.stop_process_spec (with_ROOMS R w) live) as [p ->].
  destruct (negb (bool_decide (status live = "playing")) && _ && _).
  - destruct res as [r0|]; [|done]. by destruct (result_truthy (Some r0)).
  - rewrite MatchFacts.push_each_spec.
    destruct res as [r0|]; [destruct (result_truthy (Some r0))|]; done.
Qed.

(** What [_cleanup_connection] leaves of a session. *)
Lemma disconnected now w c notify l sess :
  SESSIONS_BY_WRITER w !! c = Some l ->
  heap w !! l = Some sess ->
  let w' := _cleanup_connection now w c notify in
  SESSIONS_BY_WRITER w' = delete c (SESSIONS_BY_WRITER w) /\
  SESSIONS_BY_PLAYER_ID w' = delete (player_id sess) (SESSIONS_BY_PLAYER_ID w) /\
  forall rid, room_id sess = Some rid -> 0 < rid -> 0 < player_id sess ->
    Store.is_member (db w') rid (player_id sess) = false /\
    heap w' !! l = Some (set_room_id None sess).
Proof.
  intros Hc Hh w'. subst w'. unfold _cleanup_connection. rewrite Hc.
  cbn [db files heap next_loc SESSIONS_BY_WRITER SESSIONS_BY_PLAYER_ID ROOMS
       procs sent].
  rewrite Hh.
  set (w2 := mkWorld _ _ _ _ (delete c _) (delete (player_id sess) _) _ _ _).
  assert (Hout : forall w3 : world,
            SESSIONS_BY_WRITER w3 = SESSIONS_BY_WRITER w2 ->
            SESSIONS_BY_PLAYER_ID w3 = SESSIONS_BY_PLAYER_ID w2 ->
            (forall rid, room_id sess = Some rid -> 0 < rid -> 0 < player_id sess ->
               Store.is_member (db w3) rid (player_id sess) = false /\
               heap w3 !! l = Some (set_room_id None sess)) ->
            let w' := if notify then _send w3 c (Ok_ [("loggedOut", JBool true)])
                      else w3 in
            SESSIONS_BY_WRITER w' = delete c (SESSIONS_BY_WRITER w) /\
            SESSIONS_BY_PLAYER_ID w' = delete (player_id sess) (SESSIONS_BY_PLAYER_ID w) /\
            forall rid, room_id sess = Some rid -> 0 < rid -> 0 < player_id sess ->
              Store.is_member (db w') rid (player_id sess) = false /\
              heap w' !! l = Some (set_room_id None sess)).
  { intros w3 H1 H2 H3. by destruct notify. }
  destruct (room_id sess) as [rid|] eqn:Hroom.
  2:{ apply Hout; try done. }
  destruct (MatchFacts._ensure_room_live_spec w2 rid) as (R & -> & _).
  set (w3 := match R !! rid with Some _ => _ | None => _ end).
  assert (H3 : heap w3 = heap w /\ SESSIONS_BY_WRITER w3 = SESSIONS_BY_WRITER w2 /\
               SESSIONS_BY_PLAYER_ID w3 = SESSIONS_BY_PLAYER_ID w2).
  { subst w3. destruct (R !! rid) as [live|]; [|done].
    destruct (bool_decide _); [|done].
    destruct (_finish_match_sessions now (with_ROOMS R w2) rid
                (Some (synthetic_result rid "disconnect"))) as (E1 & E2 & E3).
    by rewrite E1, E2, E3. }
  destruct H3 as (E1 & E2 & E3).
  assert (Hl : heap w3 !! l = Some sess) by by rewrite E1.
  apply Hout.
  - by rewrite (SessionFacts.hs_writer _ _
                  (SessionFacts._handle_room_leave_step now w3 l true)).
  - by rewrite (SessionFacts.hs_player _ _
                  (SessionFacts._handle_room_leave_step now w3 l true)).
  - intros rid' [= <-] Hrid Hpid.
    by destruct (RoomFacts.left_room now w3 l sess rid true Hl Hroom Hrid Hpid eq_refl)
      as (? & ? & _).
Qed.

(** [room_leave] during a match is refused. *)
Lemma leave_refused now w c l sess rid live :
  session_of_writer w c = Some (l, sess) ->
  room_id sess = Some rid -> rid <> 0 ->
  (_ensure_room_live w rid).2 = Some live ->
  status live = "playing" ->
  handle_room_leave now w c
  = _send (_ensure_room_live w rid).1 c (Err_ "room_playing" []).
Proof.
  intros Hs Hroom Hrid Hlive Hst. unfold handle_room_leave.
  rewrite Hs, Hroom. destruct (decide (rid = 0)); [done|].
  destruct (_ensure_room_live w rid) as [w1 o]. cbn [fst snd] in *. subst o.
  by rewrite (bool_decide_eq_true_2 _ Hst).
Qed.

(** *** [sorted(set(...))] *)

Lemma insert_sorted_elem x y l : y ∈ Py.insert_sorted x l <-> y = x \/ y ∈ l.
Proof.
  induction l as [|z l IH]; cbn [Py.insert_sorted].
  - rewrite list_elem_of_singleton. split; [auto|]. intros [?|Hn]; [done|].
    by apply not_elem_of_nil in Hn.
  - destruct (decide (x < z)); [by rewrite elem_of_cons|].
    destruct (decide (x = z)) as [->|].
    + rewrite elem_of_cons. tauto.
    + rewrite !elem_of_cons, IH. tauto.
Qed.

Lemma sorted_set_elem y l : y ∈ Py.sorted_set l <-> y ∈ l.
Proof.
  unfold Py.sorted_set. induction l as [|x l IH]; [done|].
  cbn [foldr]. rewrite insert_sorted_elem, elem_of_cons, IH. done.
Qed.

Lemma insert_sorted_sorted x l :
  StronglySorted Z.lt l -> StronglySorted Z.lt (Py.insert_sorted x l).
Proof.
  induction l as [|z l IH]; intros Hs; cbn [Py.insert_sorted].
  - repeat constructor.
  - apply StronglySorted_inv in Hs as [Hs Hz].
    destruct (decide (x < z)).
    + constructor; [by constructor|]. constructor; [done|].
      eapply Forall_impl; [exact Hz|]. intros a Ha. cbn in Ha. lia.
    + destruct (decide (x = z)); [by constructor|].
      constructor; [by apply IH|].
      apply Forall_forall. intros a Ha. apply insert_sorted_elem in Ha as [->|Ha].
      * lia.
      * rewrite Forall_forall in Hz. by apply Hz.
Qed.

Lemma sorted_set_sorted l : StronglySorted Z.lt (Py.sorted_set l).
Proof.
  unfold Py.sorted_set. induction l as [|x l IH]; [constructor|].
  cbn [foldr]. by apply insert_sorted_sorted.
Qed.

(** *** A join that succeeds *)

Lemma Room_add_member_new now d rid pid :
  0 < rid -> 0 < pid -> Store.is_member d rid pid = false ->
  Store.RoomMember_rows (Store.Room_add_member now d rid pid).1
  = Store.RoomMember_rows d ++ [Store.mkRoomMember rid pid now] /\
  exists u, Store.Room_add_member now d rid pid
            = ((Store.Room_add_member now d rid pid).1, Store.OK u).
Proof.
  intros Hrid Hpid Hm. unfold Store.Room_add_member.
  rewrite !bool_decide_eq_false_2 by lia. cbn [orb fst]. rewrite Hm.
  split; [reflexivity|]. by exists ().
Qed.

Lemma is_member_players d rid pid :
  Store.is_member d rid pid = true <-> pid ∈ Store.room_players d rid.
Proof.
  unfold Store.is_member, Store.room_players.
  assert (Hperm : forall l : list Store.RoomMember,
             forall m, m ∈ Store.order_by_joinedAt l <-> m ∈ l).
  { unfold Store.order_by_joinedAt. induction l as [|x l IH]; intros m; [done|].
    cbn [foldr]. rewrite elem_of_cons, <- IH.
    generalize (foldr Store.insert_by_joinedAt [] l). intros k.
    induction k as [|y k IHk]; cbn [Store.insert_by_joinedAt].
    - rewrite list_elem_of_singleton. split; [auto|]. intros [?|Hn]; [done|].
      by apply not_elem_of_nil in Hn.
    - destruct (decide _); [by rewrite elem_of_cons|].
      rewrite !elem_of_cons, IHk. tauto. }
  rewrite StoreFacts.elem_of_map. setoid_rewrite Hperm.
  unfold Store.members_of. setoid_rewrite list_elem_of_filter.
  rewrite existsb_exists. split.
  - intros (m & Hin & Hm). apply andb_true_iff in Hm as [H1 H2].
    apply bool_decide_eq_true in H1, H2. apply list_elem_of_In in Hin.
    by exists m.
  - intros (m & -> & Hr & Hin). exists m. apply list_elem_of_In in Hin.
    split; [done|]. by rewrite !bool_decide_eq_true_2.
Qed.

(** Writing a room into a session leaves its connection as it was, so
    the receivers of a push are the same before and after. *)
Lemma receivers_set_room_id by_player (h : gmap loc PlayerSession) l sess r ps :
  h !! l = Some sess ->
  MatchFacts.receivers_in by_player (<[l := set_room_id r sess]> h) ps
  = MatchFacts.receivers_in by_player h ps.
Proof.
  intros Hl. unfold MatchFacts.receivers_in.
  induction ps as [|u ps IH]; [done|].
  cbn [omap list_omap]. rewrite IH.
  assert (MatchFacts.receiver_in by_player (<[l := set_room_id r sess]> h) u
          = MatchFacts.receiver_in by_player h u) as ->; [|done].
  unfold MatchFacts.receiver_in.
  destruct (by_player !! u) as [l'|]; [|done].
  destruct (decide (l' = l)) as [->|Hne].
  - etrans; [apply (f_equal (fmap writer)), lookup_insert_eq|].
    symmetry. etrans; [apply (f_equal (fmap writer)), Hl|]. done.
  - apply (f_equal (fmap writer)). by apply lookup_insert_ne.
Qed.

(** [handle_room_join] by a player who is not yet a member, at a room
    with a place left. *)
Lemma joined now w c l sess rid info live :
  session_of_writer w c = Some (l, sess) ->
  room_id sess = None ->
  0 < player_id sess ->
  ROOMS w !! rid = Some live ->
  status live <> "playing" ->
  Store.Room_get (db w) rid = Store.OK info ->
  player_id sess ∉ Store.ri_players info ->
  Z.of_nat (length (Store.ri_players info))
    < Py.or_int (Some (Store.ri_maxPlayers info)) 2 ->
  let ps := Py.sorted_set (Store.ri_players info ++ [player_id sess]) in
  handle_room_join now w c (Some rid)
  = mkWorld (Store.Room_add_member now (db w) rid (player_id sess)).1
      (files w) (<[l := set_room_id (Some rid) sess]> (heap w)) (next_loc w)
      (SESSIONS_BY_WRITER w) (SESSIONS_BY_PLAYER_ID w)
      (<[rid := set_players ps live]> (ROOMS w)) (procs w)
      ((sent w ++ [(c, Ok_ [("roomId", JInt rid); ("joined", JBool true)])])
       ++ MatchFacts.pushed "player_joined"
            [("roomId", JInt rid); ("playerId", JInt (player_id sess))]
            (MatchFacts.receivers w (filter (fun u => u <> player_id sess) ps))).
Proof.
  intros Hs Hroom Hpid Hlive Hst Hget Hnot Hcap ps.
  pose proof (StoreFacts.Room_get_OK _ _ _ Hget) as [Hrid Hinfo].
  assert (Hmem : Store.is_member (db w) rid (player_id sess) = false).
  { destruct (Store.is_member (db w) rid (player_id sess)) eqn:Hm; [|done].
    apply is_member_players in Hm. destruct Hnot.
    destruct Hinfo as (r & g & v & _ & _ & _ & ->). exact Hm. }
  destruct (Room_add_member_new now (db w) rid (player_id sess) Hrid Hpid Hmem)
    as (_ & u & Hadd).
  unfold handle_room_join, _ensure_room_live. rewrite Hs, Hroom.
  rewrite PyFacts.or_int_Some_pos by lia.
  destruct (decide (rid <= 0)); [lia|]. rewrite Hlive.
  rewrite (bool_decide_eq_false_2 _ Hst), Hget.
  rewrite (bool_decide_eq_false_2 _ Hnot).
  destruct (decide _); [lia|]. rewrite Hadd.
  rewrite MatchFacts.push_each_spec. unfold MatchFacts.receivers.
  cbn [db files heap next_loc SESSIONS_BY_WRITER SESSIONS_BY_PLAYER_ID ROOMS procs
       sent _send with_db with_heap with_ROOMS with_sent players set_players fst].
  rewrite (receivers_set_room_id _ (heap w) l sess)
    by apply (LobbyFacts.session_of_writer_Some _ _ _ _ Hs).
  reflexivity.
Qed.

End ConnectionFacts.

(** ** The examples continued: every state of them is reachable *)

Module SeasonFacts.

Lemma season_reachable : @System.reachable Demo.demo_env Season.season_state.
Proof. apply SystemFacts.reachable_run. constructor. Qed.

Lemma match_reachable : @System.reachable Demo.demo_env Season.match_state.
Proof. apply SystemFacts.reachable_run. constructor. Qed.

Lemma uploading_reachable : @System.reachable Demo.demo_env Season.uploading_state.
Proof. apply SystemFacts.reachable_run. constructor. Qed.

End SeasonFacts.

(** ** The tables of every reachable state *)

(** X5. In every reachable state of the platform the version table is well
    formed: no two rows share a key, no two rows share (game, version
    name), and every row has 1 <= minPlayers <= maxPlayers, a client type
    that is cli or gui, and a version name that is not empty. *)
Theorem versions_wellformed `{Env} (s : System.state) :
  System.reachable s ->
  let rows := Store.GameVersion_rows (Lobby.db (System.lobby s)) in
  NoDup (map Store.gv_id rows) /\
  NoDup (map CatalogueFacts.version_key rows) /\
  forall v, v ∈ rows ->
    1 <= Store.gv_minPlayers v <= Store.gv_maxPlayers v /\
    (Store.gv_clientType v = "cli" \/ Store.gv_clientType v = "gui") /\
    Py.truthy (Store.gv_version v) = true.
Proof.
  intros Hr rows.
  destruct (CatalogueFacts.reachable_versions_ok s Hr) as [_ _ Hk Hu Hrange Hc Hn].
  split; [exact Hk|]. split; [exact Hu|].
  intros v Hv. split; [by apply Hrange|]. split; [by apply Hc|by apply Hn].
Qed.

(** Version 1.0.0 of [g1] in the continued example. *)
Lemma versions_wellformed_witness :
  exists v,
    v ∈ Store.GameVersion_rows (Lobby.db (System.lobby Season.season_state)) /\
    Store.gv_version v = "1.0.0" /\
    1 <= Store.gv_minPlayers v <= Store.gv_maxPlayers v /\
    (Store.gv_clientType v = "cli" \/ Store.gv_clientType v = "gui") /\
    Py.truthy (Store.gv_version v) = true.
Proof.
  destruct (@versions_wellformed Demo.demo_env Season.season_state
              SeasonFacts.season_reachable) as (_ & _ & Hv).
  assert (Hrows : exists v,
             Store.GameVersion_rows (Lobby.db (System.lobby Season.season_state)) = [v]
             /\ Store.gv_version v = "1.0.0").
  { vm_compute. eexists. split; reflexivity. }
  destruct Hrows as (v & Hrows & Hname).
  exists v. split; [rewrite Hrows; apply list_elem_of_here|].
  split; [exact Hname|]. apply Hv. rewrite Hrows. apply list_elem_of_here.
Defined.

(** X6. In every reachable state every reference of the store resolves:
    the game of a version is a row of the game table; the game of a room is
    a row of the game table and the version of the room is a version of
    that very game; the game of a review is a row of the game table. *)
Theorem references_resolve `{Env} (s : System.state) :
  System.reachable s ->
  let d := Lobby.db (System.lobby s) in
  (forall v, v ∈ Store.GameVersion_rows d ->
     Store.gv_gameFk v ∈ CatalogueFacts.game_keys d) /\
  (forall r, r ∈ Store.Room_rows d ->
     Store.r_gameFk r ∈ CatalogueFacts.game_keys d /\
     CatalogueFacts.version_of d (Store.r_gameVersionFk r) (Store.r_gameFk r)) /\
  (forall r, r ∈ Store.Review_rows d ->
     Store.rv_gameFk r ∈ CatalogueFacts.game_keys d).
Proof.
  intros Hr d.
  destruct (CatalogueFacts.reachable_refs_ok s Hr) as [Hv Hroom Hrev].
  by repeat split; [apply Hv|apply Hroom|apply Hroom|apply Hrev].
Qed.

(** The second room of the continued example, opened by player 4. *)
Lemma references_resolve_witness :
  exists r,
    r ∈ Store.Room_rows (Lobby.db (System.lobby Season.season_state)) /\
    Store.r_id r = 2 /\
    Store.r_gameFk r
      ∈ CatalogueFacts.game_keys (Lobby.db (System.lobby Season.season_state)) /\
    CatalogueFacts.version_of (Lobby.db (System.lobby Season.season_state))
      (Store.r_gameVersionFk r) (Store.r_gameFk r).
Proof.
  destruct (@references_resolve Demo.demo_env Season.season_state
              SeasonFacts.season_reachable) as (_ & Hroom & _).
  assert (Hrows : exists r0 r,
             Store.Room_rows (Lobby.db (System.lobby Season.season_state)) = [r0; r]
             /\ Store.r_id r = 2).
  { vm_compute. do 2 eexists. split; reflexivity. }
  destruct Hrows as (r0 & r & Hrows & Hid).
  assert (Hin : r ∈ Store.Room_rows (Lobby.db (System.lobby Season.season_state))).
  { rewrite Hrows. apply list_elem_of_further, list_elem_of_here. }
  exists r. split; [exact Hin|]. split; [exact Hid|]. by apply Hroom.
Defined.

(** X7. In every reachable state the review table is well formed: there is
    at most one review for each (game, player); every rating is between 1
    and 5; and for every review the probe of [has_player_played] succeeds
    on a row of the match log of that game. *)
Theorem reviews_wellformed `{Env} (s : System.state) :
  System.reachable s ->
  let d := Lobby.db (System.lobby s) in
  NoDup (map TableFacts.review_key (Store.Review_rows d)) /\
  forall r, r ∈ Store.Review_rows d ->
    1 <= Store.rv_rating r <= 5 /\
    0 < Store.rv_playerId r /\
    TableFacts.probed (Store.MatchLog_rows d) r.
Proof.
  intros Hr d.
  destruct (TableFacts.reachable_reviews_ok s Hr) as [Hrat Hpl Hu Hp].
  split; [exact Hu|]. intros r Hin.
  split; [by apply Hrat|]. split; [by apply Hpl|by apply Hp].
Qed.

(** The review of player 9 in the continued example. *)
Lemma reviews_wellformed_witness :
  exists r,
    r ∈ Store.Review_rows (Lobby.db (System.lobby Season.season_state)) /\
    Store.rv_playerId r = 9 /\
    1 <= Store.rv_rating r <= 5 /\
    0 < Store.rv_playerId r /\
    TableFacts.probed
      (Store.MatchLog_rows (Lobby.db (System.lobby Season.season_state))) r.
Proof.
  destruct (@reviews_wellformed Demo.demo_env Season.season_state
              SeasonFacts.season_reachable) as (_ & Hrev).
  assert (Hrows : exists r,
             Store.Review_rows (Lobby.db (System.lobby Season.season_state)) = [r]
             /\ Store.rv_playerId r = 9).
  { vm_compute. eexists. split; reflexivity. }
  destruct Hrows as (r & Hrows & Hid).
  exists r. split; [rewrite Hrows; apply list_elem_of_here|].
  split; [exact Hid|]. apply Hrev. rewrite Hrows. apply list_elem_of_here.
Defined.

(** X8. The store only grows where it records history.  Whatever requests
    the platform serves, from any state: the match log before is an initial
    segment of the match log after, the version table before is an initial
    segment of the version table after, and so is the game table, read by
    key, game id and developer; no request removes or rewrites a logged
    match or a published version, or re-assigns a game. *)
Theorem history_append_only `{Env} (s : System.state) (rs : list System.request) :
  let d0 := Lobby.db (System.lobby s) in
  let d := Lobby.db (System.lobby (System.run s rs)) in
  Store.MatchLog_rows d0 `prefix_of` Store.MatchLog_rows d /\
  Store.GameVersion_rows d0 `prefix_of` Store.GameVersion_rows d /\
  map HistoryFacts.game_identity (Store.Game_rows d0)
    `prefix_of` map HistoryFacts.game_identity (Store.Game_rows d).
Proof. exact (HistoryFacts.run_continues s rs). Qed.

(** ** Sessions *)

(** X9. In every reachable state a player has one session: the session of
    a connection names that connection and a positive player id, two
    connections with sessions of the same player are one connection, and a
    login as a player who has a session is answered [already_online] and
    changes nothing else. *)
Theorem one_session_per_player `{Env} (s : System.state) :
  System.reachable s ->
  let w := System.lobby s in
  (forall c l sess, Lobby.session_of_writer w c = Some (l, sess) ->
     Lobby.writer sess = c /\ 0 < Lobby.player_id sess /\
     Lobby.SESSIONS_BY_PLAYER_ID w !! Lobby.player_id sess = Some l) /\
  (forall c1 c2 l1 l2 s1 s2,
     Lobby.session_of_writer w c1 = Some (l1, s1) ->
     Lobby.session_of_writer w c2 = Some (l2, s2) ->
     Lobby.player_id s1 = Lobby.player_id s2 -> c1 = c2) /\
  (forall c l sess c' name,
     Lobby.session_of_writer w c = Some (l, sess) ->
     Lobby.handle_player_login w c' (Store.OK (Some (Lobby.player_id sess), name))
     = Lobby._send w c' (Err_ "already_online" [])).
Proof.
  intros Hr w.
  destruct (SessionFacts.reachable_sessions_ok s Hr) as [Hs _ _].
  assert (Hone : forall c l sess, Lobby.session_of_writer w c = Some (l, sess) ->
     Lobby.writer sess = c /\ 0 < Lobby.player_id sess /\
     Lobby.SESSIONS_BY_PLAYER_ID w !! Lobby.player_id sess = Some l).
  { intros c l sess Hc.
    apply LobbyFacts.session_of_writer_Some in Hc as [Hc Hl].
    destruct (Hs c l Hc) as (sess' & Hl' & Hw & Hp & Hby).
    assert (Hss : Some sess' = Some sess) by (etrans; [symmetry; exact Hl'|exact Hl]).
    injection Hss as ->. auto. }
  split; [exact Hone|]. split.
  - intros c1 c2 l1 l2 s1 s2 H1 H2 Heq.
    pose proof (LobbyFacts.session_of_writer_Some _ _ _ _ H1) as [_ Hh1].
    pose proof (LobbyFacts.session_of_writer_Some _ _ _ _ H2) as [_ Hh2].
    destruct (Hone _ _ _ H1) as (Hw1 & _ & Hb1).
    destruct (Hone _ _ _ H2) as (Hw2 & _ & Hb2).
    rewrite Heq in Hb1.
    assert (Hl : Some l1 = Some l2) by (etrans; [symmetry; exact Hb1|exact Hb2]).
    injection Hl as ->.
    assert (Hs12 : Some s1 = Some s2) by (etrans; [symmetry; exact Hh1|exact Hh2]).
    injection Hs12 as ->. by rewrite <- Hw1, <- Hw2.
  - intros c l sess c' name Hc.
    destruct (Hone _ _ _ Hc) as (_ & Hp & Hby).
    unfold Lobby.handle_player_login.
    rewrite PyFacts.or_int_Some_pos by lia.
    destruct (decide (Lobby.player_id sess <= 0)); [lia|].
    by rewrite Hby.
Qed.

(** Player 9 of the continued example tries a second login, on
    connection 30. *)
Lemma one_session_per_player_witness :
  Lobby.handle_player_login (System.lobby Season.season_state) 30%nat
    (Store.OK (Some 9, Some "ian"))
  = Lobby._send (System.lobby Season.season_state) 30%nat (Err_ "already_online" []).
Proof.
  destruct (@one_session_per_player Demo.demo_env Season.season_state
              SeasonFacts.season_reachable) as (_ & _ & Hlogin).
  apply (Hlogin 11%nat 1%nat (Lobby.mkPlayerSession 9 "ian" 11%nat (Some 1))
           30%nat (Some "ian")).
  vm_compute. reflexivity.
Defined.

(** ** Rooms *)

(** X10. When the host leaves a cached room in which members remain (and
    the leave is not refused by a running match), [_handle_room_leave]
    makes the first of the remaining members of the cached list the host,
    in the cache and in the store, takes the leaver out of the store and
    of the cached list, empties the room of the session, and pushes
    [host_changed] and then [player_left] to the remaining members; it
    changes nothing else. *)
Theorem host_handover (now : Z) (w : Lobby.world) (l : Lobby.loc)
    (sess : Lobby.PlayerSession) (rid : Z) (live : Lobby.RoomLive) (force : bool)
    (new_host : Z) (rest : list Z) :
  Lobby.heap w !! l = Some sess ->
  Lobby.room_id sess = Some rid ->
  Lobby.ROOMS w !! rid = Some live ->
  negb force && bool_decide (Lobby.status live = "playing") = false ->
  Lobby.host_player_id live = Lobby.player_id sess ->
  RoomFacts.remaining (Lobby.player_id sess) live = new_host :: rest ->
  Lobby._handle_room_leave now w l force
  = Lobby.mkWorld
      (Store.Room_set_host now
         (Store.Room_remove_member now (Lobby.db w) rid (Lobby.player_id sess)).1
         rid new_host).1
      (Lobby.files w) (<[l := Lobby.set_room_id None sess]> (Lobby.heap w))
      (Lobby.next_loc w) (Lobby.SESSIONS_BY_WRITER w) (Lobby.SESSIONS_BY_PLAYER_ID w)
      (<[rid := Lobby.set_host new_host (Lobby.set_players (new_host :: rest) live)]>
         (Lobby.ROOMS w))
      (Lobby.procs w)
      ((Lobby.sent w
        ++ MatchFacts.pushed "host_changed"
             [("roomId", JInt rid); ("hostPlayerId", JInt new_host)]
             (MatchFacts.receivers w (new_host :: rest)))
        ++ MatchFacts.pushed "player_left"
             [("roomId", JInt rid); ("playerId", JInt (Lobby.player_id sess))]
             (MatchFacts.receivers w (new_host :: rest))) /\
  (0 < rid -> 0 < new_host ->
   forall r, r ∈ Store.Room_rows (Lobby.db (Lobby._handle_room_leave now w l force)) ->
     Store.r_id r = rid -> Store.r_hostPlayerId r = new_host).
Proof.
  intros Hh Hroom Hlive Hguard Hhost Hps.
  pose proof (RoomFacts.host_leaves now w l sess rid live force new_host rest
                Hh Hroom Hlive Hguard Hhost Hps) as Hw.
  split; [exact Hw|].
  intros Hrid Hnew r. rewrite Hw. cbn [Lobby.db].
  by apply RoomFacts.Room_set_host_host.
Qed.

(** The host, player 5, leaves the room of three of the examples: player 2
    is the host afterwards. *)
Lemma host_handover_witness :
  Lobby.ROOMS (Lobby._handle_room_leave 1003 Demo.room_of_three 0%nat false) !! 1
  = Some (Season.waiting_room 2 [2; 9]) /\
  forall r,
    r ∈ Store.Room_rows
          (Lobby.db (Lobby._handle_room_leave 1003 Demo.room_of_three 0%nat false)) ->
    Store.r_id r = 1 -> Store.r_hostPlayerId r = 2.
Proof.
  destruct (host_handover 1003 Demo.room_of_three 0%nat Season.eve 1
              (Season.waiting_room 5 [2; 5; 9]) false 2 [9]) as [Hw Hhost];
    try (vm_compute; reflexivity).
  split; [|apply Hhost; lia].
  rewrite Hw. cbn [Lobby.ROOMS]. etrans; [apply lookup_insert_eq|]. reflexivity.
Defined.

(** X11. [room_leave] during a match is refused: the player whose room is
    cached as playing is answered [room_playing], and neither the store nor
    any session changes. *)
Theorem leave_refused_while_playing (now : Z) (w : Lobby.world) (c : Lobby.conn)
    (l : Lobby.loc) (sess : Lobby.PlayerSession) (rid : Z) (live : Lobby.RoomLive) :
  Lobby.session_of_writer w c = Some (l, sess) ->
  Lobby.room_id sess = Some rid -> rid <> 0 ->
  (Lobby._ensure_room_live w rid).2 = Some live ->
  Lobby.status live = "playing" ->
  let w' := Lobby.handle_room_leave now w c in
  w' = Lobby._send (Lobby._ensure_room_live w rid).1 c (Err_ "room_playing" []) /\
  Lobby.db w' = Lobby.db w /\
  Lobby.heap w' = Lobby.heap w /\
  Lobby.session_of_writer w' c = Some (l, sess).
Proof.
  intros Hs Hroom Hrid Hlive Hst w'.
  pose proof (ConnectionFacts.leave_refused now w c l sess rid live
                Hs Hroom Hrid Hlive Hst) as Hw.
  subst w'. rewrite Hw.
  destruct (MatchFacts._ensure_room_live_spec w rid) as (R & HR & _).
  rewrite HR. cbn [fst]. split; [done|]. split; [done|]. split; [done|].
  exact Hs.
Qed.

(** Player 12 of the examples asks to leave while the match of the solo
    room runs. *)
Lemma leave_refused_while_playing_witness :
  Lobby.handle_room_leave 2002 Demo.solo_playing 20%nat
  = Lobby._send (Lobby._ensure_room_live Demo.solo_playing 1).1 20%nat
      (Err_ "room_playing" []) /\
  Lobby.db (Lobby.handle_room_leave 2002 Demo.solo_playing 20%nat)
  = Lobby.db Demo.solo_playing.
Proof.
  destruct (leave_refused_while_playing 2002 Demo.solo_playing 20%nat 0%nat
              Season.liz 1 Season.playing_room) as (Hw & Hdb & _);
    try (vm_compute; reflexivity).
  - discriminate.
  - split; [exact Hw|exact Hdb].
Defined.

(** X12. A join that is accepted.  A player with a session and no room who
    joins a cached room that is not playing, of which the store lists the
    members, is not one of them, and there is a place left: the store gets
    the member, the session gets the room, the cached list becomes the
    sorted list without duplicates of the stored members and the joiner,
    the joiner is answered [joined] and every other member with a session
    is pushed [player_joined]; nothing else changes. *)
Theorem join_accepted (now : Z) (w : Lobby.world) (c : Lobby.conn) (l : Lobby.loc)
    (sess : Lobby.PlayerSession) (rid : Z) (info : Store.RoomInfo)
    (live : Lobby.RoomLive) :
  Lobby.session_of_writer w c = Some (l, sess) ->
  Lobby.room_id sess = None ->
  0 < Lobby.player_id sess ->
  Lobby.ROOMS w !! rid = Some live ->
  Lobby.status live <> "playing" ->
  Store.Room_get (Lobby.db w) rid = Store.OK info ->
  Lobby.player_id sess ∉ Store.ri_players info ->
  Z.of_nat (length (Store.ri_players info))
    < Py.or_int (Some (Store.ri_maxPlayers info)) 2 ->
  let ps := Py.sorted_set (Store.ri_players info ++ [Lobby.player_id sess]) in
  Lobby.handle_room_join now w c (Some rid)
  = Lobby.mkWorld
      (Store.Room_add_member now (Lobby.db w) rid (Lobby.player_id sess)).1
      (Lobby.files w) (<[l := Lobby.set_room_id (Some rid) sess]> (Lobby.heap w))
      (Lobby.next_loc w) (Lobby.SESSIONS_BY_WRITER w) (Lobby.SESSIONS_BY_PLAYER_ID w)
      (<[rid := Lobby.set_players ps live]> (Lobby.ROOMS w)) (Lobby.procs w)
      ((Lobby.sent w ++ [(c, Ok_ [("roomId", JInt rid); ("joined", JBool true)])])
       ++ MatchFacts.pushed "player_joined"
            [("roomId", JInt rid); ("playerId", JInt (Lobby.player_id sess))]
            (MatchFacts.receivers w (filter (fun u => u <> Lobby.player_id sess) ps))) /\
  StronglySorted Z.lt ps /\
  (forall u, u ∈ ps <-> u ∈ Store.ri_players info \/ u = Lobby.player_id sess) /\
  Store.is_member
    (Store.Room_add_member now (Lobby.db w) rid (Lobby.player_id sess)).1
    rid (Lobby.player_id sess) = true.
Proof.
  intros Hs Hroom Hpid Hlive Hst Hget Hnot Hcap ps.
  split; [by apply (ConnectionFacts.joined now w c l sess rid info live)|].
  split; [apply ConnectionFacts.sorted_set_sorted|]. split.
  - intros u. subst ps. rewrite ConnectionFacts.sorted_set_elem, elem_of_app.
    by rewrite list_elem_of_singleton.
  - pose proof (StoreFacts.Room_get_OK _ _ _ Hget) as [Hrid Hinfo].
    assert (Hmem : Store.is_member (Lobby.db w) rid (Lobby.player_id sess) = false).
    { destruct (Store.is_member (Lobby.db w) rid (Lobby.player_id sess)) eqn:Hm; [|done].
      apply ConnectionFacts.is_member_players in Hm. destruct Hnot.
      destruct Hinfo as (r & g & v & _ & _ & _ & ->). exact Hm. }
    destruct (ConnectionFacts.Room_add_member_new now (Lobby.db w) rid
                (Lobby.player_id sess) Hrid Hpid Hmem) as (Hrows & _).
    unfold Store.is_member. rewrite Hrows, existsb_app.
    cbn [existsb Store.m_roomId Store.m_playerId].
    rewrite !bool_decide_eq_true_2 by reflexivity.
    apply orb_true_r.
Qed.

(** Player 9 joins the room that player 5 has opened. *)
Lemma join_accepted_witness :
  Lobby.ROOMS (Lobby.handle_room_join 1001 Season.opened 11%nat (Some 1)) !! 1
  = Some (Season.waiting_room 5 [5; 9]) /\
  StronglySorted Z.lt (Py.sorted_set ([5] ++ [9])).
Proof.
  destruct (join_accepted 1001 Season.opened 11%nat 1%nat Season.ian 1
              Season.opened_info (Season.waiting_room 5 [5])) as (Hw & Hsorted & _);
    try (vm_compute; reflexivity).
  - vm_compute. discriminate.
  - vm_compute. intros Hin. apply elem_of_cons in Hin as [Hin|Hin]; [discriminate|].
    by apply not_elem_of_nil in Hin.
  - split; [|exact Hsorted].
    rewrite Hw. cbn [Lobby.ROOMS]. etrans; [apply lookup_insert_eq|].
    vm_compute. reflexivity.
Defined.

(** X13. A connection that goes away.  When [_cleanup_connection] finds
    the session of the connection, the connection and the player are taken
    out of both session tables (so the player can log in again); and if
    the session was in a room, the player is no member of that room in the
    store afterwards and the session object is in no room. *)
Theorem disconnect_cleans_up (now : Z) (w : Lobby.world) (c : Lobby.conn)
    (notify : bool) (l : Lobby.loc) (sess : Lobby.PlayerSession) :
  Lobby.SESSIONS_BY_WRITER w !! c = Some l ->
  Lobby.heap w !! l = Some sess ->
  let w' := Lobby._cleanup_connection now w c notify in
  Lobby.SESSIONS_BY_WRITER w' = delete c (Lobby.SESSIONS_BY_WRITER w) /\
  Lobby.SESSIONS_BY_PLAYER_ID w'
  = delete (Lobby.player_id sess) (Lobby.SESSIONS_BY_PLAYER_ID w) /\
  Lobby.session_of_writer w' c = None /\
  (forall rid, Lobby.room_id sess = Some rid -> 0 < rid -> 0 < Lobby.player_id sess ->
     Store.is_member (Lobby.db w') rid (Lobby.player_id sess) = false /\
     Lobby.heap w' !! l = Some (Lobby.set_room_id None sess)).
Proof.
  intros Hc Hh w'.
  destruct (ConnectionFacts.disconnected now w c notify l sess Hc Hh)
    as (Hw & Hp & Hroom).
  fold w' in Hw, Hp, Hroom.
  split; [exact Hw|]. split; [exact Hp|]. split; [|exact Hroom].
  unfold Lobby.session_of_writer. rewrite Hw.
  assert (Hnone : delete c (Lobby.SESSIONS_BY_WRITER w) !! c = None)
    by apply lookup_delete_eq.
  by rewrite Hnone.
Qed.

(** Player 9 of the room of three drops the connection. *)
Lemma disconnect_cleans_up_witness :
  Lobby.session_of_writer
    (Lobby._cleanup_connection 1003 Demo.room_of_three 11%nat false) 11%nat = None /\
  Store.is_member
    (Lobby.db (Lobby._cleanup_connection 1003 Demo.room_of_three 11%nat false)) 1 9
  = false.
Proof.
  destruct (disconnect_cleans_up 1003 Demo.room_of_three 11%nat false 1%nat
              (Lobby.mkPlayerSession 9 "ian" 11%nat (Some 1)))
    as (_ & _ & Hnone & Hroom); try (vm_compute; reflexivity).
  split; [exact Hnone|].
  by destruct (Hroom 1) as [Hm _]; [reflexivity|lia|cbn; lia|].
Defined.

(** ** Manifests *)

(** X14. A manifest that [load_manifest_from_dir] accepts is the parse of
    the JSON object it returns beside it, and is valid: the client type is
    cli or gui, 1 <= minPlayers <= maxPlayers, and the game id, the name,
    the version and the developer are not empty. *)
Theorem loaded_manifest_valid `{Env} (f : gmap path node) (dir : path)
    (m : Manifest.GameManifest) (raw : json) :
  Manifest.load_manifest_from_dir f dir = inr (m, raw) ->
  (exists obj, raw = JObj obj /\ Manifest.parse_manifest obj = inr m) /\
  (Manifest.clientType m = "cli" \/ Manifest.clientType m = "gui") /\
  1 <= Manifest.minPlayers m <= Manifest.maxPlayers m /\
  Py.truthy (Manifest.gameId m) = true /\
  Py.truthy (Manifest.name m) = true /\
  Py.truthy (Manifest.version m) = true /\
  Py.truthy (Manifest.developer m) = true.
Proof.
  intros Hload.
  destruct (SystemFacts.load_manifest_from_dir_valid f dir m raw Hload)
    as (obj & -> & Hparse).
  split; [by exists obj|]. by apply (SystemFacts.parse_manifest_valid obj).
Qed.

(** The manifest of version 1.0.0 of [g1] on the disk of the examples. *)
Lemma loaded_manifest_valid_witness :
  1 <= Manifest.minPlayers Demo.manifest1 <= Manifest.maxPlayers Demo.manifest1 /\
  Py.truthy (Manifest.gameId Demo.manifest1) = true.
Proof.
  destruct (@loaded_manifest_valid Demo.demo_env (Lobby.files Demo.lobby0)
              ["srv"; "uploaded_games"; "g1"; "1.0.0"; "extracted"]
              Demo.manifest1 Demo.manifest_obj)
    as (_ & _ & Hrange & Hid & _); [vm_compute; reflexivity|].
  split; [exact Hrange|exact Hid].
Defined.

(** ** Frames, received *)

Module ReceiveFacts.

(** A header decodes to a length that is not negative. *)
Lemma unpack_nonneg hdr len : Framing.HDR_unpack hdr = Some len -> 0 <= len.
Proof.
  destruct hdr as [|b3 [|b2 [|b1 [|b0 [|]]]]]; try discriminate.
  unfold Framing.HDR_unpack. intros [= <-].
  pose proof (FramingFacts.Z_of_byte_range b3).
  pose proof (FramingFacts.Z_of_byte_range b2).
  pose proof (FramingFacts.Z_of_byte_range b1).
  pose proof (FramingFacts.Z_of_byte_range b0).
  rewrite !Z.lor_nonneg, !Z.shiftl_nonneg. lia.
Qed.

End ReceiveFacts.

(** X15. [recv_frame] always returns, and what it returns as a frame is
    what the stream holds: the frame has 1 to 65536 bytes, the stream
    begins with four bytes that decode to the length of the frame, then
    the frame, and what is left unread follows the frame.  So it never
    hands out an empty frame, one longer than [MAX_FRAME], or bytes the
    peer did not send. *)
Theorem recv_frame_sound (rd : Framing.reader) :
  (exists r rd', Framing.recv_frame rd = Some (r, rd')) /\
  (forall body rd',
     Framing.recv_frame rd = Some (Returned (Some body), rd') ->
     1 <= Z.of_nat (length body) <= Framing.MAX_FRAME /\
     exists hdr,
       length hdr = Framing.HDR_size /\
       Framing.HDR_unpack hdr = Some (Z.of_nat (length body)) /\
       concat rd = (hdr ++ body) ++ concat rd').
Proof.
  unfold Framing.recv_frame.
  destruct (decide (length (concat rd) < Framing.HDR_size)%nat) as [Hs|Hl].
  { destruct (FramingFacts._read_exact_short Framing.HDR_size rd Hs) as (rd1 & E1).
    rewrite E1. split; [eauto|]. intros body rd' [=]. }
  destruct (FramingFacts._read_exact_enough Framing.HDR_size rd) as (rd1 & E1 & R1);
    [lia|].
  rewrite E1.
  destruct (Framing.HDR_unpack (take Framing.HDR_size (concat rd))) as [len|] eqn:Hu.
  2:{ split; [eauto|]. intros body rd' [=]. }
  case_decide as Hbad.
  { split; [eauto|]. intros body rd' [=]. }
  destruct (decide (Z.to_nat len <= length (concat rd1))%nat) as [Hen|Hsh].
  - destruct (FramingFacts._read_exact_enough (Z.to_nat len) rd1 Hen)
      as (rd2 & E2 & R2).
    rewrite E2. split; [eauto|]. intros body rd' [= <- <-].
    assert (Hlen : length (take (Z.to_nat len) (concat rd1)) = Z.to_nat len)
      by (rewrite length_take; lia).
    pose proof (ReceiveFacts.unpack_nonneg _ _ Hu) as Hpos.
    rewrite Hlen. unfold Framing.MAX_FRAME in *. split; [lia|].
    exists (take Framing.HDR_size (concat rd)).
    split; [rewrite length_take; lia|].
    split; [rewrite Hu; f_equal; lia|].
    rewrite R2, <- app_assoc, take_drop, R1. by rewrite take_drop.
  - destruct (FramingFacts._read_exact_short (Z.to_nat len) rd1) as (rd2 & E2); [lia|].
    rewrite E2. split; [eauto|]. intros body rd' [=].
Qed.

(** A stream that brings the frame [ab] in two segments, and a byte of
    the next frame. *)
Lemma recv_frame_sound_witness :
  exists body rd',
    Framing.recv_frame
      [[Byte.x00; Byte.x00; Byte.x00]; [Byte.x02; Byte.x61; Byte.x62; Byte.x00]]
    = Some (Returned (Some body), rd') /\
    1 <= Z.of_nat (length body) <= Framing.MAX_FRAME.
Proof.
  destruct (Framing.recv_frame
              [[Byte.x00; Byte.x00; Byte.x00]; [Byte.x02; Byte.x61; Byte.x62; Byte.x00]])
    as [[[[body|]|e] rd']|] eqn:E; try (vm_compute in E; discriminate).
  exists body, rd'. split; [reflexivity|].
  by destruct (proj2 (recv_frame_sound
                 [[Byte.x00; Byte.x00; Byte.x00];
                  [Byte.x02; Byte.x61; Byte.x62; Byte.x00]]) body rd' E) as [Hb _].
Defined.

(** ** Delisting *)

Module DelistFacts.
Import Store.

Lemma find_map_gameId (f : Game -> Game) (gid : string) (l : list Game) :
  (forall g, g_gameId (f g) = g_gameId g) ->
  List.find (fun g => bool_decide (g_gameId g = gid)) (map f l)
  = f <$> List.find (fun g => bool_decide (g_gameId g = gid)) l.
Proof.
  intros Hk. induction l as [|x l IH]; [done|]. cbn [map List.find].
  rewrite Hk. destruct (bool_decide (g_gameId x = gid)); [done|exact IH].
Qed.

(** A successful [Game.set_delisted] with the flag set: the game is
    found by its id afterwards, and is delisted. *)
Lemma Game_set_delisted_OK now d gid dev d' u :
  Game_set_delisted now d gid true dev = (d', OK u) ->
  Py.truthy (Py.strip gid) = true /\
  exists g, Game_get_by_gameId d' gid = OK g /\ g_delisted g = 1 /\
            g_developerId g = dev.
Proof.
  unfold Game_set_delisted.
  destruct (Py.truthy (Py.strip gid)) eqn:Ht; [|intros [=]].
  cbn [negb orb].
  destruct (bool_decide (dev <= 0)); [intros [=]|].
  destruct (find_game_by_gameId d (Py.strip gid)) as [row|] eqn:Hf; [|intros [=]].
  destruct (decide (g_developerId row <> dev)) as [|Hdev]; [intros [=]|].
  intros [= <- _]. split; [done|].
  unfold Game_get_by_gameId. rewrite Ht. cbn [negb].
  unfold find_game_by_gameId in *. cbn [Game_rows with_Games].
  rewrite find_map_gameId by (intros g; by destruct (decide _)).
  rewrite Hf. cbn [fmap option_fmap option_map].
  apply StoreFacts.find_Some_elem in Hf as [_ Hrow].
  apply bool_decide_eq_true in Hrow.
  destruct (decide (g_gameId row = Py.strip gid)); [|done].
  eexists. split; [reflexivity|]. cbn [g_delisted g_developerId].
  split; [done|]. by destruct (decide (g_developerId row = dev)); [|destruct Hdev].
Qed.

End DelistFacts.

(** X16. A game with a match running cannot be delisted: when the store
    shows a room as playing, a logged-in developer who asks to delist the
    game of that room is answered [game_in_progress], whoever owns the
    game, and nothing changes. *)
Theorem delist_refused_while_playing (now : Z) (w : Developer.world)
    (c : Developer.conn) (sess : Developer.DevSession) (gameId : option string)
    (rid : Z) (info : Store.RoomInfo) :
  Developer.SESSIONS w !! c = Some sess ->
  Store.Room_get (Developer.db w) rid = Store.OK info ->
  Store.ri_status info = "playing" ->
  Py.strip (Py.or_str gameId EmptyString) = Store.ri_gameId info ->
  Py.truthy (Store.ri_gameId info) = true ->
  Developer.handle_game_delist now w c gameId true = (w, Err_ "game_in_progress" []).
Proof.
  intros Hs Hget Hst Hgid Ht.
  apply StoreFacts.Room_get_OK in Hget as (_ & r & g & v & Hr & Hg & _ & ->).
  cbn [Store.ri_status Store.ri_gameId] in *.
  unfold Developer.handle_game_delist. rewrite Hs, Hgid, Ht. cbn [andb].
  unfold Store.Room_has_playing_for_gameId.
  assert (Hclean : Py.strip (Store.g_gameId g) = Store.g_gameId g)
    by (rewrite <- Hgid; apply TableFacts.strip_strip).
  rewrite Hclean, Ht. cbn [negb].
  apply StoreFacts.find_room_by_id_Some in Hr as [Hr _].
  apply StoreFacts.find_Some_elem in Hg as [Hgin Hgid'].
  assert (Hex : existsb
            (fun r0 => bool_decide (Store.r_status r0 = "playing")
               && existsb (fun g0 => bool_decide (Store.g_id g0 = Store.r_gameFk r0)
                                     && bool_decide (Store.g_gameId g0 = Store.g_gameId g))
                    (Store.Game_rows (Developer.db w)))
            (Store.Room_rows (Developer.db w)) = true).
  { apply existsb_exists. exists r. split; [by apply list_elem_of_In|].
    rewrite (bool_decide_eq_true_2 _ Hst). cbn [andb].
    apply existsb_exists. exists g. split; [by apply list_elem_of_In|].
    rewrite Hgid'. by rewrite bool_decide_eq_true_2. }
  by rewrite Hex.
Qed.

(** The developer of [g1] asks to delist it while the match of room 1
    runs. *)
Lemma delist_refused_while_playing_witness :
  Developer.handle_game_delist 1004
    (System.developer Season.match_state) 1%nat (Some "g1") true
  = (System.developer Season.match_state, Err_ "game_in_progress" []).
Proof.
  destruct (Store.Room_get (Developer.db (System.developer Season.match_state)) 1)
    as [info|e] eqn:E; [|vm_compute in E; discriminate].
  apply (delist_refused_while_playing 1004
           (System.developer Season.match_state) 1%nat
           (Developer.mkDevSession 7 "dev1") (Some "g1") 1 info).
  - vm_compute. reflexivity.
  - exact E.
  - vm_compute in E. by injection E as <-.
  - vm_compute in E. injection E as <-. vm_compute. reflexivity.
  - vm_compute in E. by injection E as <-.
Defined.

(** X17. A delisted game gets no new rooms.  When the developer service
    has answered a delist request with OK, a player with a session and no
    room who asks the lobby for a room of that game is answered
    [game_delisted], and nothing else changes. *)
Theorem delisted_game_refuses_rooms `{Env} (s : System.state) (now now' : Z)
    (c : Developer.conn) (gameId : option string) (dw' : Developer.world)
    (data : list (string * json)) (c' : Lobby.conn) (l : Lobby.loc)
    (sess : Lobby.PlayerSession) :
  Developer.handle_game_delist now (System.developer s) c gameId true
  = (dw', Ok_ data) ->
  let s' := System.exec s (System.game_delist now c gameId true) in
  Lobby.session_of_writer (System.lobby s') c' = Some (l, sess) ->
  Lobby.room_id sess = None ->
  System.lobby (System.exec s' (System.room_create now' c' gameId))
  = Lobby._send (System.lobby s') c' (Err_ "game_delisted" []).
Proof.
  intros Hd s' Hs Hroom. subst s'.
  cbn [System.exec System.lobby System.with_lobby System.with_developer] in *.
  rewrite Hd in *. cbn [fst] in *.
  revert Hd. unfold Developer.handle_game_delist.
  destruct (Developer.SESSIONS (System.developer s) !! c) as [dsess|]; [|intros [=]].
  destruct (if _ : bool then _ else false); [intros [=]|].
  destruct (Store.Game_set_delisted now (Developer.db (System.developer s))
              (Py.strip (Py.or_str gameId EmptyString)) true
              (Developer.developer_id dsess)) as [d [u|e]] eqn:Hset; [|intros [=]].
  intros [= <- _].
  apply DelistFacts.Game_set_delisted_OK in Hset as (Ht & g & Hg & Hflag & _).
  rewrite TableFacts.strip_strip in Ht.
  unfold Lobby.handle_room_create. rewrite Hs, Hroom, Ht. cbn [negb].
  cbn [Developer.db Developer.with_db Developer.files Lobby.db Lobby.with_db
       Lobby.with_files] in *.
  rewrite Hg, Hflag.
  destruct (decide (Py.or_int (Some 1) 0 <> 0)) as [|Hn]; [reflexivity|].
  destruct Hn. by rewrite PyFacts.or_int_Some_pos.
Qed.

(** The developer of [g1] delists it in the platform of the examples;
    player 4 asks for a room of [g1]. *)
Lemma delisted_game_refuses_rooms_witness :
  System.lobby
    (@System.exec Demo.demo_env
       (@System.exec Demo.demo_env Demo.platform_state
          (System.game_delist 1003 1%nat (Some "g1") true))
       (System.room_create 1004 13%nat (Some "g1")))
  = Lobby._send
      (System.lobby
         (@System.exec Demo.demo_env Demo.platform_state
            (System.game_delist 1003 1%nat (Some "g1") true)))
      13%nat (Err_ "game_delisted" []).
Proof.
  destruct (Developer.handle_game_delist 1003
              (System.developer Demo.platform_state) 1%nat (Some "g1") true)
    as [dw' [data| |]] eqn:E; try (vm_compute in E; discriminate).
  apply (@delisted_game_refuses_rooms Demo.demo_env Demo.platform_state 1003 1004
           1%nat (Some "g1") dw' data 13%nat 3%nat
           (Lobby.mkPlayerSession 4 "dan" 13%nat None)).
  - exact E.
  - vm_compute. reflexivity.
  - reflexivity.
Defined.

(** ** The game table *)

Module GameFacts.
Import Store.

Record games_ok (d : db) : Prop := mkGamesOk {
  gm_seq : 0 <= Game_seq d;
  gm_bound : forall g, g ∈ Game_rows d -> 0 < g_id g <= Game_seq d;
  gm_keys : NoDup (map g_id (Game_rows d));
  gm_ids : NoDup (map g_gameId (Game_rows d));
  gm_named : forall g, g ∈ Game_rows d ->
    Py.truthy (g_gameId g) = true /\ Py.strip (g_gameId g) = g_gameId g /\
    Py.truthy (g_name g) = true /\ Py.truthy (g_description g) = true;
  gm_owner : forall g, g ∈ Game_rows d -> 0 < g_developerId g;
  gm_flag : forall g, g ∈ Game_rows d -> g_delisted g = 0 \/ g_delisted g = 1 }.

Lemma games_ok_frame d d' :
  Game_rows d' = Game_rows d -> Game_seq d' = Game_seq d ->
  games_ok d -> games_ok d'.
Proof. intros Hr Hs [I1 I2 I3 I4 I5 I6 I7]. split; rewrite ?Hr, ?Hs; assumption. Qed.

(** A write that rewrites rows in place, keeping what identifies and
    names a game. *)
Lemma games_ok_mapped d d' (f : Game -> Game) :
  Game_rows d' = map f (Game_rows d) -> Game_seq d' = Game_seq d ->
  (forall g, g_id (f g) = g_id g /\ g_gameId (f g) = g_gameId g /\
             g_name (f g) = g_name g /\ g_description (f g) = g_description g /\
             g_developerId (f g) = g_developerId g) ->
  (forall g, g_delisted g = 0 \/ g_delisted g = 1 ->
             g_delisted (f g) = 0 \/ g_delisted (f g) = 1) ->
  games_ok d -> games_ok d'.
Proof.
  intros Hr Hs Hf Hflag [I1 I2 I3 I4 I5 I6 I7].
  split; rewrite ?Hr, ?Hs; try assumption.
  - intros g' Hin. apply StoreFacts.elem_of_map in Hin as (g & -> & Hin).
    destruct (Hf g) as (-> & _). by apply I2.
  - rewrite map_map. rewrite (map_ext _ g_id); [exact I3|].
    intros g. by destruct (Hf g) as (-> & _).
  - rewrite map_map. rewrite (map_ext _ g_gameId); [exact I4|].
    intros g. by destruct (Hf g) as (_ & -> & _).
  - intros g' Hin. apply StoreFacts.elem_of_map in Hin as (g & -> & Hin).
    destruct (Hf g) as (_ & -> & -> & -> & _). by apply I5.
  - intros g' Hin. apply StoreFacts.elem_of_map in Hin as (g & -> & Hin).
    destruct (Hf g) as (_ & _ & _ & _ & ->). by apply I6.
  - intros g' Hin. apply StoreFacts.elem_of_map in Hin as (g & -> & Hin).
    apply Hflag. by apply I7.
Qed.

Lemma find_game_None d gid g :
  find_game_by_gameId d gid = None -> g ∈ Game_rows d -> g_gameId g <> gid.
Proof.
  intros Hf Hin Hg. apply list_elem_of_In in Hin.
  pose proof (find_none _ _ Hf g Hin) as Hn. cbn beta in Hn.
  by rewrite (bool_decide_eq_true_2 _ Hg) in Hn.
Qed.

Lemma Game_create_ok now d gid name descr dev :
  games_ok d -> games_ok (Game_create now d gid name descr dev).1.
Proof.
  intros HI. unfold Game_create.
  destruct (Py.truthy (Py.strip gid)) eqn:Hgid; [|exact HI].
  destruct (Py.truthy (Py.strip name)) eqn:Hname; [|exact HI].
  destruct (Py.truthy (Py.strip descr)) eqn:Hdescr; [|exact HI].
  cbn [negb orb].
  destruct (bool_decide (dev <= 0)) eqn:Hdev; [exact HI|].
  apply bool_decide_eq_false in Hdev.
  destruct (find_game_by_gameId d (Py.strip gid)) eqn:Hfind; [exact HI|].
  destruct HI as [I1 I2 I3 I4 I5 I6 I7]. cbn [fst].
  split; cbn [Game_rows Game_seq with_Games].
  - lia.
  - intros g Hin. apply elem_of_app in Hin as [Hin|Hin].
    + specialize (I2 g Hin). lia.
    + apply list_elem_of_singleton in Hin as ->. cbn. lia.
  - rewrite map_app. apply NoDup_app. split; [exact I3|].
    split; [|apply NoDup_singleton].
    intros k Hk Hk'. cbn in Hk'. apply list_elem_of_singleton in Hk' as ->.
    apply StoreFacts.elem_of_map in Hk as (g & Hg & Hin). specialize (I2 g Hin). lia.
  - rewrite map_app. apply NoDup_app. split; [exact I4|].
    split; [|apply NoDup_singleton].
    intros k Hk Hk'. cbn in Hk'. apply list_elem_of_singleton in Hk' as ->.
    apply StoreFacts.elem_of_map in Hk as (g & Hg & Hin).
    by apply (find_game_None d (Py.strip gid) g Hfind Hin).
  - intros g Hin. apply elem_of_app in Hin as [Hin|Hin]; [by apply I5|].
    apply list_elem_of_singleton in Hin as ->. cbn.
    split; [exact Hgid|]. split; [apply TableFacts.strip_strip|]. by split.
  - intros g Hin. apply elem_of_app in Hin as [Hin|Hin]; [by apply I6|].
    apply list_elem_of_singleton in Hin as ->. cbn. lia.
  - intros g Hin. apply elem_of_app in Hin as [Hin|Hin]; [by apply I7|].
    apply list_elem_of_singleton in Hin as ->. cbn. by left.
Qed.

Lemma Game_set_delisted_ok now d gid flag dev :
  games_ok d -> games_ok (Game_set_delisted now d gid flag dev).1.
Proof.
  intros HI. unfold Game_set_delisted. destruct (_ || _); [exact HI|].
  destruct (find_game_by_gameId d _); [|exact HI].
  destruct (decide _); [exact HI|]. cbn [fst].
  eapply (games_ok_mapped d); [reflexivity|reflexivity| | |exact HI].
  - intros g0. cbn beta. by destruct (decide _).
  - intros g0 Hg. cbn beta. destruct (decide _); [|exact Hg]. cbn.
    destruct flag; [by right|by left].
Qed.

Lemma GameVersion_create_games now d g version f :
  games_ok d -> games_ok (GameVersion_create now d g version f).1.
Proof.
  intros HI. unfold GameVersion_create.
  destruct (_ || _); [exact HI|]. destruct (version_taken _ _ _); [exact HI|].
  cbn [fst].
  eapply (games_ok_mapped d); [reflexivity|reflexivity| | |exact HI].
  - intros g0. unfold bump_game_updatedAt. by destruct (decide _).
  - intros g0 Hg. unfold bump_game_updatedAt. by destruct (decide _).
Qed.

Section WithEnv.
Context `{Env}.

Lemma reachable_games_ok s :
  System.reachable s -> games_ok (Lobby.db (System.lobby s)).
Proof.
  apply (PlatformFacts.reachable_keeps games_ok).
  - intros. by apply Game_create_ok.
  - intros. by apply Game_set_delisted_ok.
  - intros. by apply GameVersion_create_games.
  - intros now d gid pid rating comment _.
    apply games_ok_frame; TableFacts.write_cases; reflexivity.
  - intros now d host g v _ _.
    apply games_ok_frame; TableFacts.write_cases; reflexivity.
  - intros now d rid pid. apply games_ok_frame; TableFacts.write_cases; reflexivity.
  - intros now d rid pid. apply games_ok_frame; TableFacts.write_cases; reflexivity.
  - intros now d rid st. apply games_ok_frame; TableFacts.write_cases; reflexivity.
  - intros now d rid h. apply games_ok_frame; TableFacts.write_cases; reflexivity.
  - intros d rid. apply games_ok_frame; TableFacts.write_cases; reflexivity.
  - intros d rid g v s0 e reason win js. by apply games_ok_frame.
  - split; cbn; try (intros ? Hin; by apply not_elem_of_nil in Hin);
      try apply NoDup_nil_2; lia.
Qed.

End WithEnv.

End GameFacts.

(** X18. In every reachable state the game table is well formed: no two
    games share a key or a game id (so [get_by_gameId] names one game);
    every game id, name and description is non-empty and the game id has
    no surrounding white space; every game has a developer with a positive
    id; and the delisted flag is 0 or 1. *)
Theorem games_wellformed `{Env} (s : System.state) :
  System.reachable s ->
  let rows := Store.Game_rows (Lobby.db (System.lobby s)) in
  NoDup (map Store.g_id rows) /\
  NoDup (map Store.g_gameId rows) /\
  (forall g g', g ∈ rows -> g' ∈ rows -> Store.g_gameId g = Store.g_gameId g' -> g = g') /\
  (forall g, g ∈ rows ->
     Py.truthy (Store.g_gameId g) = true /\
     Py.strip (Store.g_gameId g) = Store.g_gameId g /\
     Py.truthy (Store.g_name g) = true /\
     Py.truthy (Store.g_description g) = true /\
     0 < Store.g_developerId g /\
     (Store.g_delisted g = 0 \/ Store.g_delisted g = 1)).
Proof.
  intros Hr rows.
  destruct (GameFacts.reachable_games_ok s Hr) as [_ _ Hk Hi Hn Ho Hf].
  fold rows in Hk, Hi, Hn, Ho, Hf.
  split; [exact Hk|]. split; [exact Hi|]. split.
  - intros g g' Hg Hg' Heq. revert Hi Hg Hg' Heq. generalize rows. clear.
    intros rows. induction rows as [|x rows IH]; intros Hnd Hg Hg' Heq.
    + by apply not_elem_of_nil in Hg.
    + cbn [map] in Hnd. apply NoDup_cons in Hnd as [Hx Hnd].
      apply elem_of_cons in Hg as [->|Hg]; apply elem_of_cons in Hg' as [->|Hg'].
      * done.
      * destruct Hx. rewrite Heq. apply StoreFacts.elem_of_map. by exists g'.
      * destruct Hx. rewrite <- Heq. apply StoreFacts.elem_of_map. by exists g.
      * by apply IH.
  - intros g Hg. destruct (Hn g Hg) as (H1 & H2 & H3 & H4).
    repeat (split; [assumption|]). split; [by apply Ho|by apply Hf].
Qed.

(** The game [g1] of the continued example. *)
Lemma games_wellformed_witness :
  exists g,
    g ∈ Store.Game_rows (Lobby.db (System.lobby Season.season_state)) /\
    Store.g_gameId g = "g1" /\
    Py.strip (Store.g_gameId g) = Store.g_gameId g /\
    0 < Store.g_developerId g.
Proof.
  destruct (@games_wellformed Demo.demo_env Season.season_state
              SeasonFacts.season_reachable) as (_ & _ & _ & Hg).
  assert (Hrows : exists g,
             Store.Game_rows (Lobby.db (System.lobby Season.season_state)) = [g]
             /\ Store.g_gameId g = "g1").
  { vm_compute. eexists. split; reflexivity. }
  destruct Hrows as (g & Hrows & Hid).
  assert (Hin : g ∈ Store.Game_rows (Lobby.db (System.lobby Season.season_state))).
  { rewrite Hrows. apply list_elem_of_here. }
  exists g. split; [exact Hin|]. split; [exact Hid|].
  destruct (Hg g Hin) as (_ & Hclean & _ & _ & Hdev & _). by split.
Defined.

(** ** The room tables *)

Module RoomTableFacts.
Import Store.

Definition member_key (m : RoomMember) : Z * Z := (m_roomId m, m_playerId m).

Record rooms_ok (d : db) : Prop := mkRoomsOk {
  rm_seq : 0 <= Room_seq d;
  rm_bound : forall r, r ∈ Room_rows d -> 0 < r_id r <= Room_seq d;
  rm_host : forall r, r ∈ Room_rows d -> 0 < r_hostPlayerId r;
  rm_status : forall r, r ∈ Room_rows d -> Py.truthy (r_status r) = true;
  rm_members : forall m, m ∈ RoomMember_rows d -> 0 < m_roomId m /\ 0 < m_playerId m;
  rm_unique : NoDup (map member_key (RoomMember_rows d)) }.

Lemma rooms_ok_frame d d' :
  Room_rows d' = Room_rows d -> Room_seq d' = Room_seq d ->
  RoomMember_rows d' = RoomMember_rows d ->
  rooms_ok d -> rooms_ok d'.
Proof.
  intros Hr Hs Hm [I1 I2 I3 I4 I5 I6]. split; rewrite ?Hr, ?Hs, ?Hm; assumption.
Qed.

(** Rows rewritten in place, with their key. *)
Lemma rooms_ok_mapped d d' (f : Room -> Room) :
  Room_rows d' = map f (Room_rows d) -> Room_seq d' = Room_seq d ->
  RoomMember_rows d' = RoomMember_rows d ->
  (forall r, r_id (f r) = r_id r) ->
  (forall r, 0 < r_hostPlayerId r -> 0 < r_hostPlayerId (f r)) ->
  (forall r, Py.truthy (r_status r) = true -> Py.truthy (r_status (f r)) = true) ->
  rooms_ok d -> rooms_ok d'.
Proof.
  intros Hr Hs Hm Hid Hhost Hst [I1 I2 I3 I4 I5 I6].
  split; rewrite ?Hr, ?Hs, ?Hm; try assumption.
  - intros r' Hin. apply StoreFacts.elem_of_map in Hin as (r & -> & Hin).
    rewrite Hid. by apply I2.
  - intros r' Hin. apply StoreFacts.elem_of_map in Hin as (r & -> & Hin).
    by apply Hhost, I3.
  - intros r' Hin. apply StoreFacts.elem_of_map in Hin as (r & -> & Hin).
    by apply Hst, I4.
Qed.

Lemma touch_room_ok now rid d d' :
  Room_rows d' = map (touch_room now rid) (Room_rows d) ->
  Room_seq d' = Room_seq d -> RoomMember_rows d' = RoomMember_rows d ->
  rooms_ok d -> rooms_ok d'.
Proof.
  intros Hr Hs Hm. apply (rooms_ok_mapped d d' (touch_room now rid) Hr Hs Hm);
    intros r; unfold touch_room; by destruct (decide _).
Qed.

Lemma is_member_false_key d rid pid :
  is_member d rid pid = false -> (rid, pid) ∉ map member_key (RoomMember_rows d).
Proof.
  unfold is_member. intros Hf Hin.
  apply StoreFacts.elem_of_map in Hin as (m & Hk & Hin).
  injection Hk as Hr Hp.
  assert (Ht : existsb (fun m => bool_decide (m_roomId m = rid)
                                 && bool_decide (m_playerId m = pid))
                 (RoomMember_rows d) = true).
  { apply existsb_exists. exists m. split; [by apply list_elem_of_In|].
    by rewrite !bool_decide_eq_true_2. }
  congruence.
Qed.

(** A member added to a room of which it is no member yet. *)
Lemma member_added_ok d rid pid now :
  0 < rid -> 0 < pid -> is_member d rid pid = false ->
  rooms_ok d ->
  rooms_ok (with_RoomMembers (RoomMember_rows d ++ [mkRoomMember rid pid now]) d).
Proof.
  intros Hrid Hpid Hm [I1 I2 I3 I4 I5 I6].
  split; cbn [Room_rows Room_seq RoomMember_rows with_RoomMembers]; try assumption.
  - intros m Hin. apply elem_of_app in Hin as [Hin|Hin]; [by apply I5|].
    apply list_elem_of_singleton in Hin as ->. by cbn.
  - rewrite map_app. apply NoDup_app. split; [exact I6|].
    split; [|apply NoDup_singleton].
    intros k Hk Hk'. cbn in Hk'. apply list_elem_of_singleton in Hk' as ->.
    by apply (is_member_false_key d rid pid Hm).
Qed.

Lemma Room_create_ok now d host g v :
  rooms_ok d -> rooms_ok (Room_create now d host g v).1.
Proof.
  intros HI. unfold Room_create.
  destruct (bool_decide (host <= 0)) eqn:Hh; [exact HI|].
  cbn [orb]. destruct (_ || _); [exact HI|]. cbn [fst].
  apply bool_decide_eq_false in Hh.
  set (d1 := with_Rooms _ _ d).
  assert (H1 : rooms_ok d1).
  { destruct HI as [I1 I2 I3 I4 I5 I6].
    split; subst d1; cbn [Room_rows Room_seq RoomMember_rows with_Rooms];
      try assumption.
    - lia.
    - intros r Hin. apply elem_of_app in Hin as [Hin|Hin].
      + specialize (I2 r Hin). lia.
      + apply list_elem_of_singleton in Hin as ->. cbn. lia.
    - intros r Hin. apply elem_of_app in Hin as [Hin|Hin]; [by apply I3|].
      apply list_elem_of_singleton in Hin as ->. cbn. lia.
    - intros r Hin. apply elem_of_app in Hin as [Hin|Hin]; [by apply I4|].
      by apply list_elem_of_singleton in Hin as ->. }
  destruct (is_member d1 (Room_seq d + 1) host) eqn:Hm; [exact H1|].
  apply member_added_ok; try done; [|lia]. destruct HI. lia.
Qed.

Lemma Room_add_member_ok now d rid pid :
  rooms_ok d -> rooms_ok (Room_add_member now d rid pid).1.
Proof.
  intros HI. unfold Room_add_member.
  destruct (bool_decide (rid <= 0)) eqn:Hr; [exact HI|].
  destruct (bool_decide (pid <= 0)) eqn:Hp; [exact HI|].
  apply bool_decide_eq_false in Hr, Hp. cbn [orb fst].
  destruct (is_member d rid pid) eqn:Hm.
  - by apply (touch_room_ok now rid d).
  - eapply (touch_room_ok now rid); [reflexivity|reflexivity|reflexivity|].
    apply member_added_ok; try done; lia.
Qed.

Lemma Room_remove_member_ok now d rid pid :
  rooms_ok d -> rooms_ok (Room_remove_member now d rid pid).1.
Proof.
  intros HI. unfold Room_remove_member. destruct (_ || _); [exact HI|]. cbn [fst].
  eapply (touch_room_ok now rid); [reflexivity|reflexivity|reflexivity|].
  destruct HI as [I1 I2 I3 I4 I5 I6].
  split; cbn [Room_rows Room_seq RoomMember_rows with_RoomMembers]; try assumption.
  - intros m Hin. apply list_elem_of_filter in Hin as [_ Hin]. by apply I5.
  - apply (sublist_NoDup _ (map member_key (RoomMember_rows d))); [exact I6|].
    apply (fmap_sublist member_key), sublist_filter.
Qed.

Lemma Room_set_status_ok now d rid st :
  rooms_ok d -> rooms_ok (Room_set_status now d rid st).1.
Proof.
  intros HI. unfold Room_set_status.
  destruct (bool_decide (rid <= 0)); [exact HI|]. cbn [orb].
  destruct (Py.truthy (Py.strip st)) eqn:Hst; [|exact HI]. cbn [negb fst].
  eapply (rooms_ok_mapped d); [reflexivity|reflexivity|reflexivity| | | |exact HI];
    intros r; cbn beta; destruct (decide _); done.
Qed.

Lemma Room_set_host_ok now d rid h :
  rooms_ok d -> rooms_ok (Room_set_host now d rid h).1.
Proof.
  intros HI. unfold Room_set_host.
  destruct (bool_decide (rid <= 0)); [exact HI|]. cbn [orb].
  destruct (bool_decide (h <= 0)) eqn:Hh; [exact HI|]. cbn [fst].
  apply bool_decide_eq_false in Hh.
  eapply (rooms_ok_mapped d); [reflexivity|reflexivity|reflexivity| | | |exact HI];
    intros r; cbn beta; destruct (decide _); try done. cbn. lia.
Qed.

Lemma Room_delete_if_empty_ok d rid :
  rooms_ok d -> rooms_ok (Room_delete_if_empty d rid).1.
Proof.
  intros HI. unfold Room_delete_if_empty.
  destruct (decide _); [exact HI|]. destruct (decide _); [exact HI|]. cbn [fst].
  destruct HI as [I1 I2 I3 I4 I5 I6].
  split; cbn [Room_rows Room_seq RoomMember_rows with_Rooms]; try assumption.
  - intros r Hin. apply list_elem_of_filter in Hin as [_ Hin]. by apply I2.
  - intros r Hin. apply list_elem_of_filter in Hin as [_ Hin]. by apply I3.
  - intros r Hin. apply list_elem_of_filter in Hin as [_ Hin]. by apply I4.
Qed.

Section WithEnv.
Context `{Env}.

Lemma reachable_rooms_ok s :
  System.reachable s -> rooms_ok (Lobby.db (System.lobby s)).
Proof.
  apply (PlatformFacts.reachable_keeps rooms_ok).
  - intros now d gid name descr dev.
    apply rooms_ok_frame; TableFacts.write_cases; reflexivity.
  - intros now d gid flag dev.
    apply rooms_ok_frame; TableFacts.write_cases; reflexivity.
  - intros now d g version f _ _.
    apply rooms_ok_frame; TableFacts.write_cases; reflexivity.
  - intros now d gid pid rating comment _.
    apply rooms_ok_frame; TableFacts.write_cases; reflexivity.
  - intros. by apply Room_create_ok.
  - intros. by apply Room_add_member_ok.
  - intros. by apply Room_remove_member_ok.
  - intros. by apply Room_set_status_ok.
  - intros. by apply Room_set_host_ok.
  - intros. by apply Room_delete_if_empty_ok.
  - intros d rid g v s0 e reason win js. by apply rooms_ok_frame.
  - split; cbn; try (intros ? Hin; by apply not_elem_of_nil in Hin);
      try apply NoDup_nil_2; lia.
Qed.

End WithEnv.

(** The room a row describes is the room [Room.get] shows for its key,
    when keys are positive and unique and the references resolve. *)
Lemma Room_get_row d r :
  rooms_ok d -> CatalogueFacts.refs_ok d -> NoDup (map r_id (Room_rows d)) ->
  r ∈ Room_rows d ->
  exists info,
    Room_get d (r_id r) = OK info /\
    ri_id info = r_id r /\ ri_hostPlayerId info = r_hostPlayerId r /\
    ri_status info = r_status r /\ ri_gameDbId info = r_gameFk r /\
    ri_gameVersionId info = r_gameVersionFk r.
Proof.
  intros HI [_ Hroom _] Hnd Hin. unfold Room_get.
  destruct (rm_bound d HI r Hin) as [Hpos _].
  destruct (decide (r_id r <= 0)); [lia|].
  destruct (StoreFacts.find_is_Some (fun x => bool_decide (r_id x = r_id r))
              (Room_rows d) r Hin) as [r' Hr']; [by apply bool_decide_eq_true_2|].
  unfold find_room_by_id. rewrite Hr'.
  apply StoreFacts.find_Some_elem in Hr' as [Hin' Hid]. apply bool_decide_eq_true in Hid.
  assert (r' = r) as -> by by apply (StoreFacts.NoDup_map_eq r_id (Room_rows d)).
  destruct (Hroom r Hin) as [Hg (v & Hv & Hvid & Hvg)].
  apply StoreFacts.elem_of_map in Hg as (g & Hgid & Hg).
  destruct (StoreFacts.find_is_Some (fun x => bool_decide (g_id x = r_gameFk r))
              (Game_rows d) g Hg) as [g' Hg']; [by apply bool_decide_eq_true_2|].
  destruct (StoreFacts.find_is_Some (fun x => bool_decide (gv_id x = r_gameVersionFk r))
              (GameVersion_rows d) v Hv) as [v' Hv']; [by apply bool_decide_eq_true_2|].
  unfold find_game_by_id, find_version_by_id. rewrite Hg', Hv'.
  apply StoreFacts.find_Some_elem in Hg' as [_ Hg'']. apply bool_decide_eq_true in Hg''.
  apply StoreFacts.find_Some_elem in Hv' as [_ Hv'']. apply bool_decide_eq_true in Hv''.
  eexists. split; [reflexivity|]. cbn. auto.
Qed.

End RoomTableFacts.

(** X19. In every reachable state the room tables are well formed and every
    stored room can be read: for each row of the room table [Room.get] of
    its key answers OK with the host, the status, the game and the version
    of that row (so the lobby can always load a stored room into its
    cache); room keys, hosts and members are positive, the status is not
    empty, and no player is listed twice as a member of one room. *)
Theorem rooms_wellformed `{Env} (s : System.state) :
  System.reachable s ->
  let d := Lobby.db (System.lobby s) in
  (forall r, r ∈ Store.Room_rows d ->
     0 < Store.r_id r /\ 0 < Store.r_hostPlayerId r /\
     Py.truthy (Store.r_status r) = true /\
     exists info,
       Store.Room_get d (Store.r_id r) = Store.OK info /\
       Store.ri_id info = Store.r_id r /\
       Store.ri_hostPlayerId info = Store.r_hostPlayerId r /\
       Store.ri_status info = Store.r_status r /\
       Store.ri_gameDbId info = Store.r_gameFk r /\
       Store.ri_gameVersionId info = Store.r_gameVersionFk r) /\
  (forall m, m ∈ Store.RoomMember_rows d ->
     0 < Store.m_roomId m /\ 0 < Store.m_playerId m) /\
  NoDup (map RoomTableFacts.member_key (Store.RoomMember_rows d)).
Proof.
  intros Hr d.
  pose proof (RoomTableFacts.reachable_rooms_ok s Hr) as HI.
  pose proof (CatalogueFacts.reachable_refs_ok s Hr) as Href.
  pose proof (SystemFacts.reachable_Inv s Hr) as HD.
  fold d in HI, Href. unfold SystemFacts.Inv in HD. fold d in HD.
  split; [|split; [apply (RoomTableFacts.rm_members d HI)
                  |apply (RoomTableFacts.rm_unique d HI)]].
  intros r Hin.
  split; [apply (RoomTableFacts.rm_bound d HI r Hin)|].
  split; [apply (RoomTableFacts.rm_host d HI r Hin)|].
  split; [apply (RoomTableFacts.rm_status d HI r Hin)|].
  apply RoomTableFacts.Room_get_row; try assumption.
  apply (StoreFacts.inv_room_nodup d HD).
Qed.

(** The second room of the continued example, opened by player 4. *)
Lemma rooms_wellformed_witness :
  exists r info,
    r ∈ Store.Room_rows (Lobby.db (System.lobby Season.season_state)) /\
    Store.r_id r = 2 /\
    Store.Room_get (Lobby.db (System.lobby Season.season_state)) (Store.r_id r)
    = Store.OK info /\
    Store.ri_hostPlayerId info = Store.r_hostPlayerId r.
Proof.
  destruct (@rooms_wellformed Demo.demo_env Season.season_state
              SeasonFacts.season_reachable) as (Hroom & _).
  assert (Hrows : exists r0 r,
             Store.Room_rows (Lobby.db (System.lobby Season.season_state)) = [r0; r]
             /\ Store.r_id r = 2).
  { vm_compute. do 2 eexists. split; reflexivity. }
  destruct Hrows as (r0 & r & Hrows & Hid).
  assert (Hin : r ∈ Store.Room_rows (Lobby.db (System.lobby Season.season_state))).
  { rewrite Hrows. apply list_elem_of_further, list_elem_of_here. }
  destruct (Hroom r Hin) as (_ & _ & _ & info & Hget & _ & Hhost & _).
  exists r, info. split; [exact Hin|]. split; [exact Hid|]. by split.
Defined.

(** ** The tables of the developer service *)

Module DevTableFacts.
Import Developer.

Section WithEnv.
Context `{Env}.

(** What is true of an upload session from its creation to its end. *)
Definition upload_ok (key : string) (up : UploadSession) : Prop :=
  upload_id up = key /\
  temp_path up = TMP_ROOT ++ [key +:+ ".zip.part"] /\
  0 < up_developer_id up /\
  0 <= next_seq up <= received up /\
  received up <= expected_size up /\
  received up = Z.of_nat (length (hasher up)) /\
  _VERSION_RE_fullmatch (up_version up) = true /\
  Py.truthy (expected_sha256 up) = true.

Record devs_ok (w : world) : Prop := mkDevsOk {
  dv_session : forall c sess, SESSIONS w !! c = Some sess ->
    0 < developer_id sess /\ ONLINE_DEVS w !! developer_id sess = Some c;
  dv_upload : forall k up, UPLOADS w !! k = Some up -> upload_ok k up }.

Lemma devs_ok_frame w w' :
  SESSIONS w' = SESSIONS w -> ONLINE_DEVS w' = ONLINE_DEVS w ->
  UPLOADS w' = UPLOADS w -> devs_ok w -> devs_ok w'.
Proof. intros Hs Ho Hu [I1 I2]. split; rewrite ?Hs, ?Ho, ?Hu; assumption. Qed.

Lemma handle_login_ok w c resp : devs_ok w -> devs_ok (handle_login w c resp).1.
Proof.
  intros HI. unfold handle_login. destruct resp as [[dev uname]|e]; [|exact HI].
  destruct (decide _) as [|Hpos]; [exact HI|].
  destruct (ONLINE_DEVS w !! Py.or_int dev 0) eqn:Hon; [exact HI|].
  destruct HI as [I1 I2]. cbn [fst].
  split; cbn [SESSIONS ONLINE_DEVS UPLOADS]; [|exact I2].
  intros c0 sess0 Hc0. destruct (decide (c0 = c)) as [->|Hne].
  - rewrite lookup_insert_eq in Hc0. injection Hc0 as <-. cbn [developer_id].
    split; [lia|]. apply lookup_insert_eq.
  - rewrite lookup_insert_ne in Hc0 by done.
    destruct (I1 c0 sess0 Hc0) as [Hp Ho]. split; [exact Hp|].
    rewrite lookup_insert_ne; [exact Ho|]. intros Heq. rewrite <- Heq in Ho.
    congruence.
Qed.

Lemma drop_session_ok w c : devs_ok w -> devs_ok (drop_session w c).
Proof.
  intros HI. unfold drop_session.
  destruct (SESSIONS w !! c) as [sess|] eqn:Hc; [|exact HI].
  destruct HI as [I1 I2]. split; cbn [SESSIONS ONLINE_DEVS UPLOADS]; [|exact I2].
  intros c0 sess0 Hc0. destruct (decide (c0 = c)) as [->|Hne].
  - by rewrite lookup_delete_eq in Hc0.
  - rewrite lookup_delete_ne in Hc0 by done.
    destruct (I1 c0 sess0 Hc0) as [Hp Ho]. split; [exact Hp|].
    rewrite lookup_delete_ne; [exact Ho|]. intros Heq.
    destruct (I1 c sess Hc) as [_ Ho']. rewrite Heq in Ho'. congruence.
Qed.

Lemma handle_game_delist_ok now w c gid flag :
  devs_ok w -> devs_ok (handle_game_delist now w c gid flag).1.
Proof.
  intros HI. unfold handle_game_delist.
  destruct (SESSIONS w !! c) as [sess|]; [|exact HI].
  destruct (if flag && _ then _ else _); [exact HI|].
  destruct (Store.Game_set_delisted _ _ _ _ _) as [d [?|e]]; [|exact HI].
  by apply (devs_ok_frame w).
Qed.

Lemma handle_upload_init_ok now rnd w c data :
  devs_ok w -> devs_ok (handle_upload_init now rnd w c data).1.
Proof.
  intros HI. unfold handle_upload_init.
  destruct (SESSIONS w !! c) as [sess|] eqn:Hc; [|exact HI].
  destruct (_ || _) eqn:Hguard; [exact HI|].
  apply orb_false_iff in Hguard as [Hguard Hsha].
  apply orb_false_iff in Hguard as [_ Hsize].
  destruct (negb (_VERSION_RE_fullmatch _)) eqn:Hre; [exact HI|].
  destruct (_ && _); [exact HI|].
  destruct (init_target _ _ _ _ _ _) as [?|[[d g] b]]; [exact HI|].
  apply bool_decide_eq_false in Hsize. apply negb_false_iff in Hsha, Hre.
  destruct HI as [I1 I2]. cbn [fst].
  split; cbn [SESSIONS ONLINE_DEVS UPLOADS]; [exact I1|].
  intros k up Hk. destruct (decide (k = rnd_upload_id rnd)) as [->|Hne].
  - rewrite lookup_insert_eq in Hk. injection Hk as <-.
    destruct (I1 c sess Hc) as [Hpos _].
    unfold upload_ok. cbn. repeat split; try done; lia.
  - rewrite lookup_insert_ne in Hk by done. by apply I2.
Qed.

Lemma handle_upload_chunk_ok w c data :
  devs_ok w -> devs_ok (handle_upload_chunk w c data).1.
Proof.
  intros HI. unfold handle_upload_chunk.
  destruct (SESSIONS w !! c) as [sess|]; [|exact HI].
  destruct (UPLOADS w !! _) as [up|] eqn:Hup; [|exact HI].
  destruct (decide _); [exact HI|]. destruct (decide _); [exact HI|].
  destruct (b64decode _) as [chunk|]; [|exact HI].
  destruct (bool_decide (chunk = [])) eqn:Hempty; [exact HI|].
  destruct (decide _) as [|Hfit]; [exact HI|].
  apply bool_decide_eq_false in Hempty.
  destruct HI as [I1 I2]. cbn [fst].
  split; cbn [SESSIONS ONLINE_DEVS UPLOADS]; [exact I1|].
  intros k up0 Hk.
  destruct (decide (k = Py.strip (Py.or_str (c_uploadId data) EmptyString)))
    as [->|Hne].
  - rewrite lookup_insert_eq in Hk. injection Hk as <-.
    destruct (I2 _ _ Hup) as (H1 & H2 & H3 & H4 & H5 & H6 & H7 & H8).
    assert (0 < Z.of_nat (length chunk)) by (destruct chunk; [done|cbn; lia]).
    unfold upload_ok. cbn. rewrite length_app.
    repeat split; try done; lia.
  - rewrite lookup_insert_ne in Hk by done. by apply I2.
Qed.

Lemma handle_upload_finish_ok now w c data :
  devs_ok w -> devs_ok (handle_upload_finish now w c data).1.
Proof.
  intros HI. unfold handle_upload_finish.
  destruct (SESSIONS w !! c) as [sess|]; [|exact HI].
  destruct (UPLOADS w !! _) as [up|]; [|exact HI].
  destruct (decide _); [exact HI|]. destruct (decide _); [exact HI|].
  destruct (negb (bool_decide _)); [exact HI|].
  destruct (stage_package _ _) as [f3 [e|]]; [by apply (devs_ok_frame w)|].
  destruct (Manifest.load_manifest_from_dir _ _) as [?|[m raw]];
    [by apply (devs_ok_frame w)|].
  destruct (negb (bool_decide (Manifest.gameId m = _)));
    [by apply (devs_ok_frame w)|].
  destruct (negb (bool_decide (Manifest.version m = _)));
    [by apply (devs_ok_frame w)|].
  destruct (negb (Fs.exists_ f3 _)); [by apply (devs_ok_frame w)|].
  destruct (negb (Fs.exists_ f3 _)); [by apply (devs_ok_frame w)|].
  destruct (Store.Game_get_by_gameId _ _) as [gdata|e];
    [|by apply (devs_ok_frame w)].
  destruct (decide _); [by apply (devs_ok_frame w)|].
  destruct (Store.GameVersion_create _ _ _ _ _) as [d [gvid|e]];
    [|by apply (devs_ok_frame w)].
  destruct HI as [I1 I2]. cbn [fst].
  split; cbn [SESSIONS ONLINE_DEVS UPLOADS]; [exact I1|].
  intros k up0 Hk.
  destruct (decide (k = Py.strip (Py.or_str (f_uploadId data) EmptyString)))
    as [->|Hne].
  - by rewrite lookup_delete_eq in Hk.
  - rewrite lookup_delete_ne in Hk by done. by apply I2.
Qed.

Lemma exec_devs_ok s r :
  devs_ok (System.developer s) -> devs_ok (System.developer (System.exec s r)).
Proof.
  intros HI.
  assert (Hdev : forall dw, devs_ok dw ->
            devs_ok (System.developer (System.with_developer dw s))).
  { intros dw. by apply devs_ok_frame. }
  assert (Hlob : forall lw, devs_ok (System.developer (System.with_lobby lw s))).
  { intros lw. by apply (devs_ok_frame (System.developer s)). }
  destruct r; cbn [System.exec]; try apply Hlob; apply Hdev.
  - by apply handle_login_ok.
  - by apply drop_session_ok.
  - by apply drop_session_ok.
  - by apply handle_game_delist_ok.
  - by apply handle_upload_init_ok.
  - by apply handle_upload_chunk_ok.
  - by apply handle_upload_finish_ok.
Qed.

Lemma reachable_devs_ok s :
  System.reachable s -> devs_ok (System.developer s).
Proof.
  induction 1 as [|s r _ IH]; [|by apply exec_devs_ok].
  split; cbn; intros ? ? Hl; by rewrite lookup_empty in Hl.
Qed.

End WithEnv.

End DevTableFacts.

(** X20. In every reachable state a developer has one session: the
    developer of a session has a positive id and is recorded as online on
    the connection of that session, two connections with sessions of one
    developer are one connection, and a login as a developer who has a
    session is answered [already_online] and changes nothing. *)
Theorem one_session_per_developer `{Env} (s : System.state) :
  System.reachable s ->
  let w := System.developer s in
  (forall c sess, Developer.SESSIONS w !! c = Some sess ->
     0 < Developer.developer_id sess /\
     Developer.ONLINE_DEVS w !! Developer.developer_id sess = Some c) /\
  (forall c1 c2 s1 s2,
     Developer.SESSIONS w !! c1 = Some s1 -> Developer.SESSIONS w !! c2 = Some s2 ->
     Developer.developer_id s1 = Developer.developer_id s2 -> c1 = c2) /\
  (forall c sess c' name,
     Developer.SESSIONS w !! c = Some sess ->
     Developer.handle_login w c' (Store.OK (Some (Developer.developer_id sess), name))
     = (w, Err_ "already_online" [])).
Proof.
  intros Hr w.
  destruct (DevTableFacts.reachable_devs_ok s Hr) as [Hs _]. fold w in Hs.
  split; [exact Hs|]. split.
  - intros c1 c2 s1 s2 H1 H2 Heq.
    destruct (Hs _ _ H1) as [_ Ho1]. destruct (Hs _ _ H2) as [_ Ho2].
    rewrite Heq in Ho1. congruence.
  - intros c sess c' name Hc. destruct (Hs _ _ Hc) as [Hpos Ho].
    unfold Developer.handle_login. rewrite PyFacts.or_int_Some_pos by lia.
    destruct (decide (Developer.developer_id sess <= 0)); [lia|]. by rewrite Ho.
Qed.

(** Developer 7 of the examples tries a second login, on connection 2. *)
Lemma one_session_per_developer_witness :
  Developer.handle_login (System.developer Demo.platform_state) 2%nat
    (Store.OK (Some 7, Some "dev1"))
  = (System.developer Demo.platform_state, Err_ "already_online" []).
Proof.
  assert (Hr : @System.reachable Demo.demo_env Demo.platform_state).
  { apply SystemFacts.reachable_run. constructor. }
  destruct (@one_session_per_developer Demo.demo_env Demo.platform_state Hr)
    as (_ & _ & Hlogin).
  apply (Hlogin 1%nat (Developer.mkDevSession 7 "dev1") 2%nat (Some "dev1")).
  vm_compute. reflexivity.
Defined.

(** X21. In every reachable state every upload session in the table is
    well formed: it is stored under its own id and its temporary file is
    [TMP_ROOT/<id>.zip.part]; its developer id is positive; it has counted
    as many bytes as it has fed to the hash; the chunks accepted are at
    most the bytes received, and these are at most the announced size (so
    an upload of [n] bytes takes at most [n] chunks); its version passes
    the version pattern and its announced digest is not empty. *)
Theorem uploads_wellformed `{Env} (s : System.state) :
  System.reachable s ->
  forall k up, System.dev_UPLOADS s !! k = Some up ->
    Developer.upload_id up = k /\
    Developer.temp_path up = TMP_ROOT ++ [k +:+ ".zip.part"] /\
    0 < Developer.up_developer_id up /\
    0 <= Developer.next_seq up <= Developer.received up /\
    Developer.received up <= Developer.expected_size up /\
    Developer.received up = Z.of_nat (length (Developer.hasher up)) /\
    Developer._VERSION_RE_fullmatch (Developer.up_version up) = true /\
    Py.truthy (Developer.expected_sha256 up) = true.
Proof.
  intros Hr k up Hk.
  destruct (DevTableFacts.reachable_devs_ok s Hr) as [_ Hu].
  exact (Hu k up Hk).
Qed.

(** The upload of the examples after its first chunk of three bytes. *)
Lemma uploads_wellformed_witness :
  exists k up,
    System.dev_UPLOADS Season.uploading_state !! k = Some up /\
    Developer.received up = 3 /\
    Developer.upload_id up = k /\
    0 <= Developer.next_seq up <= Developer.received up /\
    Developer.received up <= Developer.expected_size up.
Proof.
  destruct (System.dev_UPLOADS Season.uploading_state !! "u1")
    as [up|] eqn:E; [|vm_compute in E; discriminate].
  pose proof (@uploads_wellformed Demo.demo_env Season.uploading_state
                SeasonFacts.uploading_reachable _ up E)
    as (Hid & _ & _ & Hseq & Hrecv & _).
  exists ("u1"), up. split; [exact E|].
  split; [vm_compute in E; by injection E as <-|]. by split.
Defined.

(** ** Reviews by those who played *)

Module LikeFacts.

(** [n] occurs in [s]. *)
Definition occurs (n s : string) : Prop := exists a b, s = a +:+ n +:+ b.

Lemma app_cons x (a b : string) : String x a +:+ b = String x (a +:+ b).
Proof. reflexivity. Qed.


Lemma app_nil_r_s (a : string) : a +:+ EmptyString = a.
Proof. induction a as [|x a IH]; [done|]. rewrite app_cons. by f_equal. Qed.



Lemma occurs_here n a b : occurs n (a +:+ n +:+ b).
Proof. by exists a, b. Qed.







End LikeFacts.

Module ReviewFacts.
Import Store.




End ReviewFacts.



(** ** A second login on one connection *)

(** X23. [handle_player_login] does not look at the session the connection
    already has.  In a reachable state, when a connection with the session
    of one player logs in as another player who is not online, and the
    connection then logs out or closes: the connection has no session, the
    store is as it was (the first player is still a member of the room it
    was in), and the first player is still recorded as online, so every
    later login as that player, on any connection, is answered
    [already_online]. *)
Theorem second_login_strands_first `{Env} (s : System.state) (now : Z)
    (c : Lobby.conn) (l : Lobby.loc) (sess : Lobby.PlayerSession) (q : Z)
    (name : option string) (notify : bool) :
  System.reachable s ->
  let w := System.lobby s in
  Lobby.session_of_writer w c = Some (l, sess) ->
  0 < q ->
  Lobby.SESSIONS_BY_PLAYER_ID w !! q = None ->
  let w2 := Lobby._cleanup_connection now
              (Lobby.handle_player_login w c (Store.OK (Some q, name))) c notify in
  Lobby.session_of_writer w2 c = None /\
  Lobby.SESSIONS_BY_PLAYER_ID w2 !! Lobby.player_id sess = Some l /\
  Lobby.heap w2 !! l = Some sess /\
  Lobby.db w2 = Lobby.db w /\
  (forall c' name',
     Lobby.handle_player_login w2 c' (Store.OK (Some (Lobby.player_id sess), name'))
     = Lobby._send w2 c' (Err_ "already_online" [])).
Proof.
  intros Hr w Hs Hq Hoff w2.
  destruct (SessionFacts.reachable_sessions_ok s Hr) as [I1 _ I3]. fold w in I1, I3.
  apply LobbyFacts.session_of_writer_Some in Hs as [Hc Hl].
  destruct (I1 c l Hc) as (sess' & Hl' & _ & Hp & Hby).
  assert (Hss : Some sess' = Some sess) by (etrans; [symmetry; exact Hl'|exact Hl]).
  injection Hss as ->.
  assert (Hfresh : l <> Lobby.next_loc w).
  { assert (l < Lobby.next_loc w)%nat by (apply I3; by exists sess). lia. }
  assert (Hpq : Lobby.player_id sess <> q).
  { intros Heq. rewrite Heq in Hby.
    assert (Hn : Some l = None) by (etrans; [symmetry; exact Hby|exact Hoff]).
    discriminate. }
  assert (Hw2 : exists out,
             w2 = Lobby.mkWorld (Lobby.db w) (Lobby.files w)
                    (<[Lobby.next_loc w :=
                         Lobby.mkPlayerSession q (Py.or_str name EmptyString) c None]>
                       (Lobby.heap w))
                    (S (Lobby.next_loc w))
                    (delete c (<[c := Lobby.next_loc w]> (Lobby.SESSIONS_BY_WRITER w)))
                    (delete q (<[q := Lobby.next_loc w]> (Lobby.SESSIONS_BY_PLAYER_ID w)))
                    (Lobby.ROOMS w) (Lobby.procs w) out).
  { subst w2. unfold Lobby.handle_player_login.
    rewrite PyFacts.or_int_Some_pos by lia.
    destruct (decide (q <= 0)); [lia|]. rewrite Hoff.
    unfold Lobby._cleanup_connection, Lobby._send, Lobby.with_sent.
    cbn [Lobby.db Lobby.files Lobby.heap Lobby.next_loc Lobby.SESSIONS_BY_WRITER
         Lobby.SESSIONS_BY_PLAYER_ID Lobby.ROOMS Lobby.procs Lobby.sent].
    assert (H1 : <[c := Lobby.next_loc w]> (Lobby.SESSIONS_BY_WRITER w) !! c
                 = Some (Lobby.next_loc w)) by apply lookup_insert_eq.
    rewrite H1.
    assert (H2 : <[Lobby.next_loc w :=
                     Lobby.mkPlayerSession q (Py.or_str name EmptyString) c None]>
                   (Lobby.heap w) !! Lobby.next_loc w
                 = Some (Lobby.mkPlayerSession q (Py.or_str name EmptyString) c None))
      by apply lookup_insert_eq.
    rewrite H2. cbn [Lobby.room_id Lobby.player_id].
    destruct notify; eexists; reflexivity. }
  destruct Hw2 as [out Hw2]. clearbody w2. subst w2.
  assert (Hstill : delete q (<[q := Lobby.next_loc w]> (Lobby.SESSIONS_BY_PLAYER_ID w))
                     !! Lobby.player_id sess = Some l).
  { rewrite lookup_delete_ne by done. rewrite lookup_insert_ne by done. exact Hby. }
  split.
  { unfold Lobby.session_of_writer. cbn [Lobby.SESSIONS_BY_WRITER].
    assert (Hd : delete c (<[c := Lobby.next_loc w]> (Lobby.SESSIONS_BY_WRITER w)) !! c
                 = None) by apply lookup_delete_eq.
    by rewrite Hd. }
  split; [exact Hstill|].
  split.
  { cbn [Lobby.heap]. etrans; [apply lookup_insert_ne; congruence|exact Hl]. }
  split; [reflexivity|].
  intros c' name'. unfold Lobby.handle_player_login.
  rewrite PyFacts.or_int_Some_pos by lia.
  destruct (decide (Lobby.player_id sess <= 0)); [lia|].
  cbn [Lobby.SESSIONS_BY_PLAYER_ID]. by rewrite Hstill.
Qed.

(** In the platform of the examples the connection of player 5 logs in as
    player 8 and closes; player 5 then tries to log in on connection 30. *)
Lemma second_login_strands_first_witness :
  let w2 := Lobby._cleanup_connection 1003
              (Lobby.handle_player_login (System.lobby Demo.platform_state) 10%nat
                 (Store.OK (Some 8, Some "hal")))
              10%nat false in
  Lobby.handle_player_login w2 30%nat (Store.OK (Some 5, Some "eve"))
  = Lobby._send w2 30%nat (Err_ "already_online" []).
Proof.
  assert (Hr : @System.reachable Demo.demo_env Demo.platform_state).
  { apply SystemFacts.reachable_run. constructor. }
  intros w2.
  refine (proj2 (proj2 (proj2 (proj2
            (@second_login_strands_first Demo.demo_env Demo.platform_state 1003
               10%nat 0%nat Season.eve 8 (Some "hal") false Hr _ _ _))))
            30%nat (Some "eve")).
  - vm_compute. reflexivity.
  - lia.
  - vm_compute. reflexivity.
Defined.

(** ** Downloads *)

Module DownloadFacts.
Import Download.

Section WithCodec.
Variable b64encode : list byte -> string.
Variable b64decode_client : string -> option (list byte).
Hypothesis codec : forall x, b64decode_client (b64encode x) = Some x.

Variable w : world.
Variable id : string.
Variable sess : DownloadSession.
Variable content : list byte.
Hypothesis id_clean : Py.strip id = id.
Hypothesis id_named : Py.truthy id = true.
Hypothesis id_open : DOWNLOADS w !! id = Some sess.
Hypothesis on_disk : Fs.read_bytes (files w) (zip_path sess) = Some content.

(** One request of the client's loop, as the handler answers it. *)
Lemma chunk_reply offset :
  0 <= offset ->
  let chunk := read_at content offset (32 * 1024) in
  let done := bool_decide (offset + Z.of_nat (length chunk) >= size_bytes sess) in
  handle_store_download_chunk b64encode w
    (mkDownloadChunk (Some id) (Some offset) (Some (32 * 1024)))
  = (if done then mkWorld (files w) (delete id (DOWNLOADS w)) else w,
     Ok_ [("downloadId", JStr id); ("offset", JInt offset);
          ("dataB64", JStr (b64encode chunk)); ("done", JBool done)]).
Proof.
  intros Hoff chunk done. unfold handle_store_download_chunk.
  cbn [k_downloadId k_offset k_limit].
  rewrite PyFacts.or_str_Some, id_clean, id_named, PyFacts.or_int_Some_0.
  rewrite bool_decide_eq_false_2 by lia. cbn [negb orb].
  rewrite id_open, on_disk.
  rewrite PyFacts.or_int_Some_pos by done.
  reflexivity.
Qed.

Lemma read_at_length offset :
  0 <= offset <= Z.of_nat (length content) ->
  Z.of_nat (length (read_at content offset (32 * 1024)))
  = Z.min (32 * 1024) (Z.of_nat (length content) - offset).
Proof.
  intros Hoff. unfold read_at. rewrite length_take, length_drop. lia.
Qed.

(** The loop from an offset within the file, when the session records
    the size of the file. *)
Lemma download_loop_rest fuel : forall offset,
  size_bytes sess = Z.of_nat (length content) ->
  0 <= offset <= Z.of_nat (length content) ->
  (Z.to_nat (Z.of_nat (length content) - offset) < fuel)%nat ->
  download_loop b64encode b64decode_client fuel w id offset
    (take (Z.to_nat offset) content)
  = Some (mkWorld (files w) (delete id (DOWNLOADS w)),
          Some (inr (content, Z.of_nat (length content)))).
Proof.
  induction fuel as [|fuel IH]; intros offset Hsize Hoff Hfuel; [lia|].
  cbn [download_loop]. rewrite chunk_reply by lia. cbv beta iota zeta.
  change (Manifest.dict_get _ "dataB64")
    with (Some (JStr (b64encode (read_at content offset (32 * 1024))))).
  cbv beta iota. rewrite codec.
  change (Manifest.dict_get _ "done")
    with (Some (JBool (bool_decide
            (offset + Z.of_nat (length (read_at content offset (32 * 1024)))
             >= size_bytes sess)))).
  cbv beta iota. cbn [Manifest.json_truthy].
  pose proof (read_at_length offset Hoff) as Hlen.
  destruct (bool_decide (_ >= size_bytes sess)) eqn:Hdone.
  - apply bool_decide_eq_true in Hdone. rewrite Hlen in Hdone.
    assert (Hall : read_at content offset (32 * 1024)
                   = drop (Z.to_nat offset) content).
    { unfold read_at. apply take_ge. rewrite length_drop. lia. }
    rewrite Hall, take_drop.
    replace (offset + Z.of_nat (length (drop (Z.to_nat offset) content)))
      with (Z.of_nat (length content)) by (rewrite length_drop; lia).
    reflexivity.
  - apply bool_decide_eq_false in Hdone. rewrite Hlen in Hdone.
    assert (Hnext : take (Z.to_nat offset) content
                    ++ read_at content offset (32 * 1024)
                    = take (Z.to_nat (offset + Z.of_nat
                              (length (read_at content offset (32 * 1024)))))
                           content).
    { rewrite Hlen. unfold read_at.
      replace (Z.to_nat (offset + Z.min (32 * 1024)
                            (Z.of_nat (length content) - offset)))
        with (Z.to_nat offset + Z.to_nat (32 * 1024))%nat by lia.
      by rewrite take_take_drop. }
    rewrite Hnext. apply IH; [exact Hsize|lia|lia].
Qed.

(** The loop when the session records more bytes than the file has. *)
Lemma download_loop_short fuel : forall offset written,
  size_bytes sess > Z.of_nat (length content) ->
  0 <= offset <= Z.of_nat (length content) ->
  download_loop b64encode b64decode_client fuel w id offset written = None.
Proof.
  induction fuel as [|fuel IH]; intros offset written Hsize Hoff; [done|].
  cbn [download_loop]. rewrite chunk_reply by lia. cbv beta iota zeta.
  change (Manifest.dict_get _ "dataB64")
    with (Some (JStr (b64encode (read_at content offset (32 * 1024))))).
  cbv beta iota. rewrite codec.
  change (Manifest.dict_get _ "done")
    with (Some (JBool (bool_decide
            (offset + Z.of_nat (length (read_at content offset (32 * 1024)))
             >= size_bytes sess)))).
  cbv beta iota. cbn [Manifest.json_truthy].
  pose proof (read_at_length offset Hoff) as Hlen.
  rewrite bool_decide_eq_false_2 by lia.
  apply IH; [exact Hsize|lia].
Qed.

End WithCodec.

(** The codec of the examples decodes what it encodes. *)
Lemma demo_codec x : DownloadDemo.decode (DownloadDemo.encode x) = Some x.
Proof.
  unfold DownloadDemo.decode, DownloadDemo.encode.
  by rewrite list_byte_of_string_of_list_byte.
Qed.

End DownloadFacts.

(** X24. A download brings the package.  When the session of a download
    records the size of the file it names, the client's loop of
    [store_download_chunk] requests, each answered by the handler, ends
    after at most one request per byte and one more: the bytes written are
    the file, byte for byte, the size test of the client passes, and the
    last answer has taken the session out of [DOWNLOADS]. *)
Theorem download_roundtrip (b64encode : list byte -> string)
    (b64decode_client : string -> option (list byte)) (w : Download.world)
    (id : string) (sess : Download.DownloadSession) (content : list byte)
    (fuel : nat) :
  (forall x, b64decode_client (b64encode x) = Some x) ->
  Py.strip id = id -> Py.truthy id = true ->
  Download.DOWNLOADS w !! id = Some sess ->
  Fs.read_bytes (Download.files w) (Download.zip_path sess) = Some content ->
  Download.size_bytes sess = Z.of_nat (length content) ->
  (length content < fuel)%nat ->
  Download.download_zip b64encode b64decode_client fuel w id
    (Download.size_bytes sess)
  = Some (Download.mkWorld (Download.files w) (delete id (Download.DOWNLOADS w)),
          Some (inr content)).
Proof.
  intros Hcodec Hclean Hnamed Hopen Hdisk Hsize Hfuel. unfold Download.download_zip.
  pose proof (DownloadFacts.download_loop_rest b64encode b64decode_client Hcodec
                w id sess content Hclean Hnamed Hopen Hdisk fuel 0 Hsize) as Hloop.
  change (take (Z.to_nat 0) content) with (@nil byte) in Hloop.
  rewrite Hloop by lia. rewrite Hsize. by destruct (decide _).
Qed.

(** The package of [g1] on the disk of the examples, six bytes. *)
Lemma download_roundtrip_witness :
  Download.download_zip DownloadDemo.encode DownloadDemo.decode 7
    (DownloadDemo.store 6) "d1" 6
  = Some (Download.mkWorld (Lobby.files Demo.lobby0)
            (delete "d1" (Download.DOWNLOADS (DownloadDemo.store 6))),
          Some (inr Demo.demo_zip)).
Proof.
  apply (download_roundtrip DownloadDemo.encode DownloadDemo.decode
           (DownloadDemo.store 6) "d1" (DownloadDemo.session 6) Demo.demo_zip 7).
  - exact DownloadFacts.demo_codec.
  - reflexivity.
  - reflexivity.
  - vm_compute. reflexivity.
  - vm_compute. reflexivity.
  - reflexivity.
  - cbn. lia.
Defined.

(** X25. A download that cannot end.  When the session records more bytes
    than the file it names has, the handler never answers [done]: at the
    end of the file it answers an empty chunk and keeps the session, and
    the client's loop asks again from the same offset; no number of
    requests ends it. *)
Theorem download_never_ends (b64encode : list byte -> string)
    (b64decode_client : string -> option (list byte)) (w : Download.world)
    (id : string) (sess : Download.DownloadSession) (content : list byte) :
  (forall x, b64decode_client (b64encode x) = Some x) ->
  Py.strip id = id -> Py.truthy id = true ->
  Download.DOWNLOADS w !! id = Some sess ->
  Fs.read_bytes (Download.files w) (Download.zip_path sess) = Some content ->
  Download.size_bytes sess > Z.of_nat (length content) ->
  (forall fuel size,
     Download.download_zip b64encode b64decode_client fuel w id size = None) /\
  Download.handle_store_download_chunk b64encode w
    (Download.mkDownloadChunk (Some id) (Some (Z.of_nat (length content)))
       (Some (32 * 1024)))
  = (w, Ok_ [("downloadId", JStr id); ("offset", JInt (Z.of_nat (length content)));
             ("dataB64", JStr (b64encode [])); ("done", JBool false)]).
Proof.
  intros Hcodec Hclean Hnamed Hopen Hdisk Hsize. split.
  - intros fuel size. unfold Download.download_zip.
    by rewrite (DownloadFacts.download_loop_short b64encode b64decode_client Hcodec
                  w id sess content Hclean Hnamed Hopen Hdisk fuel 0 [] Hsize) by lia.
  - rewrite (DownloadFacts.chunk_reply b64encode w id sess content
               Hclean Hnamed Hopen Hdisk) by lia.
    assert (Hend : Download.read_at content (Z.of_nat (length content)) (32 * 1024) = []).
    { unfold Download.read_at. rewrite Nat2Z.id, drop_all. apply take_nil. }
    rewrite Hend. cbn [length]. by rewrite bool_decide_eq_false_2 by lia.
Qed.

(** The same package with a session that records ten bytes: a thousand
    requests do not end the loop. *)
Lemma download_never_ends_witness :
  Download.download_zip DownloadDemo.encode DownloadDemo.decode 1000
    (DownloadDemo.store 10) "d1" 10 = None.
Proof.
  apply (proj1 (download_never_ends DownloadDemo.encode DownloadDemo.decode
                  (DownloadDemo.store 10) "d1" (DownloadDemo.session 10)
                  Demo.demo_zip DownloadFacts.demo_codec eq_refl eq_refl eq_refl
                  eq_refl eq_refl) 1000%nat 10).
Defined.
